(** * lawfirm-data-pipeline: the orchestration layer, embedded in Rocq

    The pipeline is written against the [effect] runtime: every unit of
    work is an [Effect] value, composed with [pipe], [Effect.gen],
    [Effect.retry], [Effect.catchAll] and friends.  This file embeds the
    runners ([src/runner/websiteScraper.ts] and the CRM-sync runner), the
    browser services ([src/services/browser.ts]), the workflow definitions
    and the [ScrapeWebsite] activity as state-passing functions over an
    explicit [World], and proves what the orchestration code does.

    An effect is a function from the world to an exit and a new world.  The
    exits are the ones of the runtime: success, typed failure, defect
    (an untyped crash), interruption; [Pending] stands for a fiber that has
    not finished (it is parked, or the unrolling depth of an unbounded loop
    is used up). *)

From Stdlib Require Import ZArith List String Ascii Bool Lia DecimalString.
Import ListNotations.
Local Open Scope string_scope.
Local Open Scope list_scope.
Local Open Scope Z_scope.

Set Implicit Arguments.

(* ------------------------------------------------------------------ *)
(** ** The effect runtime *)

Module Effect.

(** The typed failures of the repository, by tag. *)
Inductive Err : Type :=
| NoMoreRecords
| TimeoutException
| ScrapeWebsiteError (message : string)
| SyncCrmError (message : string)
| PrismaError (message : string)
| UnknownException (message : string).

(** [(error as Error).message]; for the two errors without a message of
    the repository's own, the tag stands for it. *)
Definition message_of (e : Err) : string :=
match e with
| NoMoreRecords => "NoMoreRecords"
| TimeoutException => "TimeoutException"
| ScrapeWebsiteError m => m
| SyncCrmError m => m
| PrismaError m => m
| UnknownException m => m
end.

Inductive Exit (A : Type) : Type :=
| Success (a : A)
| Failure (e : Err)
| Die (defect : string)
| Interrupted
| Pending.

Arguments Success {A} a.
Arguments Failure {A} e.
Arguments Die {A} defect.
Arguments Interrupted {A}.
Arguments Pending {A}.

Definition Eff (W A : Type) : Type := W -> Exit A * W.

(** An exit that is not a success, at another result type. *)
Definition coerce {A B : Type} (r : Exit A) (dflt : Exit B) : Exit B :=
match r with
| Success _ => dflt
| Failure e => Failure e
| Die d => Die d
| Interrupted => Interrupted
| Pending => Pending
end.

Section Combinators.
Context {W : Type}.

Definition succeed {A} (a : A) : Eff W A := fun w => (Success a, w).
Definition fail {A} (e : Err) : Eff W A := fun w => (Failure e, w).
Definition die {A} (d : string) : Eff W A := fun w => (Die d, w).

(** [Effect.sync]: a total side effect on the world. *)
Definition sync (f : W -> W) : Eff W unit := fun w => (Success tt, f w).

(** [yield*] inside [Effect.gen], [Effect.flatMap], [Effect.andThen]. *)
Definition bind {A B} (m : Eff W A) (k : A -> Eff W B) : Eff W B :=
fun w =>
  match m w with
  | (Success a, w') => k a w'
  | (Failure e, w') => (Failure e, w')
  | (Die d, w') => (Die d, w')
  | (Interrupted, w') => (Interrupted, w')
  | (Pending, w') => (Pending, w')
  end.

(** [Effect.map] *)
Definition map {A B} (f : A -> B) (m : Eff W A) : Eff W B :=
bind m (fun a => succeed (f a)).

(** [Effect.catchAll]: recovers from every typed failure; defects and
  interruption pass through. *)
Definition catchAll {A} (m : Eff W A) (h : Err -> Eff W A) : Eff W A :=
fun w =>
  match m w with
  | (Failure e, w') => h e w'
  | r => r
  end.

(** [Effect.catchTag]: recovers from the typed failures of one tag. *)
Definition catchTag {A} (tag : Err -> bool) (m : Eff W A)
  (h : Err -> Eff W A) : Eff W A :=
fun w =>
  match m w with
  | (Failure e, w') => if tag e then h e w' else (Failure e, w')
  | r => r
  end.

(** [Effect.mapError] *)
Definition mapError {A} (f : Err -> Err) (m : Eff W A) : Eff W A :=
fun w =>
  match m w with
  | (Failure e, w') => (Failure (f e), w')
  | r => r
  end.

(** [Effect.tapError]: runs [f] on a typed failure and then fails with
  the same error ([f] here only logs). *)
Definition tapError {A} (f : Err -> W -> W) (m : Eff W A) : Eff W A :=
fun w =>
  match m w with
  | (Failure e, w') => (Failure e, f e w')
  | r => r
  end.

(** [Effect.orDie]: a typed failure becomes a defect. *)
Definition orDie {A} (m : Eff W A) : Eff W A :=
fun w =>
  match m w with
  | (Failure e, w') => (Die (message_of e), w')
  | r => r
  end.

(** [Effect.ignore]: success and typed failure are both discarded,
  without a log line. *)
Definition ignore {A} (m : Eff W A) : Eff W unit :=
fun w =>
  match m w with
  | (Success _, w') => (Success tt, w')
  | (Failure _, w') => (Success tt, w')
  | (Die d, w') => (Die d, w')
  | (Interrupted, w') => (Interrupted, w')
  | (Pending, w') => (Pending, w')
  end.
End Combinators.

Declare Scope eff_scope.
Delimit Scope eff_scope with eff.
Notation "x <- m ;; k" := (bind m (fun x => k))
(at level 61, m at next level, right associativity) : eff_scope.
Notation "m ;; k" := (bind m (fun _ => k))
(at level 61, right associativity) : eff_scope.

(** *** Schedules

  [Schedule.recurs n] allows [n] recurrences; [Schedule.exponential base]
  waits [base * 2^i] before recurrence [i] (counted from 0) and never
  stops by itself; [Schedule.spaced d] waits [d] and never stops;
  [Schedule.intersect] recurs only while both sides do and waits the
  longer of the two delays. *)
Inductive Schedule : Type :=
| recurs (n : nat)
| exponential (base : Z)
| spaced (d : Z)
| intersect (a b : Schedule).

Fixpoint recurrences (s : Schedule) : option nat :=
match s with
| recurs n => Some n
| exponential _ => None
| spaced _ => None
| intersect a b =>
    match recurrences a, recurrences b with
    | Some x, Some y => Some (Nat.min x y)
    | Some x, None => Some x
    | None, r => r
    end
end.

Fixpoint delay (s : Schedule) (i : nat) : Z :=
match s with
| recurs _ => 0
| exponential base => base * 2 ^ Z.of_nat i
| spaced d => d
| intersect a b => Z.max (delay a i) (delay b i)
end.

Definition continues (s : Schedule) (i : nat) : bool :=
match recurrences s with
| Some n => Nat.ltb i n
| None => true
end.

(** A world in which a fiber can wait. *)
Class Clock (W : Type) : Type := { sleep : Z -> Eff W unit }.

(** State carried next to the world (a scope's finalizers, a test's
  counter) does not change how time passes. *)
#[export] Instance Pair_Clock {X W : Type} `{Clock W} : Clock (X * W) :=
{| sleep := fun d '(x, w) => let '(r, w') := sleep d w in (r, (x, w')) |}.

Section Repetition.
Context {W : Type} `{Clock W}.
Local Open Scope eff_scope.

(** The wait between two recurrences; the driver does not sleep for a
  delay of zero. *)
Definition pause (d : Z) : Eff W unit :=
if d <=? 0 then succeed tt else sleep d.

(** The retry driver: [eff i] is the try made after [i] earlier ones
  failed; a typed failure is retried while [left] recurrences remain,
  after the schedule's delay.  Defects, interruption and success end
  the retrying at once; when no recurrence is left the last error is
  the result. *)
Fixpoint retryFrom {A} (s : Schedule) (left : nat) (i : nat)
  (eff : nat -> Eff W A) : Eff W A :=
fun w =>
  match eff i w with
  | (Failure e, w') =>
      match left with
      | O => (Failure e, w')
      | S left' =>
          (pause (delay s i) ;; retryFrom s left' (S i) eff) w'
      end
  | r => r
  end.

(** [Effect.retry(schedule)].  Every schedule this repository passes to
  [Effect.retry] is bounded by a [Schedule.recurs]; under an unbounded
  schedule a failing effect is retried without end, which the model
  reports as [Pending] at the first failure. *)
Definition retry {A} (s : Schedule) (eff : Eff W A) : Eff W A :=
match recurrences s with
| Some n => retryFrom s n 0 (fun _ => eff)
| None =>
    fun w =>
      match eff w with
      | (Failure _, w') => (Pending, w')
      | r => r
      end
end.

(** [Effect.repeat(schedule)]: the effect runs once, and again after
  each success for as long as the schedule recurs; the first failure
  ends the repetition with that failure.  [fuel] bounds the number of
  runs the model unrolls: when it is used up the fiber is still
  repeating ([Pending]).  The schedule's output is discarded by every
  caller, so the result is [unit]. *)
Fixpoint repeatFrom {A} (fuel : nat) (s : Schedule) (i : nat)
  (eff : Eff W A) : Eff W unit :=
fun w =>
  match fuel with
  | O => (Pending, w)
  | S fuel' =>
      match eff w with
      | (Success _, w') =>
          if continues s i
          then (pause (delay s i) ;; repeatFrom fuel' s (S i) eff) w'
          else (Success tt, w')
      | (r, w') => (coerce r (Success tt), w')
      end
  end.

Definition repeat {A} (fuel : nat) (s : Schedule) (eff : Eff W A)
  : Eff W unit :=
repeatFrom fuel s 0 eff.
End Repetition.

Section Loop.
Context {W : Type}.
Local Open Scope eff_scope.

(** [Effect.loop(initial, { while, step, body })], as the library
  documents it:
<<
  let state = initial; const result = []
  while (options.while(state)) {
    result.push(options.body(state))
    state = options.step(state)
  }
  return result
>>
  [step] is applied to the loop state, never to what [body] returned;
  [body]'s results are only collected.  [fuel] bounds the number of
  iterations the model unrolls. *)
Fixpoint loop {St A} (fuel : nat) (initial : St) (while : St -> bool)
  (step : St -> St) (body : St -> Eff W A) : Eff W (list A) :=
fun w =>
  if while initial then
    match fuel with
    | O => (Pending, w)
    | S fuel' =>
        (a <- body initial ;;
         map (cons a) (loop fuel' (step initial) while step body)) w
    end
  else (Success [], w).
End Loop.

End Effect.

Import Effect.
Local Open Scope eff_scope.

(* ------------------------------------------------------------------ *)
(** ** The world: clock, store, metrics, log, browser *)

(** [PlaceEntry] rows (the backlog of the website scraper).  [status] is
    the nullable tri-state column: [None] unclaimed, [Some true]
    succeeded, [Some false] failed.  [location] is read as
    [record.location!] by the runner. *)
Module PlaceEntry.
Record t : Type := make {
  id : string;
  name : string;
  url : string;
  address : string;
  telephone : string;
  location : string;
  status : option bool
}.

Definition withStatus (s : option bool) (r : t) : t :=
  make (id r) (name r) (url r) (address r) (telephone r) (location r) s.
End PlaceEntry.

(** [Company] rows (the derived records), with the relations the CRM
    runner includes: [servicesOffered] (names of the connected
    [FirmService] rows) and [crmSyncEvent] ([None] when there is none,
    [Some s] for an event of status [s]). *)
Module Company.
Record t : Type := make {
  id : string;
  name : string;
  websiteUrl : string;
  emailAddress : option string;
  phoneNumber : option string;
  address : option string;
  industry : option string;
  location : option string;
  servicesOffered : list string;
  crmSyncEvent : option bool
}.

Definition withCrmSyncEvent (s : bool) (r : t) : t :=
  make (id r) (name r) (websiteUrl r) (emailAddress r) (phoneNumber r)
       (address r) (industry r) (location r) (servicesOffered r) (Some s).
End Company.

(** The counters and the duration histogram of a runner
    ([Metric.counter], [Metric.histogram]); the histogram keeps its
    samples, newest first. *)
Record Metrics : Type := {
  recordsProcessed : Z;
  recordsFailed : Z;
  recordsSkipped : Z;
  recordsTimedOut : Z;
  processingDuration : list Z
}.

Inductive LogLevel : Type := LogInfo | LogWarning | LogError | LogDebug.

(** A log line: level, message, and the annotated record id if any. *)
Record LogLine : Type := {
  level : LogLevel;
  text : string;
  about : option string
}.

(** What happened to the browser's sub-resources, newest first. *)
Inductive Event : Type :=
| NewContext (c : nat)
| StorageState (c : nat)
| CloseContext (c : nat)
| StartAgent (a : nat)
| StopAgent (a : nat).

(** The two browser services: the permits of each service's semaphore,
    the number of sub-resources created so far (the next handle), and
    the handles that are open. *)
Record Browser : Type := {
  contextPermits : nat;
  agentPermits : nat;
  opened : nat;
  live : list nat;
  events : list Event
}.

Record World : Type := {
  now : Z;                        (* [Date.now()], milliseconds *)
  deadline : option Z;            (* the earliest enclosing [Effect.timeout] *)
  placeEntry : list PlaceEntry.t; (* [db.placeEntry], in table order *)
  company : list Company.t;       (* [db.company], in table order *)
  metrics : Metrics;
  logs : list LogLine;            (* newest first *)
  browser : Browser
}.

Definition set_now (v : Z) (w : World) : World :=
  {| now := v; deadline := deadline w; placeEntry := placeEntry w;
     company := company w; metrics := metrics w; logs := logs w;
     browser := browser w |}.

Definition set_deadline (v : option Z) (w : World) : World :=
  {| now := now w; deadline := v; placeEntry := placeEntry w;
     company := company w; metrics := metrics w; logs := logs w;
     browser := browser w |}.

Definition set_placeEntry (v : list PlaceEntry.t) (w : World) : World :=
  {| now := now w; deadline := deadline w; placeEntry := v;
     company := company w; metrics := metrics w; logs := logs w;
     browser := browser w |}.

Definition set_company (v : list Company.t) (w : World) : World :=
  {| now := now w; deadline := deadline w; placeEntry := placeEntry w;
     company := v; metrics := metrics w; logs := logs w;
     browser := browser w |}.

Definition set_metrics (v : Metrics) (w : World) : World :=
  {| now := now w; deadline := deadline w; placeEntry := placeEntry w;
     company := company w; metrics := v; logs := logs w;
     browser := browser w |}.

Definition set_logs (v : list LogLine) (w : World) : World :=
  {| now := now w; deadline := deadline w; placeEntry := placeEntry w;
     company := company w; metrics := metrics w; logs := v;
     browser := browser w |}.

Definition set_browser (v : Browser) (w : World) : World :=
  {| now := now w; deadline := deadline w; placeEntry := placeEntry w;
     company := company w; metrics := metrics w; logs := logs w;
     browser := v |}.

(** *** Time, interruption and external calls *)

(** Time passes for [d] milliseconds.  This is a suspension point: when
    an enclosing [Effect.timeout] expires first, the fiber is interrupted
    at the deadline. *)
Definition elapse (d : Z) : Eff World unit :=
  fun w =>
    match deadline w with
    | Some dl =>
        if dl <? now w + d
        then (Interrupted, set_now (Z.max (now w) dl) w)
        else (Success tt, set_now (now w + d) w)
    | None => (Success tt, set_now (now w + d) w)
    end.

#[export] Instance World_Clock : Clock World := {| sleep := elapse |}.

(** [Date.now()] *)
Definition Date_now : Eff World Z := fun w => (Success (now w), w).

(** [Effect.timeout(d)]: the effect runs under a deadline [d] from now
    (or the enclosing deadline when that one is earlier); when its own
    deadline interrupts it, the result is the typed failure
    [TimeoutException]. *)
Definition timeout {A} (d : Z) (eff : Eff World A) : Eff World A :=
  fun w =>
    let own := now w + d in
    let outer := deadline w in
    let mine := match outer with
                | Some o => own <? o
                | None => true
                end in
    let '(r, w') := eff (set_deadline (Some (if mine then own else
                           match outer with Some o => o | None => own end)) w) in
    let w'' := set_deadline outer w' in
    match r with
    | Interrupted => if mine then (Failure TimeoutException, w'')
                     else (Interrupted, w'')
    | _ => (r, w'')
    end.

(** [Effect.uninterruptible]: finalizers and acquisitions ignore the
    deadline. *)
Definition uninterruptible {A} (eff : Eff World A) : Eff World A :=
  fun w =>
    let '(r, w') := eff (set_deadline None w) in
    (r, set_deadline (deadline w) w').

(** How a promise of an external collaborator (the browser, the page, the
    AI extraction) settles, and how long that takes. *)
Inductive Settled (A : Type) : Type :=
| Resolved (a : A)
| Rejected (reason : string).
Arguments Resolved {A} a.
Arguments Rejected {A} reason.

Record Reply (A : Type) : Type := { took : Z; settled : Settled A }.

(** [Effect.promise(() => p)]: a rejection is a defect. *)
Definition promise {A} (p : Reply A) : Eff World A :=
  elapse (took p) ;;
  match settled p with
  | Resolved a => succeed a
  | Rejected m => die m
  end.

(** [Effect.tryPromise({ try: () => p, catch })]: a rejection is the
    typed failure [catch] builds. *)
Definition tryPromise {A} (p : Reply A) (catch : string -> Err)
    : Eff World A :=
  elapse (took p) ;;
  match settled p with
  | Resolved a => succeed a
  | Rejected m => fail (catch m)
  end.

(** [Effect.log], [Effect.logWarning], [Effect.logError] *)
Definition logLine (l : LogLevel) (t : string) (a : option string)
    : Eff World unit :=
  sync (fun w => set_logs ({| level := l; text := t; about := a |} :: logs w) w).

Definition log (t : string) : Eff World unit := logLine LogInfo t None.

(** *** Scopes

    An effect that needs a [Scope] carries the scope's finalizers next to
    the world.  A finalizer is told whether the scope exits with a
    success. *)
Definition Finalizer : Type := bool -> Eff World unit.
Definition Scope : Type := list Finalizer.   (* newest first *)
Definition Scoped (A : Type) : Type := Eff (Scope * World) A.

Definition lift {A} (eff : Eff World A) : Scoped A :=
  fun '(fs, w) => let '(r, w') := eff w in (r, (fs, w')).

(** [Effect.addFinalizer] *)
Definition addFinalizer (f : Finalizer) : Scoped unit :=
  fun '(fs, w) => (Success tt, (f :: fs, w)).

(** [Effect.acquireRelease(acquire, release)]: the acquisition is
    uninterruptible; once it succeeds, [release] is registered in the
    enclosing scope and the resource is returned at once.  The release
    runs when that scope closes. *)
Definition acquireRelease {A} (acquire : Eff World A)
    (release : A -> Eff World unit) : Scoped A :=
  fun '(fs, w) =>
    match uninterruptible acquire w with
    | (Success a, w') => (Success a, ((fun _ => release a) :: fs, w'))
    | (r, w') => (r, (fs, w'))
    end.

(** Closing a scope: every finalizer runs, newest first, each exactly
    once and whatever the earlier ones did; the first exit that is not a
    success is the result. *)
Fixpoint closeScope (fs : Scope) (ok : bool) : Eff World unit :=
  fun w =>
    match fs with
    | [] => (Success tt, w)
    | f :: rest =>
        let '(r, w') := f ok w in
        let '(r', w'') := closeScope rest ok w' in
        (match r with Success _ => r' | _ => r end, w'')
    end.

Definition isSuccess {A} (r : Exit A) : bool :=
  match r with Success _ => true | _ => false end.

(** [Effect.scoped]: the effect runs in a fresh scope, which is closed
    when the effect exits, however it exits.  The finalizers are
    uninterruptible.  A fiber that has not finished has not closed its
    scope. *)
Definition scoped {A} (eff : Scoped A) : Eff World A :=
  fun w =>
    match eff ([], w) with
    | (Pending, (_, w')) => (Pending, w')
    | (r, (fs, w')) =>
        let '(rf, w'') := uninterruptible (closeScope fs (isSuccess r)) w' in
        (match r with
         | Success a => coerce rf (Success a)
         | _ => r
         end, w'')
    end.

(* ------------------------------------------------------------------ *)
(** ** The external collaborators *)

(** What the AI extraction returns ([agent.extract] with the zod schema
    of the activity). *)
Module Extracted.
Record t : Type := make {
  emailAddress : option string;
  telephoneNumber : option string;
  address : option string;
  servicesOffered : list string
}.
End Extracted.

(** The environment answers every call the code makes to a collaborator:
    the browser and its contexts by handle, the agent's page by target
    URL and activity attempt.  The code under study never sees more of a
    collaborator than these answers. *)
Record Env : Type := {
  launchBrowser : Reply unit;              (* [chromium.launch({...})] *)
  closeBrowser : Reply unit;               (* [b.close()] *)
  newContext : nat -> Reply unit;          (* [browser.newContext(options)] *)
  closeContext : nat -> Reply unit;        (* [c.close()] *)
  saveStorageState : nat -> Reply unit;    (* [context.storageState({ path })] *)
  startBrowserAgent : nat -> Reply unit;   (* [startBrowserAgent({...})] *)
  stopAgent : nat -> bool -> Reply unit;   (* [agent.stop()]: handle, called by the finalizer? *)
  goto : string -> nat -> Reply unit;      (* [agent.page.goto(url, ...)] *)
  extract : string -> nat -> Reply Extracted.t;
  waitForTimeout : string -> nat -> Reply unit;
  newId : nat -> string                    (* the id the store gives a new row *)
}.

(* ------------------------------------------------------------------ *)
(** ** src/services/browser.ts *)

Module BrowserService.

Inductive Sem : Type := ContextSem | AgentSem.

Definition permitsOf (s : Sem) (w : World) : nat :=
match s with
| ContextSem => contextPermits (browser w)
| AgentSem => agentPermits (browser w)
end.

Definition setPermits (s : Sem) (n : nat) (w : World) : World :=
let b := browser w in
set_browser
  match s with
  | ContextSem =>
      {| contextPermits := n; agentPermits := agentPermits b;
         opened := opened b; live := live b; events := events b |}
  | AgentSem =>
      {| contextPermits := contextPermits b; agentPermits := n;
         opened := opened b; live := live b; events := events b |}
  end w.

(** [Effect.makeSemaphore(n)] *)
Definition makeSemaphore (s : Sem) (n : nat) : Eff World unit :=
sync (setPermits s n).

(** [semaphore.withPermits(n)(effect)]: takes [n] permits, runs the
  effect, and gives the permits back when {e that effect} completes.
  A fiber that finds fewer than [n] permits is parked until another
  fiber returns some. *)
Definition withPermits {A} (s : Sem) (n : nat) (eff : Scoped A) : Scoped A :=
fun '(fs, w) =>
  if Nat.ltb (permitsOf s w) n then (Pending, (fs, w))
  else
    match eff (fs, setPermits s (permitsOf s w - n) w) with
    | (Pending, st) => (Pending, st)
    | (r, (fs', w')) => (r, (fs', setPermits s (permitsOf s w' + n) w'))
    end.

Definition record (e : Event) (w : World) : World :=
let b := browser w in
set_browser
  {| contextPermits := contextPermits b; agentPermits := agentPermits b;
     opened := opened b; live := live b; events := e :: events b |} w.

Definition nextHandle : Eff World nat :=
fun w =>
  let b := browser w in
  (Success (opened b),
   set_browser
     {| contextPermits := contextPermits b; agentPermits := agentPermits b;
        opened := S (opened b); live := live b; events := events b |} w).

Definition setLive (l : list nat) (w : World) : World :=
let b := browser w in
set_browser
  {| contextPermits := contextPermits b; agentPermits := agentPermits b;
     opened := opened b; live := l; events := events b |} w.

Definition remove (c : nat) (l : list nat) : list nat :=
filter (fun x => negb (Nat.eqb x c)) l.

Section Services.
Variable env : Env.

(** [browser.newContext(browserContext)] *)
Definition browser_newContext : Eff World nat :=
c <- nextHandle ;;
promise (newContext env c) ;;
sync (fun w => record (NewContext c) (setLive (c :: live (browser w)) w)) ;;
succeed c.

(** [c.close()] *)
Definition context_close (c : nat) : Eff World unit :=
sync (record (CloseContext c)) ;;
promise (closeContext env c) ;;
sync (fun w => setLive (remove c (live (browser w))) w).

(** [BrowserService.getContext({ browserContext, onBeforeClose })],
  lines 30-48. *)
Definition getContext (onBeforeClose : option (nat -> Eff World unit))
  : Scoped nat :=
retry (recurs 2)
  (withPermits ContextSem 1
     (acquireRelease
        browser_newContext
        (fun c =>
           orDie
             ((match onBeforeClose with
               | Some hook => hook c
               | None => succeed tt
               end) ;;
              context_close c)))).

(** The hook the activities pass as [onBeforeClose]:
<<
  Effect.tryPromise({
    try: () => context.storageState({ path: "./playwright/auth.json" }),
    catch: (error) => new Error(`Failed to save storage state: ${error}`)
  }).pipe(Effect.ignore) // Ignore errors to ensure close happens
>> *)
Definition persistSession (c : nat) : Eff World unit :=
ignore
  (sync (record (StorageState c)) ;;
   tryPromise (saveStorageState env c)
     (fun m => UnknownException ("Failed to save storage state: " ++ m))).

(** [startBrowserAgent({ ..., browser: { instance } })] *)
Definition agent_start : Eff World nat :=
a <- nextHandle ;;
promise (startBrowserAgent env a) ;;
sync (fun w => record (StartAgent a) (setLive (a :: live (browser w)) w)) ;;
succeed a.

(** [agent.stop()]; [finalizing] tells the scope's finalizer from the
  activity's own call, and [settle] is how the caller wraps the
  promise ([Effect.promise] or [Effect.tryPromise]). *)
Definition agent_stop (a : nat) (finalizing : bool)
  (settle : Reply unit -> Eff World unit) : Eff World unit :=
sync (record (StopAgent a)) ;;
settle (stopAgent env a finalizing) ;;
sync (fun w => setLive (remove a (live (browser w))) w).

(** [BrowserAgentService.getBrowserAgent()], lines 74-95. *)
Definition getBrowserAgent : Scoped nat :=
retry (recurs 2)
  (withPermits AgentSem 1
     (acquireRelease
        agent_start
        (fun a => orDie (agent_stop a true promise)))).

(** The services' constructors (the [scoped:] generators): the browser
  process is launched and the semaphore is made with 10 permits. *)
Definition BrowserService_make : Scoped unit :=
acquireRelease (promise (launchBrowser env))
               (fun _ => orDie (promise (closeBrowser env))) ;;
lift (makeSemaphore ContextSem 10).

Definition BrowserAgentService_make : Eff World unit :=
promise (launchBrowser env) ;;
makeSemaphore AgentSem 10.
End Services.

End BrowserService.

(* ------------------------------------------------------------------ *)
(** ** @effect/workflow: activities and workflows *)

Module Activity.
Section Retry.
Context {W : Type} `{Clock W}.

(** [Activity.retry({ times })]: [Effect.retry] under
    [Schedule.recurs(times)], with [Activity.CurrentAttempt] provided
    to each try: 1 for the first, one more for every retry. *)
Definition retry {A} (times : nat) (execute : nat -> Eff W A) : Eff W A :=
  retryFrom (recurs times) times 0 (fun i => execute (S i)).
End Retry.
End Activity.

Module Workflow.
(** [Workflow.withCompensation(compensation)]: once the activity has
    succeeded, its compensation is registered on the workflow's scope;
    it runs only if the workflow then fails. *)
Definition withCompensation {A} (activity : Eff World A)
    (compensation : A -> Eff World unit) : Scoped A :=
  a <- lift activity ;;
  addFinalizer (fun ok => if ok then succeed tt else compensation a) ;;
  succeed a.

(** [Workflow.execute(payload)]: the workflow body runs in the scope of
    its execution.  The engine runs an execution in a fiber of its own;
    the model runs it in the caller's, so a caller's [Effect.timeout]
    interrupts the body here where the engine lets it run on.  What the
    model says of an execution that timed out holds for the caller (its
    counters, what it writes to the backlog), not for what the body does
    after the timeout. *)
Definition execute {A} (body : Scoped A) : Eff World A := scoped body.
End Workflow.

(** The three workflow definitions and their idempotency keys. *)
Module Date.
(** [new Date(t).toISOString()] for a time value [t] (milliseconds
    since the epoch) of the years 1970 to 9999:
    [YYYY-MM-DDTHH:mm:ss.sssZ]. *)
Definition msPerDay : Z := 86400000.

(** ECMAScript's date algorithms: a year is a leap year when it is
    divisible by 4 and not by 100, or by 400 ([DaysInYear]); the year
    of a day number is found by walking the years from 1970
    ([YearFromTime]), the month by walking the twelve month lengths
    ([MonthFromTime], [DateFromTime]). *)
Definition isLeapYear (y : Z) : bool :=
  (y mod 4 =? 0) && (negb (y mod 100 =? 0) || (y mod 400 =? 0)).

Definition daysInYear (y : Z) : Z := if isLeapYear y then 366 else 365.

Definition monthLengths (y : Z) : list Z :=
  [31; if isLeapYear y then 29 else 28; 31; 30; 31; 30; 31; 31; 30; 31; 30; 31].

Fixpoint yearFrom (fuel : nat) (y day : Z) : Z * Z :=
  match fuel with
  | O => (y, day)
  | S fuel' =>
      if day <? daysInYear y then (y, day)
      else yearFrom fuel' (y + 1) (day - daysInYear y)
  end.

Fixpoint monthFrom (lengths : list Z) (m day : Z) : Z * Z :=
  match lengths with
  | [] => (m, day)
  | len :: rest =>
      if day <? len then (m, day) else monthFrom rest (m + 1) (day - len)
  end.

(** Year, month and day of the month of a day number (days since
    1970-01-01); the walk is bounded by 8036 years, which covers every
    day of the four-digit years 1970 to 9999. *)
Definition civil (day : Z) : Z * Z * Z :=
  let '(y, dayInYear) := yearFrom (Z.to_nat 8036) 1970 day in
  let '(m, dayInMonth) := monthFrom (monthLengths y) 1 dayInYear in
  (y, m, dayInMonth + 1).

Definition digit (n : Z) : ascii := ascii_of_nat (48 + Z.to_nat (n mod 10)).

Definition pad2 (n : Z) (rest : string) : string :=
  String (digit (n / 10)) (String (digit n) rest).
Definition pad3 (n : Z) (rest : string) : string :=
  String (digit (n / 100)) (pad2 n rest).
Definition pad4 (n : Z) (rest : string) : string :=
  String (digit (n / 1000)) (pad3 n rest).

Definition toISOString (t : Z) : string :=
  let '(y, m, d) := civil (t / msPerDay) in
  let ms := t mod msPerDay in
  pad4 y ("-" ++ pad2 m ("-" ++ pad2 d ("T" ++
    pad2 (ms / 3600000) (":" ++ pad2 (ms / 60000 mod 60) (":" ++
    pad2 (ms / 1000 mod 60) ("." ++ pad3 (ms mod 1000) "Z")))))).
End Date.

Module PlaceWebsiteScraperWorkflow.
Record Payload : Type := {
  id : string;
  name : option string;
  url : string;
  address : option string;
  phone : option string;
  location : string
}.

(** [idempotencyKey: ({ id }) => `${id}-${new Date().toISOString()}`];
    [now] is the clock reading [new Date()] takes. *)
Definition idempotencyKey (payload : Payload) (now : Z) : string :=
  id payload ++ "-" ++ Date.toISOString now.
End PlaceWebsiteScraperWorkflow.

Module SyncCrmplaceDetailWorkflow.
Record Payload : Type := { id : string }.

(** [idempotencyKey: ({ id }) => `${id}-${new Date().toISOString()}`] *)
Definition idempotencyKey (payload : Payload) (now : Z) : string :=
  id payload ++ "-" ++ Date.toISOString now.
End SyncCrmplaceDetailWorkflow.

Module PlacesLocatorWorkflow.
Record Payload : Type := {
  id : string;
  url : string;
  location : string
}.

(** [idempotencyKey: ({ id }) => id] *)
Definition idempotencyKey (payload : Payload) (now : Z) : string :=
  id payload.
End PlacesLocatorWorkflow.

(* ------------------------------------------------------------------ *)
(** ** The store operations the core consumes (Prisma)

    The store of the model carries out every call it can: a call fails
    when the row it names is missing or a unique name is taken, not
    because the database refuses it. *)

Module Db.
Definition unclaimed (r : PlaceEntry.t) : bool :=
  match PlaceEntry.status r with
  | None => true
  | Some _ => false
  end.

(** [db.placeEntry.findFirst({ where: { status: { equals: null } }, take: 1 })] *)
Definition placeEntry_findFirst : Eff World (option PlaceEntry.t) :=
  fun w => (Success (find unclaimed (placeEntry w)), w).

Fixpoint updateFirst {R} (where_ : R -> bool) (f : R -> R) (l : list R)
    : list R :=
  match l with
  | [] => []
  | r :: rest =>
      if where_ r then f r :: rest else r :: updateFirst where_ f rest
  end.

Fixpoint deleteFirst {R} (where_ : R -> bool) (l : list R) : list R :=
  match l with
  | [] => []
  | r :: rest => if where_ r then rest else r :: deleteFirst where_ rest
  end.

Definition notFound (op : string) : Err :=
  PrismaError ("An operation failed because it depends on one or more records that were required but not found. " ++ op).

(** [db.placeEntry.update({ where, data: { status } })]: the row the
    unique [where] selects is updated; the operation fails when there is
    no such row. *)
Definition placeEntry_update (where_ : PlaceEntry.t -> bool)
    (status : option bool) : Eff World unit :=
  fun w =>
    if existsb where_ (placeEntry w)
    then (Success tt,
          set_placeEntry
            (updateFirst where_ (PlaceEntry.withStatus status) (placeEntry w)) w)
    else (Failure (notFound "Record to update not found."), w).

(** The rows the CRM runner selects:
    [where: { crmSyncEvent: null, emailAddress: { not: null } }]. *)
Definition syncable (c : Company.t) : bool :=
  match Company.crmSyncEvent c, Company.emailAddress c with
  | None, Some _ => true
  | _, _ => false
  end.

Definition company_findFirst : Eff World (option Company.t) :=
  fun w => (Success (find syncable (company w)), w).

Definition hasId (i : string) (c : Company.t) : bool :=
  String.eqb (Company.id c) i.

(** [db.company.delete({ where: { id } })] *)
Definition company_delete (i : string) : Eff World unit :=
  fun w =>
    if existsb (hasId i) (company w)
    then (Success tt, set_company (deleteFirst (hasId i) (company w)) w)
    else (Failure (notFound "Record to delete does not exist."), w).

(** [db.company.update({ where: { id }, data: { crmSyncEvent: { create: { status } } } })] *)
Definition company_createCrmSyncEvent (i : string) (status : bool)
    : Eff World unit :=
  fun w =>
    if existsb (hasId i) (company w)
    then (Success tt,
          set_company
            (updateFirst (hasId i) (Company.withCrmSyncEvent status) (company w)) w)
    else (Failure (notFound "Record to update not found."), w).

(** [db.company.create({ data })]: [Company.name] is unique; the new
    row gets a fresh id and goes to the end of the table. *)
Definition company_create (env : Env) (data : string -> Company.t)
    : Eff World Company.t :=
  fun w =>
    let c := data (newId env (List.length (company w))) in
    if existsb (fun x => String.eqb (Company.name x) (Company.name c)) (company w)
    then (Failure (PrismaError "Unique constraint failed on the fields: (`name`)"), w)
    else (Success c, set_company (company w ++ [c]) w).
End Db.

(** *** Metrics *)

Inductive Counter : Type :=
| RecordsProcessed | RecordsFailed | RecordsSkipped | RecordsTimedOut.

Definition bump (c : Counter) (m : Metrics) : Metrics :=
  match c with
  | RecordsProcessed =>
      {| recordsProcessed := recordsProcessed m + 1; recordsFailed := recordsFailed m;
         recordsSkipped := recordsSkipped m; recordsTimedOut := recordsTimedOut m;
         processingDuration := processingDuration m |}
  | RecordsFailed =>
      {| recordsProcessed := recordsProcessed m; recordsFailed := recordsFailed m + 1;
         recordsSkipped := recordsSkipped m; recordsTimedOut := recordsTimedOut m;
         processingDuration := processingDuration m |}
  | RecordsSkipped =>
      {| recordsProcessed := recordsProcessed m; recordsFailed := recordsFailed m;
         recordsSkipped := recordsSkipped m + 1; recordsTimedOut := recordsTimedOut m;
         processingDuration := processingDuration m |}
  | RecordsTimedOut =>
      {| recordsProcessed := recordsProcessed m; recordsFailed := recordsFailed m;
         recordsSkipped := recordsSkipped m; recordsTimedOut := recordsTimedOut m + 1;
         processingDuration := processingDuration m |}
  end.

(** [Metric.increment(counter)] *)
Definition Metric_increment (c : Counter) : Eff World unit :=
  sync (fun w => set_metrics (bump c (metrics w)) w).

Definition observe (d : Z) (m : Metrics) : Metrics :=
  {| recordsProcessed := recordsProcessed m; recordsFailed := recordsFailed m;
     recordsSkipped := recordsSkipped m; recordsTimedOut := recordsTimedOut m;
     processingDuration := d :: processingDuration m |}.

(** [processingDuration(Effect.succeed(duration))]: one histogram sample. *)
Definition processingDuration_record (d : Z) : Eff World unit :=
  sync (fun w => set_metrics (observe d (metrics w)) w).

(** [`${n}`] for a count. *)
Definition show (n : Z) : string := NilZero.string_of_int (Z.to_int n).

(* ------------------------------------------------------------------ *)
(** ** src/workflows/placeWebsiteScraper *)

Module ScrapeWebsite.
Module P := PlaceWebsiteScraperWorkflow.

(** [errorHandler.catch] *)
Definition errorHandler (e : Err) : Err := ScrapeWebsiteError (message_of e).

(** [...errorHandler] in [Effect.tryPromise]: the rejection's message. *)
Definition rejected (m : string) : Err := ScrapeWebsiteError m.

(** [haystack.includes(needle)] *)
Fixpoint includes (haystack needle : string) : bool :=
  if String.prefix needle haystack then true
  else match haystack with
       | EmptyString => false
       | String _ rest => includes rest needle
       end.

(** [[...new Set(tags)]]: first occurrences, in order. *)
Fixpoint dedupe (seen tags : list string) : list string :=
  match tags with
  | [] => []
  | t :: rest =>
      if existsb (String.eqb t) seen then dedupe seen rest
      else t :: dedupe (t :: seen) rest
  end.

(** The zod defaults of the extraction schema:
    [telephoneNumber: z.string().optional().default(payload.phone!)],
    [address: z.string().optional().default(payload.address!)]. *)
Definition withDefaults (payload : P.Payload) (raw : Extracted.t)
    : Extracted.t :=
  Extracted.make
    (Extracted.emailAddress raw)
    (match Extracted.telephoneNumber raw with
     | Some t => Some t
     | None => P.phone payload
     end)
    (match Extracted.address raw with
     | Some a => Some a
     | None => P.address payload
     end)
    (Extracted.servicesOffered raw).

Section Activity.
Variable env : Env.

(** The row [db.company.create] is asked to write (lines 215-237). *)
Definition newCompany (payload : P.Payload) (extractedData : Extracted.t)
    (id : string) : Company.t :=
  Company.make id
    (match P.name payload with Some n => n | None => "Default Name" end)
    (P.url payload)
    (Extracted.emailAddress extractedData)
    (Extracted.telephoneNumber extractedData)
    (Extracted.address extractedData)
    (Some "Legal")
    (Some (P.location payload))
    (dedupe [] (Extracted.servicesOffered extractedData))
    None.

(** The [execute] effect of [Activity.make], lines 160-259, for one
    attempt. *)
Definition execute (payload : P.Payload) (attempt : nat)
    : Eff World (option Extracted.t) :=
  let url := P.url payload in
  mapError errorHandler
    (scoped
       (lift (logLine LogInfo "payload" (Some (P.id payload))) ;;
        agent <- BrowserService.getBrowserAgent env ;;
        lift (tryPromise (goto env url attempt) rejected) ;;
        raw <- lift (timeout 180000
                       (tryPromise (extract env url attempt) rejected)) ;;
        let extractedData := withDefaults payload raw in
        lift (tryPromise (waitForTimeout env url attempt) rejected) ;;
        lift (BrowserService.agent_stop env agent false
                (fun p => tryPromise p rejected)) ;;
        lift (logLine LogInfo "extractedData" (Some (P.id payload))) ;;
        match Extracted.servicesOffered extractedData,
              Extracted.telephoneNumber extractedData with
        | [], _ => succeed None
        | _ :: _, None =>
            die "TypeError: Cannot read properties of null (reading 'includes')"
        | _ :: _, Some telephone =>
            if includes telephone "+1" then succeed None
            else
              lift (tapError
                      (fun e w => snd (logLine LogError (message_of e) None w))
                      (mapError errorHandler
                         (Db.company_create env
                            (newCompany payload extractedData)))) ;;
              lift (logLine LogInfo "Scrape website completed successfully"
                      (Some (P.id payload))) ;;
              succeed (Some extractedData)
        end)).

(** [scrapeWebsite({ payload, executionId })], lines 154-270: the
    activity under [Activity.retry({ times: 1 })], with its
    compensation. *)
Definition times : nat := 1.

Definition compensation (value : option Extracted.t) : Eff World unit :=
  logLine LogWarning "Compensating activity ScrapeWebsite" None ;;
  logLine LogDebug "Compensation value" None ;;
  logLine LogDebug "Compensation cause" None.

Definition scrapeWebsite (payload : P.Payload)
    : Scoped (option Extracted.t) :=
  Workflow.withCompensation
    (Activity.retry times (execute payload))
    compensation.

(** [PlaceWebsiteScraperWorkflowLayer], workflow.ts lines 23-31, run
    by [PlaceWebsiteScraperWorkflow.execute]. *)
Definition PlaceWebsiteScraperWorkflow_execute (payload : P.Payload)
    : Eff World unit :=
  Workflow.execute
    (scrapeWebsite payload ;;
     lift (logLine LogInfo "payload, executionId" (Some (P.id payload)))).
End Activity.
End ScrapeWebsite.

(* ------------------------------------------------------------------ *)
(** ** src/workflows/syncCrmPlaceDetail *)

Module SyncCrm.
Module P := SyncCrmplaceDetailWorkflow.

Definition errorHandler (e : Err) : Err := SyncCrmError (message_of e).

Section Activity.
(** The page interaction of the activity (the CRM form filling of
    syncCrm.ts lines 84-165), for a company id and an attempt; it is
    a collaborator of the orchestration code. *)
Variable pageInteraction : string -> nat -> Eff World unit.

Definition times : nat := 3.

Definition compensation (value : unit) : Eff World unit :=
  logLine LogWarning "Compensating activity ScrapeWebsite" None ;;
  logLine LogDebug "Compensation value" None ;;
  logLine LogDebug "Compensation cause" None.

(** [syncCrm({ payload, executionId })]: the activity under
    [Activity.retry({ times: 3 })] (lines 170-180). *)
Definition syncCrm (payload : P.Payload) : Scoped unit :=
  Workflow.withCompensation
    (Activity.retry times
       (fun attempt =>
          mapError errorHandler
            (tapError
               (fun e w => snd (logLine LogError "Activity failed with error" None w))
               (pageInteraction (P.id payload) attempt))))
    compensation.

(** [SyncCrmplaceDetailWorkflowLayer] *)
Definition SyncCrmplaceDetailWorkflow_execute (payload : P.Payload)
    : Eff World unit :=
  Workflow.execute
    (syncCrm payload ;;
     lift (logLine LogInfo "payload, executionId" (Some (P.id payload)))).
End Activity.
End SyncCrm.

(* ------------------------------------------------------------------ *)
(** ** The runners *)

(** The state [Effect.loop] threads: [{ continue: boolean }]. *)
Record LoopState : Type := { continue : bool }.

Definition isNoMoreRecords (e : Err) : bool :=
  match e with NoMoreRecords => true | _ => false end.

Definition isTimeoutException (e : Err) : bool :=
  match e with TimeoutException => true | _ => false end.

(** The schedule both runners poll an empty backlog with:
    [Schedule.exponential(Duration.seconds(30)).pipe(Schedule.intersect(Schedule.recurs(5)))]. *)
Definition emptyBacklogPolicy : Schedule :=
  intersect (exponential 30000) (recurs 5).

(** *** Fibers

    [Effect.all(effects, { concurrency: "unbounded" })] runs each effect
    in a fiber of its own.  A fiber keeps the thread until it suspends (in
    a sleep, or waiting for a promise), and the others run meanwhile.  So
    for the scheduler a fiber is the step it takes when it is resumed,
    the time for which it is suspended, and what it is afterwards. *)
Inductive Fiber : Type :=
| Ended (exit : Exit unit)
| Runs (step : World -> World) (next : World -> Fiber)
| Suspended (d : Z) (next : Fiber).

Definition finished (f : Fiber) : bool :=
  match f with
  | Ended (Success _) => true
  | _ => false
  end.

(** The world a fiber that was due at [t] is resumed in. *)
Definition resumed (t : Z) (w : World) : World := set_now (Z.max (now w) t) w.

(** [Effect.all([a, b], { concurrency: "unbounded" })]: [ta] and [tb] are
    the times at which the fibers are due.  The fiber that is due first
    takes its turn (of two that are due together, the first of the
    list).  A fiber that has ended with a success leaves the other to
    run on; any other exit is the exit of the whole, and the other fiber
    is interrupted.  [fuel] bounds the turns the model unrolls. *)
Fixpoint all (fuel : nat) (a : Fiber) (ta : Z) (b : Fiber) (tb : Z) (w : World)
    : Exit unit * World :=
  match fuel with
  | O => (Pending, w)
  | S fuel =>
      if finished a && finished b then (Success tt, w)
      else if negb (finished a) && (finished b || (ta <=? tb)) then
        match a with
        | Ended exit => (exit, resumed ta w)
        | Runs step next =>
            all fuel (next (resumed ta w)) ta b tb (step (resumed ta w))
        | Suspended d next => all fuel next (ta + Z.max 0 d) b tb w
        end
      else
        match b with
        | Ended exit => (exit, resumed tb w)
        | Runs step next =>
            all fuel a ta (next (resumed tb w)) tb (step (resumed tb w))
        | Suspended d next => all fuel a ta next (tb + Z.max 0 d) w
        end
  end.

(** The pipeline both runners apply to [logMetrics]:
<<
    logMetrics.pipe(
      Effect.repeat(Schedule.spaced(Duration.seconds(30))),
      Effect.catchAll((error) => Effect.gen(function* () {
        yield* Effect.logError("Metrics logging error", error)
        return yield* Effect.void })))
>> *)
Definition reporting (fuel : nat) (cycle : Eff World unit) : Eff World unit :=
  catchAll
    (repeat fuel (spaced 30000) cycle)
    (fun error =>
       logLine LogError "Metrics logging error" (Some (message_of error)) ;;
       succeed tt).

(** The same pipeline as a fiber, for a cycle that does not suspend
    (neither [logMetrics] does): the cycle is one step, and the fiber is
    suspended for the 30 seconds of the schedule before the next.  A
    cycle that fails goes to the handler, which logs the error and ends
    the fiber.  [fuel] bounds the cycles the model unrolls. *)
Fixpoint reporter (fuel : nat) (cycle : Eff World unit) : Fiber :=
  match fuel with
  | O => Ended Pending
  | S fuel =>
      Runs
        (fun w =>
           match cycle w with
           | (Failure error, w') =>
               snd (logLine LogError "Metrics logging error"
                      (Some (message_of error)) w')
           | (_, w') => w'
           end)
        (fun w =>
           match fst (cycle w) with
           | Success _ => Suspended 30000 (reporter fuel cycle)
           | Failure _ => Ended (Success tt)
           | Die defect => Ended (Die defect)
           | Interrupted => Ended Interrupted
           | Pending => Ended Pending
           end)
  end.

(** The rule the metrics report is framed with. *)
Definition rule : string := "=======================================".

(** *** src/runner/websiteScraper.ts *)
Module WebsiteScraper.
Module P := PlaceWebsiteScraperWorkflow.

Section Runner.
Variable env : Env.

(** The generator of [fetchNextRecord], lines 76-96: one query. *)
Definition queryNext : Eff World (option PlaceEntry.t) :=
  log "Checking database for next record..." ;;
  record <- Db.placeEntry_findFirst ;;
  match record with
  | None =>
      log "No records found, will retry in 30 seconds..." ;;
      fail NoMoreRecords
  | Some r => succeed (Some r)
  end.

(** [fetchNextRecord], lines 76-108. *)
Definition fetchNextRecord : Eff World (option PlaceEntry.t) :=
  catchTag isNoMoreRecords
    (retry emptyBacklogPolicy queryNext)
    (fun _ =>
       log "No more records found after retries, stopping..." ;;
       succeed None).

Definition payloadOf (record : PlaceEntry.t) : P.Payload :=
  {| P.id := PlaceEntry.id record;
     P.name := Some (PlaceEntry.name record);
     P.url := PlaceEntry.url record;
     P.address := Some (PlaceEntry.address record);
     P.phone := Some (PlaceEntry.telephone record);
     P.location := PlaceEntry.location record |}.

(** Lines 128-153: the workflow under the per-item timeout, folded
    into [isCompleted : boolean | null]. *)
Definition runWorkflow (record : PlaceEntry.t) : Eff World (option bool) :=
  let i := Some (PlaceEntry.id record) in
  catchAll
    (catchTag isTimeoutException
       (map (fun _ => Some true)
          (timeout 300000
             (ScrapeWebsite.PlaceWebsiteScraperWorkflow_execute env
                (payloadOf record))))
       (fun _ =>
          logLine LogWarning "Workflow timeout" i ;;
          Metric_increment RecordsFailed ;;
          Metric_increment RecordsTimedOut ;;
          succeed None))
    (fun error =>
       logLine LogError "Workflow error" i ;;
       Metric_increment RecordsFailed ;;
       succeed (Some false)).

(** Lines 125-179: what is done with a claimed record. *)
Definition processClaimed (record : PlaceEntry.t) (startTime : Z)
    : Eff World unit :=
  let i := Some (PlaceEntry.id record) in
  catchAll
    (log "Starting workflow execution..." ;;
     isCompleted <- runWorkflow record ;;
     logLine LogInfo "Workflow completed" i ;;
     match isCompleted with
     | Some result =>
         log "Updating database with result..." ;;
         Db.placeEntry_update
           (fun r => String.eqb (PlaceEntry.id r) (PlaceEntry.id record))
           (Some result) ;;
         log "Database updated successfully"
     | None => succeed tt
     end ;;
     t <- Date_now ;;
     processingDuration_record (t - startTime))
    (fun error =>
       logLine LogError "Error processing record" i ;;
       Metric_increment RecordsFailed ;;
       t <- Date_now ;;
       processingDuration_record (t - startTime)).

(** [processOneRecord], lines 111-185. *)
Definition processOneRecord : Eff World LoopState :=
  log "Starting new iteration" ;;
  startTime <- Date_now ;;
  record <- fetchNextRecord ;;
  match record with
  | None => succeed {| continue := false |}
  | Some record =>
      Metric_increment RecordsProcessed ;;
      logLine LogInfo "Found record to process" (Some (PlaceEntry.id record)) ;;
      processClaimed record startTime ;;
      log "Record processed successfully" ;;
      sleep 3000 ;;
      succeed {| continue := true |}
  end.

(** [logMetrics], lines 203-226.  The success rate is a formatted
    float ([toFixed(2)]); its line is logged without the figure. *)
Definition logMetrics : Eff World unit :=
  fun w =>
    let processed := recordsProcessed (metrics w) in
    let failed := recordsFailed (metrics w) in
    let timedOut := recordsTimedOut (metrics w) in
    let successCount := processed - failed in
    (log rule ;;
     log "WebScraper Metrics Report" ;;
     log rule ;;
     log ("Total Processed: " ++ show processed) ;;
     log ("Succeeded: " ++ show successCount) ;;
     log ("Failed: " ++ show failed) ;;
     log ("Timed Out: " ++ show timedOut) ;;
     log "Success Rate" ;;
     log rule) w.

(** [mainProcessingLoop], lines 188-200. *)
Definition mainProcessingLoop (fuel : nat) : Eff World unit :=
  loop fuel {| continue := true |}
    (fun state => continue state)
    (fun state => state)
    (fun _ => processOneRecord) ;;
  (log "All records processed successfully!" ;;
   logMetrics).

(** [metricsReporter], lines 229-239. *)
Definition metricsReporter (fuel : nat) : Eff World unit :=
  reporting fuel logMetrics.

(** [Effect.all([mainProcessingLoop, metricsReporter], { concurrency: "unbounded" })],
    lines 254-257, for the fiber [loop] of the processing loop; both
    fibers are started now. *)
Definition mainWithMetrics (fuel : nat) (loop : Fiber) (cycles : nat)
    : Eff World unit :=
  fun w => all fuel loop (now w) (reporter cycles logMetrics) (now w) w.
End Runner.
End WebsiteScraper.

(** *** The CRM-sync runner *)
Module SyncCrmRunner.
Section Runner.
Variable pageInteraction : string -> nat -> Eff World unit.

(** The generator of [fetchNextRecord], lines 55-77: one query. *)
Definition queryNext : Eff World (option Company.t) :=
  log "Checking database for next record..." ;;
  record <- Db.company_findFirst ;;
  match record with
  | None =>
      log "No records found, will retry in 30 seconds..." ;;
      fail NoMoreRecords
  | Some r => succeed (Some r)
  end.

(** [fetchNextRecord], lines 55-89. *)
Definition fetchNextRecord : Eff World (option Company.t) :=
  catchTag isNoMoreRecords
    (retry emptyBacklogPolicy queryNext)
    (fun _ =>
       log "No more records found after retries, stopping..." ;;
       succeed None).

(** Lines 129-149. *)
Definition runWorkflow (record : Company.t) : Eff World (option bool) :=
  let i := Some (Company.id record) in
  catchAll
    (catchTag isTimeoutException
       (map (fun _ => Some true)
          (timeout 180000
             (SyncCrm.SyncCrmplaceDetailWorkflow_execute pageInteraction
                {| SyncCrmplaceDetailWorkflow.id := Company.id record |})))
       (fun _ =>
          logLine LogWarning "Workflow timeout" i ;;
          Metric_increment RecordsFailed ;;
          Metric_increment RecordsTimedOut ;;
          succeed None))
    (fun error =>
       logLine LogError "Workflow error" i ;;
       Metric_increment RecordsFailed ;;
       succeed (Some false)).

(** Lines 106-179: what is done with a claimed record. *)
Definition processClaimed (record : Company.t) (startTime : Z)
    : Eff World unit :=
  let i := Some (Company.id record) in
  catchAll
    (match Company.servicesOffered record with
     | [] =>
         Metric_increment RecordsSkipped ;;
         log "Record has no services, deleting..." ;;
         Db.company_delete (Company.id record) ;;
         Db.placeEntry_update
           (fun r => String.eqb (PlaceEntry.name r) (Company.name record)
                     && String.eqb (PlaceEntry.url r) (Company.websiteUrl record))
           None ;;
         t <- Date_now ;;
         processingDuration_record (t - startTime) ;;
         log "Skipped record processed"
     | _ :: _ =>
         log "Starting workflow execution..." ;;
         isCompleted <- runWorkflow record ;;
         logLine LogInfo "Workflow completed" i ;;
         match isCompleted with
         | Some result =>
             log "Updating database with result..." ;;
             Db.company_createCrmSyncEvent (Company.id record) result ;;
             log "Database updated successfully"
         | None => succeed tt
         end ;;
         t <- Date_now ;;
         processingDuration_record (t - startTime)
     end)
    (fun error =>
       logLine LogError "Error processing record" i ;;
       Metric_increment RecordsFailed ;;
       t <- Date_now ;;
       processingDuration_record (t - startTime)).

(** [processOneRecord], lines 92-185. *)
Definition processOneRecord : Eff World LoopState :=
  log "Starting new iteration" ;;
  startTime <- Date_now ;;
  record <- fetchNextRecord ;;
  match record with
  | None => succeed {| continue := false |}
  | Some record =>
      Metric_increment RecordsProcessed ;;
      logLine LogInfo "Found record to process" (Some (Company.id record)) ;;
      processClaimed record startTime ;;
      log "Record processed successfully" ;;
      sleep 3000 ;;
      succeed {| continue := true |}
  end.

(** [logMetrics], lines 203-229. *)
Definition logMetrics : Eff World unit :=
  fun w =>
    let processed := recordsProcessed (metrics w) in
    let failed := recordsFailed (metrics w) in
    let skipped := recordsSkipped (metrics w) in
    let timedOut := recordsTimedOut (metrics w) in
    let successCount := processed - failed - skipped in
    (log rule ;;
     log "Metrics Report" ;;
     log rule ;;
     log ("Total Processed: " ++ show processed) ;;
     log ("Succeeded: " ++ show successCount) ;;
     log ("Failed: " ++ show failed) ;;
     log ("Skipped (no services): " ++ show skipped) ;;
     log ("Timed Out: " ++ show timedOut) ;;
     log "Success Rate" ;;
     log rule) w.

(** [mainProcessingLoop], lines 188-200. *)
Definition mainProcessingLoop (fuel : nat) : Eff World unit :=
  loop fuel {| continue := true |}
    (fun state => continue state)
    (fun state => state)
    (fun _ => processOneRecord) ;;
  (log "All records processed successfully!" ;;
   logMetrics).

(** [metricsReporter], lines 232-242. *)
Definition metricsReporter (fuel : nat) : Eff World unit :=
  reporting fuel logMetrics.

(** [mainWithMetrics], lines 245-248, for the fiber [loop] of the
    processing loop; both fibers are started now. *)
Definition mainWithMetrics (fuel : nat) (loop : Fiber) (cycles : nat)
    : Eff World unit :=
  fun w => all fuel loop (now w) (reporter cycles logMetrics) (now w) w.
End Runner.
End SyncCrmRunner.

(* ------------------------------------------------------------------ *)
(** ** Vocabulary of the statements *)

(** How many log lines carry the text [t]. *)
Definition countLog (t : string) (l : list LogLine) : nat :=
  List.length (filter (fun x => String.eqb (text x) t) l).

(** Between [w] and [w'] only the clock and the log moved. *)
Definition quiet (w w' : World) : Prop :=
  deadline w' = deadline w /\ placeEntry w' = placeEntry w /\
  company w' = company w /\ metrics w' = metrics w /\ browser w' = browser w.

(** Sample collaborators and worlds for the concrete runs. *)
Definition resolves (d : Z) : Reply unit := {| took := d; settled := Resolved tt |}.
Definition rejects (d : Z) (reason : string) : Reply unit :=
  {| took := d; settled := Rejected reason |}.

Definition noMetrics : Metrics :=
  {| recordsProcessed := 0; recordsFailed := 0; recordsSkipped := 0;
     recordsTimedOut := 0; processingDuration := [] |}.

Definition freshBrowser : Browser :=
  {| contextPermits := 10; agentPermits := 10; opened := 0; live := [];
     events := [] |}.

(** A runner that has just started on an empty store. *)
Definition idle : World :=
  {| now := 0; deadline := None; placeEntry := []; company := [];
     metrics := noMetrics; logs := []; browser := freshBrowser |}.


(** A processing loop that counts a record every 45 seconds, three
    times, and ends. *)
Definition countsOne (w : World) : World :=
  set_metrics (bump RecordsProcessed (metrics w)) w.

Fixpoint busyLoop (records : nat) : Fiber :=
  match records with
  | O => Ended (Success tt)
  | S records => Suspended 45000 (Runs countsOne (fun _ => busyLoop records))
  end.

(** The lines one reporting cycle writes, newest first. *)
Definition line (t : string) : LogLine :=
  {| level := LogInfo; text := t; about := None |}.



(** An activity body that counts its own invocations: the attempts made. *)
Definition counted {W A} (execute : nat -> Eff W A) : nat -> Eff (nat * W) A :=
  fun attempt '(n, w) =>
    let '(r, w') := execute attempt w in (r, (S n, w')).

Definition sampleData : Extracted.t :=
  Extracted.make (Some "office@firm.example") (Some "+44 20 7946 0000") None
    ["Wills"; "Trusts"; "Wills"].

(** Collaborators that answer every call; the site [http://slow] takes
    140 seconds to load and 170 seconds to extract from. *)
Definition sampleEnv : Env :=
  {| launchBrowser := resolves 0;
     closeBrowser := resolves 0;
     newContext := fun _ => resolves 10;
     closeContext := fun _ => resolves 5;
     saveStorageState := fun _ => resolves 1;
     startBrowserAgent := fun _ => resolves 1000;
     stopAgent := fun _ _ => resolves 100;
     goto := fun url _ =>
       if String.eqb url "http://slow" then resolves 140000 else resolves 2000;
     extract := fun url _ =>
       {| took := if String.eqb url "http://slow" then 170000 else 5000;
          settled := Resolved sampleData |};
     waitForTimeout := fun _ _ => resolves 10000;
     newId := fun n => String.append "company-" (show (Z.of_nat n)) |}.

(** The same collaborators, except that no page ever loads. *)
Definition offlineEnv : Env :=
  {| launchBrowser := resolves 0;
     closeBrowser := resolves 0;
     newContext := fun _ => resolves 10;
     closeContext := fun _ => resolves 5;
     saveStorageState := fun _ => resolves 1;
     startBrowserAgent := fun _ => resolves 1000;
     stopAgent := fun _ _ => resolves 100;
     goto := fun _ _ => rejects 500 "net::ERR_NAME_NOT_RESOLVED";
     extract := fun _ _ => {| took := 5000; settled := Resolved sampleData |};
     waitForTimeout := fun _ _ => resolves 10000;
     newId := fun n => String.append "company-" (show (Z.of_nat n)) |}.

Definition samplePayload : PlaceWebsiteScraperWorkflow.Payload :=
  {| PlaceWebsiteScraperWorkflow.id := "pe-1";
     PlaceWebsiteScraperWorkflow.name := Some "Firm 1";
     PlaceWebsiteScraperWorkflow.url := "http://a";
     PlaceWebsiteScraperWorkflow.address := Some "1 High Street";
     PlaceWebsiteScraperWorkflow.phone := Some "+44 1";
     PlaceWebsiteScraperWorkflow.location := "London" |}.

(** An operation that fails on every try, and one that succeeds on its
    second try. *)
Definition alwaysDown (attempt : nat) : Eff World unit :=
  fail (SyncCrmError "CRM is down").

Definition upOnSecondTry (attempt : nat) : Eff World unit :=
  if Nat.eqb attempt 2 then succeed tt else fail (SyncCrmError "CRM is down").

(** A caller that acquires [n] contexts, one after the other, in the
    scope it is running in. *)
Fixpoint acquireAll (env : Env) (n : nat) : Scoped (list nat) :=
  match n with
  | O => succeed []
  | S k =>
      c <- BrowserService.getContext env None ;;
      cs <- acquireAll env k ;;
      succeed (c :: cs)
  end.

(** Collaborators whose browser refuses every new context and every
    agent. *)
Definition brokenBrowserEnv : Env :=
  {| launchBrowser := resolves 0;
     closeBrowser := resolves 0;
     newContext := fun _ => rejects 20 "browser has been closed";
     closeContext := fun _ => resolves 5;
     saveStorageState := fun _ => resolves 1;
     startBrowserAgent := fun _ => rejects 20 "browser has been closed";
     stopAgent := fun _ _ => resolves 100;
     goto := fun _ _ => resolves 2000;
     extract := fun _ _ => {| took := 5000; settled := Resolved sampleData |};
     waitForTimeout := fun _ _ => resolves 10000;
     newId := fun n => String.append "company-" (show (Z.of_nat n)) |}.

(** Collaborators whose session state cannot be saved. *)
Definition readOnlyDiskEnv : Env :=
  {| launchBrowser := resolves 0;
     closeBrowser := resolves 0;
     newContext := fun _ => resolves 10;
     closeContext := fun _ => resolves 5;
     saveStorageState := fun _ => rejects 1 "EROFS: read-only file system";
     startBrowserAgent := fun _ => resolves 1000;
     stopAgent := fun _ _ => resolves 100;
     goto := fun _ _ => resolves 2000;
     extract := fun _ _ => {| took := 5000; settled := Resolved sampleData |};
     waitForTimeout := fun _ _ => resolves 10000;
     newId := fun n => String.append "company-" (show (Z.of_nat n)) |}.


(** The [PlaceEntry] row a company was derived from, as the CRM runner
    looks it up: same name, same URL. *)
Definition originOf (record : Company.t) (r : PlaceEntry.t) : bool :=
  String.eqb (PlaceEntry.name r) (Company.name record)
  && String.eqb (PlaceEntry.url r) (Company.websiteUrl record).

(** The backlog and the counters are as they were. *)
Definition untouched (w w' : World) : Prop :=
  placeEntry w' = placeEntry w /\ metrics w' = metrics w.

Definition keeps {A} (eff : Eff World A) : Prop :=
  forall w, untouched w (snd (eff w)).

Definition keepsAll (fs : Scope) : Prop :=
  Forall (fun fin : Finalizer => forall ok, keeps (fin ok)) fs.

Definition keepsS {A} (eff : Scoped A) : Prop :=
  forall fs w, keepsAll fs ->
    untouched w (snd (snd (eff (fs, w)))) /\ keepsAll (fst (snd (eff (fs, w)))).

(** [w1] offers a workflow the same clock, deadline, company table and
    browser as [w]. *)
Definition sameRun (w w1 : World) : Prop :=
  now w1 = now w /\ deadline w1 = deadline w /\
  company w1 = company w /\ browser w1 = browser w.

(** The three-record scenario: three unclaimed rows, the third on the
    slow site. *)
Definition entry (i u : string) : PlaceEntry.t :=
  PlaceEntry.make i (String.append "Firm " i) u "1 High Street" "+44 1" "London" None.

Definition threeRecords : World :=
  {| now := 0; deadline := None;
     placeEntry := [entry "1" "http://a"; entry "2" "http://b"; entry "3" "http://slow"];
     company := []; metrics := noMetrics; logs := []; browser := freshBrowser |}.

Definition slowRecordOnly : World :=
  {| now := 0; deadline := None;
     placeEntry := [entry "3" "http://slow"];
     company := []; metrics := noMetrics; logs := []; browser := freshBrowser |}.

Definition statuses (w : World) : list (string * option bool) :=
  List.map (fun r => (PlaceEntry.id r, PlaceEntry.status r)) (placeEntry w).

(** A company without services, derived from the claimed row "Firm 1". *)
Definition emptyCompany : Company.t :=
  Company.make "company-0" "Firm 1" "http://a" (Some "office@firm.example")
    (Some "+44 1") None (Some "Legal") (Some "London") [] None.

Definition crmBacklog : World :=
  {| now := 0; deadline := None;
     placeEntry := [PlaceEntry.withStatus (Some true) (entry "1" "http://a")];
     company := [emptyCompany]; metrics := noMetrics; logs := [];
     browser := freshBrowser |}.


(** The interactions of one attempt, from the agent's start to its stop,
    take no negative time, the extraction stays within its own 3-minute
    timeout, and all of them fit in what is left before the deadline of
    [w]. *)
Definition inTime (env : Env) (url : string) (attempt a : nat) (w : World) : Prop :=
  0 <= took (startBrowserAgent env a)
  /\ 0 <= took (goto env url attempt)
  /\ 0 <= took (extract env url attempt) <= 180000
  /\ 0 <= took (waitForTimeout env url attempt)
  /\ 0 <= took (stopAgent env a false)
  /\ match deadline w with
     | None => True
     | Some dl =>
         now w + took (startBrowserAgent env a) + took (goto env url attempt)
         + took (extract env url attempt) + took (waitForTimeout env url attempt)
         + took (stopAgent env a false) <= dl
     end.




(** The time values whose ISO form has a four-digit year: 1970-01-01 up
    to, not including, 10000-01-01. *)
Definition fourDigitYear (t : Z) : Prop := 0 <= t < 253402300800000.

(* ------------------------------------------------------------------ *)
(** ** Vocabulary of the further statements *)

(** The rows of the backlog that are still unclaimed. *)
Definition backlog (w : World) : list PlaceEntry.t :=
  filter Db.unclaimed (placeEntry w).

(** The row of the backlog the runner writes to: the one with the id of
    [record]. *)
Definition sameEntry (record : PlaceEntry.t) (r : PlaceEntry.t) : bool :=
  String.eqb (PlaceEntry.id r) (PlaceEntry.id record).

(** The company a payload would be written as: the name it gets, and
    whether a company of that name is in the table already
    ([Company.name] is unique). *)
Definition companyName (payload : PlaceWebsiteScraperWorkflow.Payload) : string :=
  match PlaceWebsiteScraperWorkflow.name payload with
  | Some n => n
  | None => "Default Name"
  end.

Definition nameTaken (payload : PlaceWebsiteScraperWorkflow.Payload)
    (w : World) : bool :=
  existsb (fun x => String.eqb (Company.name x) (companyName payload)) (company w).

(** The extracted data that makes the activity write a company: at least
    one service, and a telephone number (after the schema's default)
    without "+1". *)
Definition qualifying (payload : PlaceWebsiteScraperWorkflow.Payload)
    (raw : Extracted.t) : Prop :=
  Extracted.servicesOffered raw <> []
  /\ exists t,
       Extracted.telephoneNumber (ScrapeWebsite.withDefaults payload raw) = Some t
       /\ ScrapeWebsite.includes t "+1" = false.

(** What a run of the website scraper may do to a row of the backlog:
    nothing, or give an unclaimed row its status. *)
Definition claimed (r r' : PlaceEntry.t) : Prop :=
  r' = r
  \/ (PlaceEntry.status r = None
      /\ exists result, r' = PlaceEntry.withStatus (Some result) r).

Definition claimsOnly (pes pes' : list PlaceEntry.t) : Prop :=
  Forall2 claimed pes pes'.

(** How the counters of the website scraper may move between two
    moments of a run: none goes down, every timeout is a failure and a
    processed record, and [recordsSkipped] is not touched. *)
Definition tallied (m m' : Metrics) : Prop :=
  0 <= recordsTimedOut m' - recordsTimedOut m
  /\ recordsTimedOut m' - recordsTimedOut m <= recordsFailed m' - recordsFailed m
  /\ recordsTimedOut m' - recordsTimedOut m <= recordsProcessed m' - recordsProcessed m
  /\ recordsSkipped m' = recordsSkipped m.

(** The companies the CRM runner has still to sync. *)
Definition unsynced (w : World) : list Company.t :=
  filter Db.syncable (company w).

(** The success count a metrics report of the CRM runner shows. *)
Definition successCount (m : Metrics) : Z :=
  recordsProcessed m - recordsFailed m - recordsSkipped m.

(** The store and the counters are as they were. *)
Definition sameStore (w w' : World) : Prop :=
  company w' = company w /\ placeEntry w' = placeEntry w /\ metrics w' = metrics w.


(** Collaborators whose agent refuses to be stopped a second time. *)
Definition stopOnceEnv : Env :=
  {| launchBrowser := resolves 0;
     closeBrowser := resolves 0;
     newContext := fun _ => resolves 10;
     closeContext := fun _ => resolves 5;
     saveStorageState := fun _ => resolves 1;
     startBrowserAgent := fun _ => resolves 1000;
     stopAgent := fun _ finalizing =>
       if finalizing then rejects 100 "agent is not running" else resolves 100;
     goto := fun _ _ => resolves 2000;
     extract := fun _ _ => {| took := 5000; settled := Resolved sampleData |};
     waitForTimeout := fun _ _ => resolves 10000;
     newId := fun n => String.append "company-" (show (Z.of_nat n)) |}.

(** Collaborators whose extraction never ends within its 3 minutes. *)
Definition tarpitEnv : Env :=
  {| launchBrowser := resolves 0;
     closeBrowser := resolves 0;
     newContext := fun _ => resolves 10;
     closeContext := fun _ => resolves 5;
     saveStorageState := fun _ => resolves 1;
     startBrowserAgent := fun _ => resolves 1000;
     stopAgent := fun _ _ => resolves 100;
     goto := fun _ _ => resolves 2000;
     extract := fun _ _ => {| took := 200000; settled := Resolved sampleData |};
     waitForTimeout := fun _ _ => resolves 10000;
     newId := fun n => String.append "company-" (show (Z.of_nat n)) |}.

(** A store in which the company of the first row has been written
    already. *)
Definition knownFirm : World :=
  {| now := 0; deadline := None;
     placeEntry := [entry "1" "http://a"];
     company := [Company.make "company-0" "Firm 1" "http://a"
                   (Some "office@firm.example") (Some "+44 1") None
                   (Some "Legal") (Some "London") ["Wills"] None];
     metrics := noMetrics; logs := []; browser := freshBrowser |}.

(** A company without services whose [PlaceEntry] row is gone. *)
Definition orphanBacklog : World :=
  {| now := 0; deadline := None; placeEntry := [];
     company := [emptyCompany]; metrics := noMetrics; logs := [];
     browser := freshBrowser |}.

(** A company with services, ready to be synced. *)
Definition readyCompany : Company.t :=
  Company.make "company-0" "Firm 1" "http://a" (Some "office@firm.example")
    (Some "+44 1") (Some "1 High Street") (Some "Legal") (Some "London")
    ["Wills"; "Trusts"] None.

Definition crmReady : World :=
  {| now := 0; deadline := None;
     placeEntry := [PlaceEntry.withStatus (Some true) (entry "1" "http://a")];
     company := [readyCompany]; metrics := noMetrics; logs := [];
     browser := freshBrowser |}.

(* ------------------------------------------------------------------ *)
(** ** The CRM page (src/workflows/syncCrmPlaceDetail/activities/syncCrm.ts)

    The activity drives a playwright [Page].  What it asks of the page
    (and of the context and the session directory, for the page itself
    and the browser's lock file) is recorded, in order, next to the
    world; the page answers every call through [Site], and its answer
    may depend on everything that was asked before. *)
Module Page.

Inductive Call : Type :=
| Goto (url : string)                    (* [page.goto(url, config)] *)
| Reload                                 (* [page.reload(config)] *)
| Count (selector : string)              (* [page.locator(selector).count()] *)
| IsVisible (selector : string)          (* [page.isVisible(selector)] *)
| WaitForSelector (selector : string)
| WaitForTimeout (ms : Z)
| Click (selector : string)
| Fill (selector : string) (value : option string)
| SelectOption (selector value : string)
| Press (key : string)                   (* [page.keyboard.press(key)] *)
| Query (selector : string)              (* [page.$(selector)] *)
| ClickElement (selector : string)       (* [element.click()] on a queried element *)
| NewPage                                (* [context.newPage()] *)
| ClosePage                              (* [page.close()] *)
| RemoveLockFile.                        (* [rmSync(lockFile, { force: true })] *)

(** The calls made so far, newest first. *)
Definition Session : Type := list Call.

Record Site : Type := {
  performs : Session -> Call -> Reply unit;   (* the calls that return nothing *)
  counts : Session -> string -> Reply nat;
  shows : Session -> string -> Reply bool;
  finds : Session -> string -> Reply bool;    (* is there an element? *)
  urlOf : Session -> string;                  (* [page.url()] *)
  config : string -> option string            (* [Config.string(name)] *)
}.

Definition Eff' (A : Type) : Type := Eff (Session * World) A.

(** An effect on the world, run next to the session. *)
Definition onWorld {X A} (eff : Eff World A) : Eff (X * World) A :=
  fun '(x, w) => let '(r, w') := eff w in (r, (x, w')).

(** [Effect.timeout(d)] of an effect that carries state next to the
    world; the same deadline discipline as [timeout]. *)
Definition within {X A} (d : Z) (eff : Eff (X * World) A) : Eff (X * World) A :=
  fun '(x, w) =>
    let own := now w + d in
    let outer := deadline w in
    let mine := match outer with
                | Some o => own <? o
                | None => true
                end in
    let '(r, (x', w')) :=
      eff (x, set_deadline (Some (if mine then own else
                              match outer with Some o => o | None => own end)) w) in
    let w'' := set_deadline outer w' in
    match r with
    | Interrupted => if mine then (Failure TimeoutException, (x', w''))
                     else (Interrupted, (x', w''))
    | _ => (r, (x', w''))
    end.

(** [...errorHandler] in [Effect.tryPromise]. *)
Definition rejected (m : string) : Err := SyncCrmError m.

(** [Effect.tryPromise({ try: () => page.call(...), ...errorHandler })]:
    the call is recorded when it is made. *)
Definition ask {A} (c : Call) (reply : Session -> Reply A) : Eff' A :=
  fun '(h, w) =>
    let '(r, w') := tryPromise (reply h) rejected w in (r, (c :: h, w')).

(** [Schedule.exponential("100 millis").pipe(Schedule.intersect(Schedule.recurs(3)))] *)
Definition navigationRetrySchedule : Schedule :=
  intersect (exponential 100) (recurs 3).

(** A double quote, and a quoted attribute value of a selector. *)
Definition quote : string := String "034"%char EmptyString.
Definition quoted (s : string) : string :=
  String.append quote (String.append s quote).

(** [`xpath=//input[@value="${tagValue}"]/parent::label`] *)
Definition tagLabel (tagValue : string) : string :=
  String.append "xpath=//input[@value="
    (String.append (quoted tagValue) "]/parent::label").

Definition createLink : string := "#main-content-area a[href='/my/client/create']".
Definition errorAlert : string := "#RecruiterClientForm div#ErrorAlert".
Definition input (name : string) : string :=
  String.append "input[name=" (String.append (quoted name) "]").

(** A JavaScript string used as a condition: [null] and the empty
    string are falsy. *)
Definition truthy (s : option string) : bool :=
  match s with
  | Some EmptyString => false
  | Some _ => true
  | None => false
  end.

(** The [data] argument of [fillCreateCompanyForm] ([typeof
    companyData]); the fields the caller reads with [!] from nullable
    columns can be [null]. *)
Record CompanyData : Type := {
  name : string;
  website : string;
  email : option string;
  phone : option string;
  industry : option string;
  address : option string;
  location : option string;
  tags : list string
}.

Section Pages.
Variable site : Site.
Local Open Scope eff_scope.

Definition info (t : string) : Eff' unit := onWorld (log t).

(** A call that returns nothing, under the navigation retry. *)
Definition retried (c : Call) : Eff' unit :=
  retry navigationRetrySchedule (ask c (fun h => performs site h c)).

(** [Config.string(name)] *)
Definition Config_string (name : string) : Eff' string :=
  match config site name with
  | Some v => succeed v
  | None =>
      fail (UnknownException
              (String.append "Expected " (String.append name
                 " to exist in the process context")))
  end.

(** [performLogin(page)], lines 219-263. *)
Definition performLogin : Eff' unit :=
  fun '(h, w) =>
    let currentUrl := urlOf site h in
    (onWorld (logLine LogInfo "currentUrl" (Some currentUrl)) ;;
     userEmail <- Config_string "GIIGHIRE_EMAIL" ;;
     userPassword <- Config_string "GIIGHIRE_PASSWORD" ;;
     retried (Fill (input "Email") (Some userEmail)) ;;
     retried (Fill (input "Password") (Some userPassword)) ;;
     retried (Click "div#LoginSubmit") ;;
     retried (WaitForTimeout 2000) ;;
     retried (Goto currentUrl)) (h, w).

(** [checkForAuth(page)], lines 187-197. *)
Definition checkForAuth : Eff' unit :=
  isFacingAuth <- map (fun num => negb (Nat.eqb num 0))
                    (retry navigationRetrySchedule
                       (ask (Count "#auth-page") (fun h => counts site h "#auth-page"))) ;;
  if isFacingAuth then performLogin else succeed tt.

(** [checkForError(page)], lines 199-217. *)
Definition checkForError : Eff' unit :=
  isFacing404 <- map (fun num => negb (Nat.eqb num 0))
                   (retry navigationRetrySchedule
                      (ask (Count ".error401") (fun h => counts site h ".error401"))) ;;
  if isFacing404 then
    retried Reload ;;
    performLogin
  else succeed tt.

(** [checkIfAuthNeeded(page)], lines 182-185. *)
Definition checkIfAuthNeeded : Eff' unit :=
  checkForAuth ;;
  checkForError.

(** The loop of [selectTags], lines 498-517: a tag without an element
    is passed over. *)
Fixpoint selectEach (tags : list string) : Eff' unit :=
  match tags with
  | [] => succeed tt
  | tagValue :: rest =>
      element <- ask (Query (tagLabel tagValue))
                   (fun h => finds site h (tagLabel tagValue)) ;;
      (if element
       then ask (ClickElement (tagLabel tagValue))
              (fun h => performs site h (ClickElement (tagLabel tagValue)))
       else succeed tt) ;;
      selectEach rest
  end.

(** [selectTags(page, tags)], lines 452-536. *)
Definition selectTags (tags : list string) : Eff' unit :=
  match tags with
  | [] => info "No tags to select"
  | _ :: _ =>
      info "Adding tags..." ;;
      tagAreaVisible <- ask (IsVisible "#EditTagArea")
                          (fun h => shows site h "#EditTagArea") ;;
      (if tagAreaVisible then succeed tt
       else
         info "Tag area not visible, clicking Add Tags button..." ;;
         retried (Click "#AddTagGroup") ;;
         info "Clicked Add Tags button" ;;
         ask (WaitForTimeout 1000) (fun h => performs site h (WaitForTimeout 1000)) ;;
         retried (WaitForSelector "#EditTagArea") ;;
         info "Tag area is now visible") ;;
      onWorld (logLine LogInfo "Selecting tags"
                 (Some (show (Z.of_nat (List.length tags))))) ;;
      selectEach tags ;;
      info "Saving tags..." ;;
      retried (Click "#SaveTagUpdate") ;;
      info "Clicked Save & Close button" ;;
      ask (WaitForTimeout 2000) (fun h => performs site h (WaitForTimeout 2000)) ;;
      info "Tags saved successfully"
  end.

(** The generator of [fillCreateCompanyForm], lines 278-447. *)
Definition fillForm (data : CompanyData) : Eff' bool :=
  info "Opening to fill Create Company form..." ;;
  count <- retry navigationRetrySchedule
             (ask (Count createLink) (fun h => counts site h createLink)) ;;
  info "Successfully navigated to" ;;
  onWorld (logLine LogInfo "count" (Some (show (Z.of_nat count)))) ;;
  retried (Click createLink) ;;
  info "Successfully navigated to" ;;
  info "Starting to fill Create Company form..." ;;
  retried (WaitForSelector "#RecruiterClientForm") ;;
  info "Filling company name..." ;;
  retried (Fill (input "Name") (Some (name data))) ;;
  retried (WaitForTimeout 10000) ;;
  errorAlertVisible <- ask (IsVisible errorAlert) (fun h => shows site h errorAlert) ;;
  if errorAlertVisible then succeed false
  else
    (if truthy (Some (website data)) then
       info "Filling website..." ;;
       retried (Fill (input "Website") (Some (website data)))
     else succeed tt) ;;
    (if truthy (email data) then
       info "Filling email..." ;;
       retried (Fill (input "EmailAddress") (email data))
     else succeed tt) ;;
    (if truthy (phone data) then
       info "Filling phone..." ;;
       retried (Fill (input "PhoneNumber") (phone data))
     else succeed tt) ;;
    info "Selecting industry..." ;;
    retried (SelectOption "select#IndustrySelect" "108") ;;
    info "Filling city..." ;;
    retried (Fill "#CompanyCreateAutoCompleteAddress" (address data)) ;;
    retried (WaitForTimeout 2000) ;;
    retried (Press "ArrowDown") ;;
    retried (Press "Enter") ;;
    retried (WaitForTimeout 6000) ;;
    (match tags data with
     | [] => succeed tt
     | _ :: _ =>
         info "Adding tags..." ;;
         retried (Click "#AddTagGroup") ;;
         retried (WaitForTimeout 1000) ;;
         selectTags (tags data)
     end) ;;
    alertAfter <- ask (IsVisible errorAlert) (fun h => shows site h errorAlert) ;;
    if alertAfter then succeed false else succeed true.

(** [fillCreateCompanyForm(page, data)]: the generator under
    [Effect.timeout("2 minutes")], lines 278-449. *)
Definition fillCreateCompanyForm (data : CompanyData) : Eff' bool :=
  within 120000 (fillForm data).
End Pages.

(** Strings hold their text as UTF-8: a character is a byte and the
    continuation bytes ([10xxxxxx]) that follow it. *)
Definition trailing (c : ascii) : bool :=
  match c with
  | Ascii _ _ _ _ _ _ false true => true
  | _ => false
  end.

(** The characters of [s], after the bytes [current] of the character
    that is being read. *)
Fixpoint charsFrom (current s : string) : list string :=
  match s with
  | EmptyString => [current]
  | String c rest =>
      if trailing c then charsFrom (String.append current (String c EmptyString)) rest
      else current :: charsFrom (String c EmptyString) rest
  end.

(** The characters of a string, each as a string of its own: what
    iterating a JavaScript string yields, its code points one by one. *)
Definition chars (s : string) : list string :=
  match s with
  | EmptyString => []
  | String c rest => charsFrom (String c EmptyString) rest
  end.

(** [[...new Set(...names)]]: the spread passes the names as separate
    arguments, and [new Set] builds the set from its first argument
    only, an iterable: a string is iterated by its characters. *)
Definition spreadSet (names : list string) : list string :=
  match names with
  | [] => []
  | first :: _ => ScrapeWebsite.dedupe [] (chars first)
  end.

(** A nullable column read with [!] and used in a template literal. *)
Definition orNull (s : option string) : string :=
  match s with Some v => v | None => "null" end.

(** The [data] the activity passes to [fillCreateCompanyForm], lines
    133-142. *)
Definition formData (record : Company.t) : CompanyData :=
  {| name := Company.name record;
     website := Company.websiteUrl record;
     email := Company.emailAddress record;
     phone := Company.phoneNumber record;
     industry := Company.industry record;
     address := Company.address record;
     location := Company.location record;
     tags := orNull (Company.industry record) :: orNull (Company.location record)
             :: spreadSet (Company.servicesOffered record) |}.

End Page.

(* ------------------------------------------------------------------ *)
(** ** Vocabulary of the statements about the page *)

(** The calls of a session, oldest first. *)
Definition inOrder (h : Page.Session) : list Page.Call := rev h.

(** The elements that were clicked and the elements that were looked
    up, oldest first. *)
Definition elementClicks (h : Page.Session) : list string :=
  flat_map (fun c => match c with Page.ClickElement s => [s] | _ => [] end) (rev h).

Definition queries (h : Page.Session) : list string :=
  flat_map (fun c => match c with Page.Query s => [s] | _ => [] end) (rev h).

(** The selectors that were clicked on the page, oldest first. *)
Definition clicks (h : Page.Session) : list string :=
  flat_map (fun c => match c with Page.Click s => [s] | _ => [] end) (rev h).

(** What was typed into the page, oldest first. *)
Definition fills (h : Page.Session) : list (string * option string) :=
  flat_map (fun c => match c with Page.Fill s v => [(s, v)] | _ => [] end) (rev h).

(** A site that answers every call at once: [present] tells the tags
    that have an element, [visible] the selectors that are shown,
    [counted] how many elements a selector matches. *)
Definition quickSite (present : string -> bool) (visible : string -> bool)
    (counted : string -> nat) (vars : string -> option string) : Page.Site :=
  {| Page.performs := fun _ _ => resolves 0;
     Page.counts := fun _ s => {| took := 0; settled := Resolved (counted s) |};
     Page.shows := fun _ s => {| took := 0; settled := Resolved (visible s) |};
     Page.finds := fun _ s => {| took := 0; settled := Resolved (present s) |};
     Page.urlOf := fun _ => "https://app.giighire.com/my/client/database";
     Page.config := vars |}.

(** A page that rejects whatever it is asked. *)
Definition deadSite : Page.Site :=
  {| Page.performs := fun _ _ => rejects 0 "Target page has been closed";
     Page.counts := fun _ _ =>
       {| took := 0; settled := Rejected "Target page has been closed" |};
     Page.shows := fun _ _ =>
       {| took := 0; settled := Rejected "Target page has been closed" |};
     Page.finds := fun _ _ =>
       {| took := 0; settled := Rejected "Target page has been closed" |};
     Page.urlOf := fun _ => "about:blank";
     Page.config := fun _ => None |}.

Definition credentials (name : string) : option string :=
  if String.eqb name "GIIGHIRE_EMAIL" then Some "sync@firm.example"
  else if String.eqb name "GIIGHIRE_PASSWORD" then Some "secret"
  else None.

(** The tags the page has a checkbox for. *)
Definition onPage (selector : string) : bool :=
  String.eqb selector (Page.tagLabel "Legal")
  || String.eqb selector (Page.tagLabel "W").

(** A page that answers at once, and waits as long as it is asked to. *)
Definition prompt (site : Page.Site) : Prop :=
  (forall h c, took (Page.performs site h c)
               = match c with Page.WaitForTimeout ms => ms | _ => 0 end)
  /\ (forall h s, took (Page.counts site h s) = 0)
  /\ (forall h s, took (Page.shows site h s) = 0)
  /\ (forall h s, took (Page.finds site h s) = 0).

(** A CRM that needs no login and does not know the company yet; the
    tag area is open once the form asks for it. *)
Definition newSite : Page.Site :=
  {| Page.performs := fun _ c =>
       match c with
       | Page.WaitForTimeout ms => resolves ms
       | _ => resolves 0
       end;
     Page.counts := fun _ _ => {| took := 0; settled := Resolved 0%nat |};
     Page.shows := fun _ s =>
       {| took := 0; settled := Resolved (String.eqb s "#EditTagArea") |};
     Page.finds := fun _ s => {| took := 0; settled := Resolved (onPage s) |};
     Page.urlOf := fun _ => "https://app.giighire.com/my/client/database";
     Page.config := credentials |}.

(** One character: a byte and continuation bytes only. *)
Fixpoint allTrailing (s : string) : bool :=
  match s with
  | EmptyString => true
  | String c rest => Page.trailing c && allTrailing rest
  end.

Definition oneChar (t : string) : Prop :=
  exists c rest, t = String c rest /\ allTrailing rest = true.

(** The dash of "Employment Law - For Employees" as the scraper's list
    of tags has it: U+2013, three bytes in UTF-8. *)
Definition enDash : string :=
  String "226"%char (String "128"%char (String "147"%char EmptyString)).

(** A company whose first service is spelt with that dash. *)
Definition dashedService : string :=
  String.append "Law " (String.append enDash " Tax").

Definition dashedCompany : Company.t :=
  Company.make "company-1" "Firm 2" "http://b" (Some "office@firm2.example")
    (Some "+44 2") (Some "2 High Street") (Some "Legal") (Some "Leeds")
    [dashedService; "Wills"] None.

(* ------------------------------------------------------------------ *)
(** ** Vocabulary of the statements about the CRM runner *)

(** An effect, a scope's finalizers and a scoped effect that leave a
    relation [R] between the world before and the world after. *)
Definition preserves {A} (R : World -> World -> Prop) (eff : Eff World A) : Prop :=
  forall w, R w (snd (eff w)).

Definition preservesAll (R : World -> World -> Prop) (fs : Scope) : Prop :=
  Forall (fun fin : Finalizer => forall ok, preserves R (fin ok)) fs.

Definition preservesS {A} (R : World -> World -> Prop) (eff : Scoped A) : Prop :=
  forall fs w, preservesAll R fs ->
    R w (snd (snd (eff (fs, w)))) /\ preservesAll R (fst (snd (eff (fs, w)))).

(** What a run of the CRM runner may do to the company table: keep a
    company as it is, give a company it could select and that has
    services its sync event, or delete a company it could select and
    that has no services. *)
Inductive synced : list Company.t -> list Company.t -> Prop :=
| synced_nil : synced [] []
| synced_same (c : Company.t) (l l' : list Company.t) :
    synced l l' -> synced (c :: l) (c :: l')
| synced_event (c : Company.t) (status : bool) (l l' : list Company.t) :
    Db.syncable c = true -> Company.servicesOffered c <> [] ->
    synced l l' -> synced (c :: l) (Company.withCrmSyncEvent status c :: l')
| synced_deleted (c : Company.t) (l l' : list Company.t) :
    Db.syncable c = true -> Company.servicesOffered c = [] ->
    synced l l' -> synced (c :: l) l'.

(** What it may do to the backlog: keep a row, or reset its status. *)
Definition released (pes pes' : list PlaceEntry.t) : Prop :=
  Forall2 (fun r r' => r' = r \/ r' = PlaceEntry.withStatus None r) pes pes'.

(** How the counters of the CRM runner may move between two moments of
    a run: none goes down, every timeout is a failure, and a processed
    record is counted as skipped or as timed out at most, not as both. *)
Definition crmTallied (m m' : Metrics) : Prop :=
  0 <= recordsTimedOut m' - recordsTimedOut m
  /\ recordsTimedOut m' - recordsTimedOut m <= recordsFailed m' - recordsFailed m
  /\ 0 <= recordsSkipped m' - recordsSkipped m
  /\ (recordsTimedOut m' - recordsTimedOut m) + (recordsSkipped m' - recordsSkipped m)
     <= recordsProcessed m' - recordsProcessed m.

(** One step of a run of the CRM runner, as seen in the store and the
    counters. *)
Definition crmStep (w w' : World) : Prop :=
  crmTallied (metrics w) (metrics w')
  /\ released (placeEntry w) (placeEntry w')
  /\ (NoDup (List.map Company.id (company w)) -> synced (company w) (company w')).

(** A company table with a company that has its sync event, a company
    without an email address, and a company to sync. *)
Definition syncedCompany : Company.t :=
  Company.make "company-1" "Firm 2" "http://b" (Some "office@firm2.example")
    (Some "+44 2") None (Some "Legal") (Some "London") ["Wills"] (Some true).

Definition silentCompany : Company.t :=
  Company.make "company-2" "Firm 3" "http://c" None
    (Some "+44 3") None (Some "Legal") (Some "London") ["Trusts"] None.

Definition crmMixed : World :=
  {| now := 0; deadline := None;
     placeEntry := [PlaceEntry.withStatus (Some true) (entry "1" "http://a")];
     company := [syncedCompany; silentCompany; readyCompany];
     metrics := noMetrics; logs := []; browser := freshBrowser |}.

(* ------------------------------------------------------------------ *)
(** ** src/db/index.ts *)

Module Database.

(** The Prisma client as the layer sees it: the connection string of the
    configuration, how [prisma.$connect()] settles on each call (by the
    number of earlier calls), and how [prisma.$disconnect()] settles. *)
Record Client : Type := {
  DATABASE_URL : option string;
  connect : nat -> Reply unit;
  disconnect : Reply unit
}.

(** [Schedule.exponential("1 second").pipe(Schedule.intersect(Schedule.recurs(3)))] *)
Definition connectionPolicy : Schedule :=
  intersect (exponential 1000) (recurs 3).

Section Layer.
Variable client : Client.

(** Lines 22-38: the connection, retried under the policy (the try
    made after [i] failed ones is the call number [i]). *)
Definition connecting : Eff World unit :=
  catchAll
    (retryFrom connectionPolicy 3 0
       (fun i =>
          tryPromise (connect client i)
            (fun error =>
               UnknownException ("Failed to connect to database: " ++ error))) ;;
     log "Database connected successfully")
    (fun error =>
       logLine LogError "Failed to connect to database after retries"
         (Some (message_of error)) ;;
       fail error).

(** Lines 40-53: the finalizer of the layer. *)
Definition disconnecting : Eff World unit :=
  catchAll
    (log "Disconnecting from database..." ;;
     tryPromise (disconnect client)
       (fun error =>
          UnknownException ("Failed to disconnect from database: " ++ error)) ;;
     log "Database disconnected")
    (fun error =>
       logLine LogError "Error during database disconnect"
         (Some (message_of error))).

(** [PrismaClientLive], lines 12-57. *)
Definition PrismaClientLive : Scoped unit :=
  match DATABASE_URL client with
  | None =>
      fail (UnknownException "Expected DATABASE_URL to exist in the process context")
  | Some connectionString =>
      lift connecting ;;
      addFinalizer (fun _ => disconnecting) ;;
      succeed tt
  end.

(** [program.pipe(Effect.provide(DatabaseLive))]: the layer is built in
    a scope of its own, the program runs, and the scope is closed. *)
Definition provided {A} (program : Eff World A) : Eff World A :=
  scoped (PrismaClientLive ;; lift program).
End Layer.
End Database.

(** A database that refuses every connection, and one that accepts the
    third and then cannot be disconnected from. *)
Definition unreachableDatabase : Database.Client :=
  {| Database.DATABASE_URL := Some "postgresql://localhost:5432/places";
     Database.connect := fun _ => rejects 50 "Can't reach database server";
     Database.disconnect := resolves 5 |}.

Definition flakyDatabase : Database.Client :=
  {| Database.DATABASE_URL := Some "postgresql://localhost:5432/places";
     Database.connect := fun i =>
       if Nat.ltb i 2 then rejects 50 "Can't reach database server" else resolves 20;
     Database.disconnect := rejects 5 "Connection terminated unexpectedly" |}.

(* ------------------------------------------------------------------ *)
(** ** The sync activity (syncCrm.ts, lines 27-165)

    The scope of the activity holds finalizers that act on the page as
    well as on the world: the scopes of the runtime, once more, for
    effects that carry a session next to the world. *)
Module SyncCrmActivity.
Import Page.

Definition Finalizer' : Type := bool -> Eff' unit.
Definition Scope' : Type := list Finalizer'.   (* newest first *)
Definition Scoped' (A : Type) : Type := Eff (Scope' * (Session * World)) A.

Definition lift' {A} (eff : Eff' A) : Scoped' A :=
  fun '(fs, s) => let '(r, s') := eff s in (r, (fs, s')).

(** [Effect.uninterruptible] *)
Definition uninterruptible' {A} (eff : Eff' A) : Eff' A :=
  fun '(h, w) =>
    let '(r, (h', w')) := eff (h, set_deadline None w) in
    (r, (h', set_deadline (deadline w) w')).

(** [Effect.acquireRelease(acquire, release)] *)
Definition acquireRelease' {A} (acquire : Eff' A) (release : A -> Eff' unit)
    : Scoped' A :=
  fun '(fs, s) =>
    match uninterruptible' acquire s with
    | (Success a, s') => (Success a, ((fun _ => release a) :: fs, s'))
    | (r, s') => (r, (fs, s'))
    end.

Fixpoint closeScope' (fs : Scope') (ok : bool) : Eff' unit :=
  fun s =>
    match fs with
    | [] => (Success tt, s)
    | f :: rest =>
        let '(r, s') := f ok s in
        let '(r', s'') := closeScope' rest ok s' in
        (match r with Success _ => r' | _ => r end, s'')
    end.

(** [Effect.scoped] *)
Definition scoped' {A} (eff : Scoped' A) : Eff' A :=
  fun s =>
    match eff ([], s) with
    | (Pending, (_, s')) => (Pending, s')
    | (r, (fs, s')) =>
        let '(rf, s'') := uninterruptible' (closeScope' fs (isSuccess r)) s' in
        (match r with
         | Success a => coerce rf (Success a)
         | _ => r
         end, s'')
    end.

(** A scoped effect on the world alone, run in a scope of the activity:
    the finalizers it registers go on top of the scope. *)
Definition inScope {A} (eff : Scoped A) : Scoped' A :=
  fun '(fs, (h, w)) =>
    let '(r, (gs, w')) := eff ([], w) in
    (r, (List.map (fun (g : Finalizer) ok => onWorld (g ok)) gs ++ fs, (h, w'))).

(** [Effect.acquireUseRelease(acquire, use, release)]: the release runs
    once the resource was acquired, however [use] exits. *)
Definition acquireUseRelease {A B} (acquire : Eff' A) (use : A -> Eff' B)
    (release : A -> Eff' unit) : Eff' B :=
  fun s =>
    match uninterruptible' acquire s with
    | (Success a, s1) =>
        match use a s1 with
        | (Pending, s2) => (Pending, s2)
        | (r, s2) =>
            let '(rf, s3) := uninterruptible' (release a) s2 in
            (match r with
             | Success b => coerce rf (Success b)
             | _ => r
             end, s3)
        end
    | (Failure e, s1) => (Failure e, s1)
    | (Die d, s1) => (Die d, s1)
    | (Interrupted, s1) => (Interrupted, s1)
    | (Pending, s1) => (Pending, s1)
    end.

(** [cleanupLockFile], lines 27-33: the removal cannot fail, whatever
    [rmSync] does. *)
Definition cleanupLockFile : Eff' unit :=
  fun '(h, w) => (Success tt, (RemoveLockFile :: h, w)).

(** [withLockFileCleanup(effect)], lines 35-40. *)
Definition withLockFileCleanup {A} (effect : Eff' A) : Eff' A :=
  acquireUseRelease cleanupLockFile (fun _ => effect) (fun _ => cleanupLockFile).

Definition database : string := "https://app.giighire.com/my/client/database".
Definition submitButton : string := "#RecruiterClientForm #btnSubmit".

(** [db.company.findFirst({ where: { id }, include })] *)
Definition company_findFirst (i : string) : Eff World (option Company.t) :=
  fun w => (Success (find (Db.hasId i) (company w)), w).

Section Activity.
Variable env : Env.
Variable site : Site.
Local Open Scope eff_scope.

(** [makePage(context)], lines 51-71.  (The messages of the log lines
    are kept without their pictograph; what is interpolated after the
    message is the annotation of the line.) *)
Definition makePage : Scoped' unit :=
  acquireRelease'
    (retry (intersect (exponential 2000) (recurs 2))
       (within 45000 (ask NewPage (fun h => performs site h NewPage))) ;;
     info "Page opened successfully")
    (fun page =>
       catchAll
         (within 10000 (ask ClosePage (fun h => performs site h ClosePage)))
         (fun error =>
            onWorld (logLine LogWarning "Page close failed, will force kill"
                       (Some (message_of error))))).

(** The generator under [Effect.scoped], lines 91-164. *)
Definition interaction (payload : SyncCrmplaceDetailWorkflow.Payload)
    : Scoped' unit :=
  record <- lift'
              (onWorld
                 (tapError
                    (fun error w => snd (logLine LogError (message_of error) None w))
                    (mapError SyncCrm.errorHandler
                       (company_findFirst (SyncCrmplaceDetailWorkflow.id payload))))) ;;
  match record with
  | None => succeed tt
  | Some record =>
      context <- inScope
                   (BrowserService.getContext env
                      (Some (BrowserService.persistSession env))) ;;
      lift' (info "DEBUG: Browser handle received") ;;
      page <- makePage ;;
      lift' (retried site (Goto database) ;;
             info ("Successfully navigated to " ++ Company.websiteUrl record)) ;;
      lift' (checkIfAuthNeeded site) ;;
      lift' (onWorld (sync (BrowserService.record (StorageState context)) ;;
                      promise (saveStorageState env context))) ;;
      shouldSubmit <- lift' (fillCreateCompanyForm site (formData record)) ;;
      if shouldSubmit then
        lift' (info "Submitting form..." ;;
               ask (Click submitButton) (fun h => performs site h (Click submitButton)) ;;
               info ("Successfully navigated to " ++ Company.websiteUrl record) ;;
               retried site (WaitForTimeout 3000) ;;
               info ("Successfully navigated to " ++ Company.websiteUrl record))
      else
        lift' (info "Already exist!")
  end.

(** The activity's [execute], lines 83-168: the generator (which reads
    the attempt and the services and runs the scope), its error
    handling, and the lock file cleanup around both. *)
Definition execute (payload : SyncCrmplaceDetailWorkflow.Payload) (attempt : nat)
    : Eff' unit :=
  withLockFileCleanup
    (mapError SyncCrm.errorHandler
       (tapError
          (fun error s =>
             snd (onWorld (logLine LogError "Activity failed with error"
                             (Some (message_of error))) s))
          (scoped' (interaction payload)))).
End Activity.
End SyncCrmActivity.

(* ------------------------------------------------------------------ *)
(** ** Sample pages for the sync activity *)

(** A CRM that needs no login and knows every company: the form shows
    its alert. *)
Definition knownSite : Page.Site :=
  quickSite onPage (fun _ => true) (fun _ => 0%nat) credentials.

(** The same CRM, on a page that cannot be closed. *)
Definition stuckPageSite : Page.Site :=
  {| Page.performs := fun _ c =>
       match c with
       | Page.ClosePage => rejects 0 "Target page, context or browser has been closed"
       | _ => resolves 0
       end;
     Page.counts := fun _ _ => {| took := 0; settled := Resolved 0%nat |};
     Page.shows := fun _ _ => {| took := 0; settled := Resolved true |};
     Page.finds := fun _ s => {| took := 0; settled := Resolved (onPage s) |};
     Page.urlOf := fun _ => "https://app.giighire.com/my/client/database";
     Page.config := credentials |}.

(** A context that opens no page. *)
Definition noPageSite : Page.Site :=
  {| Page.performs := fun _ c =>
       match c with
       | Page.NewPage => rejects 30 "browserContext.newPage: Target closed"
       | _ => resolves 0
       end;
     Page.counts := fun _ _ => {| took := 0; settled := Resolved 0%nat |};
     Page.shows := fun _ _ => {| took := 0; settled := Resolved true |};
     Page.finds := fun _ s => {| took := 0; settled := Resolved (onPage s) |};
     Page.urlOf := fun _ => "about:blank";
     Page.config := credentials |}.

Definition syncOf (i : string) : SyncCrmplaceDetailWorkflow.Payload :=
  {| SyncCrmplaceDetailWorkflow.id := i |}.

(* ------------------------------------------------------------------ *)
(** ** Facts about the runtime *)

Ltac fields :=
  cbn [now deadline placeEntry company metrics logs browser
       set_now set_deadline set_placeEntry set_company set_metrics set_logs
       set_browser fst snd] in *.

Lemma quiet_trans (a b c : World) : quiet a b -> quiet b c -> quiet a c.
Proof.
  unfold quiet. intros (?&?&?&?&?) (?&?&?&?&?).
  repeat split; etransitivity; eassumption.
Qed.

(** A loop whose state the step function leaves alone, and whose
    condition holds of it, never ends with a success. *)
Lemma loop_constant_state {W St A} (fuel : nat) (init : St) (while : St -> bool)
    (step : St -> St) (body : St -> Eff W A) (w : W) :
  while init = true -> step init = init ->
  forall r, fst (loop fuel init while step body w) <> Success r.
Proof.
  intros Hwhile Hstep. revert w.
  induction fuel as [|fuel IH]; intros w r; cbn [loop]; rewrite Hwhile.
  - discriminate.
  - unfold bind at 1. destruct (body init w) as [[a|e|d| |] w1]; cbn [fst]; try discriminate.
    rewrite Hstep. specialize (IH w1).
    unfold map, bind.
    destruct (loop fuel init while step body w1) as [[l|e|d| |] w2]; cbn [fst] in *; try discriminate.
    exfalso. exact (IH l eq_refl).
Qed.

Lemma elapse_unbounded (d : Z) (w : World) :
  deadline w = None -> elapse d w = (Success tt, set_now (now w + d) w).
Proof. intros H. unfold elapse. rewrite H. reflexivity. Qed.

Lemma delay_emptyBacklogPolicy (i : nat) :
  delay emptyBacklogPolicy i = 30000 * 2 ^ Z.of_nat i.
Proof.
  unfold emptyBacklogPolicy. cbn [delay].
  apply Z.max_l. apply Z.mul_nonneg_nonneg; [lia|]. apply Z.pow_nonneg. lia.
Qed.

(* ------------------------------------------------------------------ *)
(** ** The workflow leaves the backlog and the counters alone *)

Lemma untouched_refl w : untouched w w.
Proof. split; reflexivity. Qed.

Lemma untouched_trans a b c : untouched a b -> untouched b c -> untouched a c.
Proof. intros [? ?] [? ?]. split; etransitivity; eassumption. Qed.

Lemma untouched_now v w : untouched w (set_now v w).
Proof. split; reflexivity. Qed.
Lemma untouched_deadline v w : untouched w (set_deadline v w).
Proof. split; reflexivity. Qed.
Lemma untouched_logs v w : untouched w (set_logs v w).
Proof. split; reflexivity. Qed.
Lemma untouched_company v w : untouched w (set_company v w).
Proof. split; reflexivity. Qed.
Lemma untouched_browser v w : untouched w (set_browser v w).
Proof. split; reflexivity. Qed.


Lemma keeps_succeed {A} (a : A) : keeps (succeed a).
Proof. intros w. apply untouched_refl. Qed.
Lemma keeps_fail {A} e : keeps (@fail World A e).
Proof. intros w. apply untouched_refl. Qed.
Lemma keeps_die {A} d : keeps (@die World A d).
Proof. intros w. apply untouched_refl. Qed.

Lemma keeps_bind {A B} (m : Eff World A) (k : A -> Eff World B) :
  keeps m -> (forall a, keeps (k a)) -> keeps (bind m k).
Proof.
  intros Hm Hk w. unfold bind. specialize (Hm w).
  destruct (m w) as [[a|e|d| |] w1]; cbn [snd] in *; try exact Hm.
  eapply untouched_trans; [exact Hm | apply Hk].
Qed.

Lemma keeps_elapse d : keeps (elapse d).
Proof.
  intros w. unfold elapse. destruct (deadline w) as [dl|].
  - destruct (dl <? now w + d); apply untouched_now.
  - apply untouched_now.
Qed.

Lemma keeps_logLine l t a : keeps (logLine l t a).
Proof. intros w. apply untouched_logs. Qed.

Lemma keeps_promise {A} (p : Reply A) : keeps (promise p).
Proof.
  apply keeps_bind; [apply keeps_elapse|]. intros _.
  destruct (settled p); [apply keeps_succeed | apply keeps_die].
Qed.

Lemma keeps_tryPromise {A} (p : Reply A) c : keeps (tryPromise p c).
Proof.
  apply keeps_bind; [apply keeps_elapse|]. intros _.
  destruct (settled p); [apply keeps_succeed | apply keeps_fail].
Qed.

Lemma keeps_mapError {A} f (m : Eff World A) : keeps m -> keeps (mapError f m).
Proof.
  intros Hm w. unfold mapError. specialize (Hm w).
  destruct (m w) as [[a|e|d| |] w1]; exact Hm.
Qed.

Lemma keeps_orDie {A} (m : Eff World A) : keeps m -> keeps (orDie m).
Proof.
  intros Hm w. unfold orDie. specialize (Hm w).
  destruct (m w) as [[a|e|d| |] w1]; exact Hm.
Qed.

Lemma keeps_tapError {A} (f : Err -> World -> World) (m : Eff World A) :
  keeps m -> (forall e w, untouched w (f e w)) -> keeps (tapError f m).
Proof.
  intros Hm Hf w. unfold tapError. specialize (Hm w).
  destruct (m w) as [[a|e|d| |] w1]; cbn [snd] in *; try exact Hm.
  eapply untouched_trans; [exact Hm | apply Hf].
Qed.

Lemma keeps_timeout {A} d (m : Eff World A) : keeps m -> keeps (timeout d m).
Proof.
  intros Hm w. unfold timeout.
  match goal with |- context [m ?w0] => specialize (Hm w0); destruct (m w0) as [r w1] end.
  cbn [snd] in Hm.
  assert (untouched w (set_deadline (deadline w) w1)).
  { eapply untouched_trans; [apply untouched_deadline|].
    eapply untouched_trans; [exact Hm | apply untouched_deadline]. }
  destruct r; try assumption.
  destruct (match deadline w with Some o => now w + d <? o | None => true end); assumption.
Qed.

Lemma keeps_uninterruptible {A} (m : Eff World A) : keeps m -> keeps (uninterruptible m).
Proof.
  intros Hm w. unfold uninterruptible.
  specialize (Hm (set_deadline None w)). destruct (m (set_deadline None w)) as [r w1].
  cbn [snd] in *.
  eapply untouched_trans; [apply untouched_deadline|].
  eapply untouched_trans; [exact Hm | apply untouched_deadline].
Qed.

Lemma keeps_closeScope fs ok : keepsAll fs -> keeps (closeScope fs ok).
Proof.
  induction fs as [|f fs IH]; intros Hfs w; cbn [closeScope].
  - apply untouched_refl.
  - inversion Hfs as [|? ? Hf Hrest]; subst.
    specialize (Hf ok w). destruct (f ok w) as [r w1].
    specialize (IH Hrest w1). destruct (closeScope fs ok w1) as [r' w2].
    cbn [snd] in *. eapply untouched_trans; eassumption.
Qed.

Lemma keeps_scoped {A} (body : Scoped A) : keepsS body -> keeps (scoped body).
Proof.
  intros Hb w. unfold scoped. destruct (Hb [] w (Forall_nil _)) as [Hu Hf].
  unfold Scope in *.
  destruct (body ([], w)) as [r [fs w1]]. cbn [fst snd] in *.
  pose proof (keeps_uninterruptible (keeps_closeScope (isSuccess r) Hf) w1) as Hc.
  destruct (uninterruptible (closeScope fs (isSuccess r)) w1) as [rf w2].
  cbn [snd] in Hc.
  destruct r; cbn [snd]; try exact Hu; eapply untouched_trans; eassumption.
Qed.

Lemma keepsS_lift {A} (m : Eff World A) : keeps m -> keepsS (lift m).
Proof.
  intros Hm fs w Hfs. unfold lift. specialize (Hm w).
  destruct (m w) as [r w1]. cbn [fst snd] in *. split; assumption.
Qed.

Lemma keepsS_succeed {A} (a : A) : keepsS (succeed a).
Proof. intros fs w Hfs. split; [apply untouched_refl | exact Hfs]. Qed.
Lemma keepsS_die {A} d : keepsS (@die (Scope * World) A d).
Proof. intros fs w Hfs. split; [apply untouched_refl | exact Hfs]. Qed.

Lemma keepsS_bind {A B} (m : Scoped A) (k : A -> Scoped B) :
  keepsS m -> (forall a, keepsS (k a)) -> keepsS (bind m k).
Proof.
  intros Hm Hk fs w Hfs. unfold bind. destruct (Hm fs w Hfs) as [Hu Hf].
  destruct (m (fs, w)) as [[a|e|d| |] [fs1 w1]]; cbn [fst snd] in *;
    try (split; assumption).
  destruct (Hk a fs1 w1 Hf) as [Hu' Hf'].
  split; [eapply untouched_trans; eassumption | exact Hf'].
Qed.

Lemma keepsS_addFinalizer (f : Finalizer) :
  (forall ok, keeps (f ok)) -> keepsS (addFinalizer f).
Proof.
  intros Hf fs w Hfs. unfold addFinalizer. cbn [fst snd].
  split; [apply untouched_refl | constructor; assumption].
Qed.

Lemma keepsS_acquireRelease {A} (acquire : Eff World A) (release : A -> Eff World unit) :
  keeps acquire -> (forall a, keeps (release a)) ->
  keepsS (acquireRelease acquire release).
Proof.
  intros Ha Hr fs w Hfs. unfold acquireRelease.
  pose proof (keeps_uninterruptible Ha w) as Hu.
  destruct (uninterruptible acquire w) as [[a|e|d| |] w1]; cbn [fst snd] in *;
    (split; [exact Hu|]); try exact Hfs.
  constructor; [intros _; apply Hr | exact Hfs].
Qed.

Lemma keepsS_withPermits {A} s n (m : Scoped A) :
  keepsS m -> keepsS (BrowserService.withPermits s n m).
Proof.
  intros Hm fs w Hfs. unfold BrowserService.withPermits.
  destruct (Nat.ltb (BrowserService.permitsOf s w) n).
  - cbn [fst snd]. split; [apply untouched_refl | exact Hfs].
  - match goal with |- context [m (fs, ?w0)] =>
      destruct (Hm fs w0 Hfs) as [Hu Hf]; destruct (m (fs, w0)) as [r [fs1 w1]] end.
    cbn [fst snd] in *.
    assert (Hu0 : untouched w w1).
    { eapply untouched_trans; [|exact Hu]. unfold BrowserService.setPermits.
      apply untouched_browser. }
    destruct r; cbn [fst snd]; (split; [|exact Hf]); try exact Hu0;
      (eapply untouched_trans; [exact Hu0|]; unfold BrowserService.setPermits;
       apply untouched_browser).
Qed.

Lemma keepsS_sleep d : keepsS (sleep d).
Proof.
  intros fs w Hfs. cbn [sleep Pair_Clock World_Clock].
  pose proof (keeps_elapse d w) as Hu. destruct (elapse d w) as [r w1].
  cbn [fst snd] in *. split; assumption.
Qed.

Lemma keepsS_retryFrom {A} s left i (eff : nat -> Scoped A) :
  (forall j, keepsS (eff j)) -> keepsS (retryFrom s left i eff).
Proof.
  intros He. revert i. induction left as [|left IH]; intros i fs w Hfs; cbn [retryFrom].
  - destruct (He i fs w Hfs) as [Hu Hf].
    destruct (eff i (fs, w)) as [[a|e|d| |] [fs1 w1]]; cbn [fst snd] in *; split; assumption.
  - destruct (He i fs w Hfs) as [Hu Hf].
    destruct (eff i (fs, w)) as [[a|e|d| |] [fs1 w1]]; cbn [fst snd] in *;
      try (split; assumption).
    assert (Hp : keepsS (pause (delay s i))).
    { unfold pause. destruct (delay s i <=? 0); [apply keepsS_succeed | apply keepsS_sleep]. }
    assert (Hb : keepsS (bind (pause (delay s i))
                              (fun _ => retryFrom s left (S i) eff)))
      by (apply keepsS_bind; [exact Hp | intros _; apply IH]).
    destruct (Hb fs1 w1 Hf) as [Hu' Hf'].
    split; [eapply untouched_trans; eassumption | exact Hf'].
Qed.

Lemma keeps_retryFrom {A} s left i (eff : nat -> Eff World A) :
  (forall j, keeps (eff j)) -> keeps (retryFrom s left i eff).
Proof.
  intros He. revert i. induction left as [|left IH]; intros i w; cbn [retryFrom].
  - specialize (He i w). destruct (eff i w) as [[a|e|d| |] w1]; exact He.
  - pose proof (He i w) as Hu.
    destruct (eff i w) as [[a|e|d| |] w1]; cbn [snd] in *; try exact Hu.
    assert (Hp : keeps (pause (delay s i))).
    { unfold pause. destruct (delay s i <=? 0); [apply keeps_succeed | apply keeps_elapse]. }
    assert (Hb : keeps (bind (pause (delay s i))
                             (fun _ => retryFrom s left (S i) eff)))
      by (apply keeps_bind; [exact Hp | intros _; apply IH]).
    eapply untouched_trans; [exact Hu | apply Hb].
Qed.

Lemma keeps_sync (f : World -> World) :
  (forall w, untouched w (f w)) -> keeps (sync f).
Proof. intros Hf w. apply Hf. Qed.

Lemma keeps_nextHandle : keeps BrowserService.nextHandle.
Proof. intros w. apply untouched_browser. Qed.

Lemma untouched_record e w : untouched w (BrowserService.record e w).
Proof. apply untouched_browser. Qed.

Lemma untouched_setLive l w : untouched w (BrowserService.setLive l w).
Proof. apply untouched_browser. Qed.

Lemma keeps_agent_start env : keeps (BrowserService.agent_start env).
Proof.
  unfold BrowserService.agent_start.
  apply keeps_bind; [apply keeps_nextHandle|]. intros a.
  apply keeps_bind; [apply keeps_promise|]. intros _.
  apply keeps_bind; [|intros _; apply keeps_succeed].
  apply keeps_sync. intros w.
  eapply untouched_trans; [apply untouched_setLive | apply untouched_record].
Qed.

Lemma keeps_agent_stop env a fin (settle : Reply unit -> Eff World unit) :
  (forall p, keeps (settle p)) -> keeps (BrowserService.agent_stop env a fin settle).
Proof.
  intros Hs. unfold BrowserService.agent_stop.
  apply keeps_bind.
  - apply keeps_sync. intros w0. apply untouched_record.
  - intros _. apply keeps_bind; [apply Hs|]. intros _.
    apply keeps_sync. intros w0. apply untouched_setLive.
Qed.

Lemma keepsS_getBrowserAgent env : keepsS (BrowserService.getBrowserAgent env).
Proof.
  unfold BrowserService.getBrowserAgent, retry. cbn [recurrences].
  apply keepsS_retryFrom. intros _.
  apply keepsS_withPermits. apply keepsS_acquireRelease.
  - apply keeps_agent_start.
  - intros a. apply keeps_orDie. apply keeps_agent_stop. intros p. apply keeps_promise.
Qed.

Lemma keeps_company_create env data : keeps (Db.company_create env data).
Proof.
  intros w. unfold Db.company_create.
  destruct (existsb _ (company w)); [apply untouched_refl | apply untouched_company].
Qed.

Lemma keeps_execute env payload attempt :
  keeps (ScrapeWebsite.execute env payload attempt).
Proof.
  unfold ScrapeWebsite.execute. apply keeps_mapError. apply keeps_scoped.
  apply keepsS_bind; [apply keepsS_lift, keeps_logLine|]. intros _.
  apply keepsS_bind; [apply keepsS_getBrowserAgent|]. intros agent.
  apply keepsS_bind; [apply keepsS_lift, keeps_tryPromise|]. intros _.
  apply keepsS_bind; [apply keepsS_lift, keeps_timeout, keeps_tryPromise|]. intros raw.
  apply keepsS_bind; [apply keepsS_lift, keeps_tryPromise|]. intros _.
  apply keepsS_bind.
  { apply keepsS_lift, keeps_agent_stop. intros p. apply keeps_tryPromise. }
  intros _.
  apply keepsS_bind; [apply keepsS_lift, keeps_logLine|]. intros _.
  destruct (Extracted.servicesOffered (ScrapeWebsite.withDefaults payload raw)) as [|s ss].
  - apply keepsS_succeed.
  - destruct (Extracted.telephoneNumber (ScrapeWebsite.withDefaults payload raw)) as [t|].
    + destruct (ScrapeWebsite.includes t "+1"); [apply keepsS_succeed|].
      apply keepsS_bind.
      { apply keepsS_lift, keeps_tapError.
        - apply keeps_mapError, keeps_company_create.
        - intros e w. apply (keeps_logLine LogError (message_of e) None w). }
      intros _. apply keepsS_bind; [apply keepsS_lift, keeps_logLine|]. intros _.
      apply keepsS_succeed.
    + apply keepsS_die.
Qed.

Lemma keeps_workflow env payload :
  keeps (ScrapeWebsite.PlaceWebsiteScraperWorkflow_execute env payload).
Proof.
  unfold ScrapeWebsite.PlaceWebsiteScraperWorkflow_execute, Workflow.execute.
  apply keeps_scoped. apply keepsS_bind.
  - unfold ScrapeWebsite.scrapeWebsite, Workflow.withCompensation.
    apply keepsS_bind.
    { apply keepsS_lift. unfold Activity.retry. apply keeps_retryFrom.
      intros j. apply keeps_execute. }
    intros a. apply keepsS_bind; [|intros _; apply keepsS_succeed].
    apply keepsS_addFinalizer. intros [|]; [apply keeps_succeed|].
    unfold ScrapeWebsite.compensation.
    repeat (apply keeps_bind; [apply keeps_logLine | intros _]). apply keeps_logLine.
  - intros _. apply keepsS_lift, keeps_logLine.
Qed.

Lemma timeout_restores_deadline {A} d (m : Eff World A) w :
  deadline (snd (timeout d m w)) = deadline w.
Proof.
  unfold timeout.
  match goal with |- context [m ?w0] => destruct (m w0) as [r w1] end.
  destruct r; try reflexivity.
  destruct (match deadline w with Some o => now w + d <? o | None => true end); reflexivity.
Qed.


(* ------------------------------------------------------------------ *)
(** ** The website scraper on an empty backlog *)

Lemma queryNext_empty (w : World) :
  find Db.unclaimed (placeEntry w) = None ->
  WebsiteScraper.queryNext w =
    (Failure NoMoreRecords,
     set_logs ({| level := LogInfo; text := "No records found, will retry in 30 seconds..."; about := None |}
               :: {| level := LogInfo; text := "Checking database for next record..."; about := None |}
               :: logs w) w).
Proof.
  intros H. unfold WebsiteScraper.queryNext, bind, log, logLine, sync, Db.placeEntry_findFirst.
  simpl. rewrite H. destruct w; reflexivity.
Qed.

Lemma retry_empty (k i : nat) (w : World) :
  deadline w = None ->
  find Db.unclaimed (placeEntry w) = None ->
  exists w',
    retryFrom emptyBacklogPolicy k i (fun _ => WebsiteScraper.queryNext) w
      = (Failure NoMoreRecords, w')
    /\ now w' = now w + 30000 * (2 ^ Z.of_nat (i + k) - 2 ^ Z.of_nat i)
    /\ quiet w w'
    /\ countLog "Checking database for next record..." (logs w')
       = (countLog "Checking database for next record..." (logs w) + S k)%nat.
Proof.
  revert i w. induction k as [|k IH]; intros i w Hd Hf.
  - cbn [retryFrom]. rewrite (queryNext_empty w Hf). eexists. split; [reflexivity|].
    destruct w; fields. rewrite Nat.add_0_r, Z.sub_diag. split; [lia|].
    split; [repeat split|]. unfold countLog. simpl. lia.
  - cbn [retryFrom]. rewrite (queryNext_empty w Hf).
    unfold bind, pause. rewrite delay_emptyBacklogPolicy.
    assert (Hp : 0 < 2 ^ Z.of_nat i) by (apply Z.pow_pos_nonneg; lia).
    set (p := 2 ^ Z.of_nat i) in *.
    destruct (Z.leb_spec (30000 * p) 0) as [|_]; [lia|].
    cbn [sleep World_Clock]. rewrite elapse_unbounded by (destruct w; exact Hd).
    match goal with |- context [retryFrom _ k (S i) _ ?w1] =>
      destruct (IH (S i) w1) as (w' & E & Hn & Hq & Hc) end.
    { destruct w; exact Hd. } { destruct w; exact Hf. }
    rewrite E. exists w'. split; [reflexivity|].
    destruct w; fields. split.
    + rewrite Hn. replace (Z.of_nat (S i + k)) with (Z.of_nat (i + S k)) by lia.
      replace (Z.of_nat (S i)) with (Z.of_nat i + 1) by lia.
      rewrite Z.pow_add_r by lia. fold p. change (2 ^ 1) with 2. lia.
    + split. { destruct Hq as (?&?&?&?&?). repeat split; assumption. }
      rewrite Hc. unfold countLog. simpl. lia.
Qed.

Lemma fetchNextRecord_empty (w : World) :
  deadline w = None ->
  find Db.unclaimed (placeEntry w) = None ->
  exists w',
    WebsiteScraper.fetchNextRecord w = (Success None, w')
    /\ now w' = now w + 930000
    /\ quiet w w'
    /\ countLog "Checking database for next record..." (logs w')
       = (countLog "Checking database for next record..." (logs w) + 6)%nat.
Proof.
  intros Hd Hf.
  destruct (retry_empty 5 0 w Hd Hf) as (w1 & E & Hn & Hq & Hc).
  unfold WebsiteScraper.fetchNextRecord, catchTag, retry.
  change (recurrences emptyBacklogPolicy) with (Some 5%nat). cbv beta iota.
  rewrite E. cbn [isNoMoreRecords].
  unfold bind, log, logLine, sync, succeed.
  eexists. split; [reflexivity|].
  destruct w1; fields. split; [rewrite Hn; reflexivity|].
  split; [exact Hq|]. rewrite <- Hc. reflexivity.
Qed.

Lemma processOneRecord_empty (env : Env) (w : World) :
  deadline w = None ->
  find Db.unclaimed (placeEntry w) = None ->
  exists w',
    WebsiteScraper.processOneRecord env w = (Success {| continue := false |}, w')
    /\ now w' = now w + 930000
    /\ quiet w w'
    /\ countLog "Checking database for next record..." (logs w')
       = (countLog "Checking database for next record..." (logs w) + 6)%nat.
Proof.
  intros Hd Hf.
  unfold WebsiteScraper.processOneRecord.
  unfold bind at 1. unfold log at 1, logLine at 1, sync at 1.
  unfold bind at 1. unfold Date_now at 1.
  unfold bind at 1.
  match goal with |- context [WebsiteScraper.fetchNextRecord ?w0] =>
    destruct (fetchNextRecord_empty w0) as (w1 & E & Hn & Hq & Hc) end.
  { destruct w; exact Hd. } { destruct w; exact Hf. }
  rewrite E. unfold succeed. exists w1. split; [reflexivity|].
  destruct w; fields. split; [exact Hn|]. split; [exact Hq|]. exact Hc.
Qed.

Lemma loop_empty (env : Env) (fuel : nat) (w : World) :
  deadline w = None ->
  find Db.unclaimed (placeEntry w) = None ->
  exists w',
    loop fuel {| continue := true |} (fun state => continue state)
      (fun state => state) (fun _ => WebsiteScraper.processOneRecord env) w
      = (Pending, w')
    /\ now w' = now w + Z.of_nat fuel * 930000
    /\ quiet w w'
    /\ countLog "Checking database for next record..." (logs w')
       = (countLog "Checking database for next record..." (logs w) + 6 * fuel)%nat.
Proof.
  revert w. induction fuel as [|fuel IH]; intros w Hd Hf.
  - exists w. cbn [loop continue]. split; [reflexivity|].
    split; [lia|]. split; [repeat split|]. lia.
  - cbn [loop continue].
    destruct (processOneRecord_empty env w Hd Hf) as (w1 & E & Hn & Hq & Hc).
    unfold bind at 1. rewrite E.
    destruct Hq as (Hq1 & Hq2 & Hq3 & Hq4 & Hq5).
    destruct (IH w1) as (w2 & E2 & Hn2 & Hq' & Hc2).
    { rewrite Hq1. exact Hd. } { rewrite Hq2. exact Hf. }
    unfold map, bind. rewrite E2. exists w2. split; [reflexivity|].
    split; [lia|]. split.
    + eapply quiet_trans; [|exact Hq']. repeat split; assumption.
    + lia.
Qed.

(** C1.  On an empty backlog (no [PlaceEntry] row with a null status)
    [fetchNextRecord] queries six times, the first try and the five
    retries of the empty-backlog policy with waits of 30, 60, 120, 240
    and 480 seconds (930 seconds in all), and then succeeds with null:
    [NoMoreRecords] is caught.  [processOneRecord] answers
    [{ continue: false }].  The loop does not stop there: [Effect.loop]
    hands the loop state, not the body's answer, to [step], the state
    stays [{ continue: true }], and for every number of iterations the
    loop is still polling; on no backlog at all does the loop ever end
    with a success. *)
Theorem mainProcessingLoop_never_completes (env : Env) (w : World) :
  deadline w = None ->
  find Db.unclaimed (placeEntry w) = None ->
  (exists w1,
     WebsiteScraper.fetchNextRecord w = (Success None, w1)
     /\ now w1 = now w + 930000
     /\ countLog "Checking database for next record..." (logs w1)
        = (countLog "Checking database for next record..." (logs w) + 6)%nat)
  /\ (exists w1,
        WebsiteScraper.processOneRecord env w
          = (Success {| continue := false |}, w1))
  /\ (forall fuel, exists w',
        WebsiteScraper.mainProcessingLoop env fuel w = (Pending, w')
        /\ now w' = now w + Z.of_nat fuel * 930000
        /\ countLog "Checking database for next record..." (logs w')
           = (countLog "Checking database for next record..." (logs w) + 6 * fuel)%nat)
  /\ (forall fuel w0 r,
        fst (WebsiteScraper.mainProcessingLoop env fuel w0) <> Success r).
Proof.
  intros Hd Hf. split; [|split; [|split]].
  - destruct (fetchNextRecord_empty w Hd Hf) as (w1 & E & Hn & _ & Hc).
    exists w1. auto.
  - destruct (processOneRecord_empty env w Hd Hf) as (w1 & E & _).
    exists w1. exact E.
  - intros fuel. destruct (loop_empty env fuel w Hd Hf) as (w' & E & Hn & _ & Hc).
    exists w'. unfold WebsiteScraper.mainProcessingLoop, bind. rewrite E. auto.
  - intros fuel w0 r. unfold WebsiteScraper.mainProcessingLoop.
    unfold bind at 1.
    pose proof (@loop_constant_state World LoopState LoopState fuel {| continue := true |}
                  (fun state => continue state) (fun state => state)
                  (fun _ => WebsiteScraper.processOneRecord env) w0 eq_refl eq_refl) as H.
    destruct (loop fuel {| continue := true |} (fun state => continue state)
                (fun state => state) (fun _ => WebsiteScraper.processOneRecord env) w0)
      as [[l|e|d| |] w1]; cbn [fst] in *; try discriminate.
    exfalso. exact (H l eq_refl).
Qed.

Lemma mainProcessingLoop_never_completes_witness :
  deadline idle = None
  /\ find Db.unclaimed (placeEntry idle) = None
  /\ exists w',
       WebsiteScraper.mainProcessingLoop sampleEnv 4 idle = (Pending, w')
       /\ now w' = now idle + Z.of_nat 4 * 930000
       /\ countLog "Checking database for next record..." (logs w')
          = (countLog "Checking database for next record..." (logs idle) + 6 * 4)%nat.
Proof.
  split; [reflexivity|]. split; [reflexivity|].
  destruct (mainProcessingLoop_never_completes sampleEnv idle eq_refl eq_refl)
    as (_ & _ & H & _).
  exact (H 4%nat).
Defined.

(* ------------------------------------------------------------------ *)
(** ** The metrics reporter *)







Section Reporting.
Variable cycle : Eff World unit.
Variable header : string.
Variable snapshot : Metrics -> list LogLine.
Hypothesis cycle_spec :
  forall w, cycle w = (Success tt, set_logs (snapshot (metrics w) ++ logs w) w).
Hypothesis one_header : forall m, countLog header (snapshot m) = 1%nat.
Hypothesis no_error : forall m, countLog "Metrics logging error" (snapshot m) = 0%nat.





End Reporting.




(** The reports follow the loop: beside a loop that counts a record 45,
    90 and 135 seconds in, the reports made at 0, 30 and 60 seconds show
    0, 0 and 1 processed records. *)
Lemma reports_show_the_counters_of_their_moment :
  fst (WebsiteScraper.mainWithMetrics 20 (busyLoop 3) 3 idle) = Pending
  /\ List.map text
       (filter (fun l => String.prefix "Total Processed" (text l))
          (rev (logs (snd (WebsiteScraper.mainWithMetrics 20 (busyLoop 3) 3 idle)))))
     = ["Total Processed: 0"; "Total Processed: 0"; "Total Processed: 1"].
Proof. vm_compute. split; reflexivity. Qed.

(* ------------------------------------------------------------------ *)
(** ** Activity retries *)

Section ActivityRetry.
Context {W : Type} `{Clock W} {A : Type}.
Variable execute : nat -> Eff W A.

Lemma pause_recurs (times i : nat) (st : nat * W) :
  pause (delay (recurs times) i) st = (Success tt, st).
Proof. reflexivity. Qed.

(** Every try fails: the retrying makes all the tries it has and
    surfaces the error of the last. *)
Lemma retryFrom_all_fail (times left i n : nat) (w : W) :
  (forall attempt w0, exists e, fst (execute attempt w0) = Failure e) ->
  exists e w0 w',
    retryFrom (recurs times) left i (fun j => counted execute (S j)) (n, w)
    = (Failure e, ((n + S left)%nat, w'))
    /\ execute (S (i + left)) w0 = (Failure e, w').
Proof.
  intros Hfail. revert i n w.
  induction left as [|left IH]; intros i n w; cbn [retryFrom].
  - unfold counted. destruct (Hfail (S i) w) as (e & He).
    destruct (execute (S i) w) as [r w1] eqn:E. cbn [fst] in He. subst r.
    exists e, w, w1. rewrite Nat.add_0_r, Nat.add_1_r. split; [reflexivity|exact E].
  - unfold counted at 1. destruct (Hfail (S i) w) as (e & He).
    destruct (execute (S i) w) as [r w1] eqn:E. cbn [fst] in He. subst r.
    unfold bind. rewrite pause_recurs.
    destruct (IH (S i) (S n) w1) as (e' & w0 & w' & E' & Hlast).
    exists e', w0, w'. rewrite E'.
    replace (S n + S left)%nat with (n + S (S left))%nat by lia.
    replace (i + S left)%nat with (S i + left)%nat by lia.
    split; [reflexivity|exact Hlast].
Qed.

(** The first try to succeed is attempt [k]: the retrying stops there. *)
Lemma retryFrom_first_success (times left i n k : nat) (w : W) :
  (S i <= k <= S (i + left))%nat ->
  (forall attempt w0, (attempt < k)%nat -> exists e, fst (execute attempt w0) = Failure e) ->
  (forall w0, exists a, fst (execute k w0) = Success a) ->
  exists a w',
    retryFrom (recurs times) left i (fun j => counted execute (S j)) (n, w)
    = (Success a, ((n + (k - i))%nat, w')).
Proof.
  intros Hk Hfail Hok. revert i n w Hk.
  induction left as [|left IH]; intros i n w Hk; cbn [retryFrom].
  - assert (k = S i) by lia. subst k. unfold counted.
    destruct (Hok w) as (a & Ha).
    destruct (execute (S i) w) as [r w1]. cbn [fst] in Ha. subst r.
    exists a, w1. replace (S i - i)%nat with 1%nat by lia.
    rewrite Nat.add_1_r. reflexivity.
  - destruct (Nat.eq_dec k (S i)) as [->|Hne].
    + unfold counted. destruct (Hok w) as (a & Ha).
      destruct (execute (S i) w) as [r w1]. cbn [fst] in Ha. subst r.
      exists a, w1. replace (S i - i)%nat with 1%nat by lia.
      rewrite Nat.add_1_r. reflexivity.
    + unfold counted at 1. destruct (Hfail (S i) w) as (e & He); [lia|].
      destruct (execute (S i) w) as [r w1]. cbn [fst] in He. subst r.
      unfold bind. rewrite pause_recurs.
      destruct (IH (S i) (S n) w1) as (a & w' & E'); [lia|].
      exists a, w'. rewrite E'.
      replace (S n + (k - S i))%nat with (n + (k - i))%nat by lia.
      reflexivity.
Qed.
End ActivityRetry.

(** C6 (amended).  [Activity.retry({ times: N })] allows [N] retries
    after the first try.  When the operation fails on every try the
    activity fails after exactly [N + 1] attempts, with the error of the
    last attempt, and makes no further attempt; when the first try to
    succeed is the [k]-th, [k <= N + 1], the activity succeeds on attempt
    [k].  [ScrapeWebsite] is configured with [times: 1] and [syncCrm]
    with [times: 3]. *)
Theorem activity_attempts_are_times_plus_one
    (W : Type) (clock : Clock W) (A : Type) (times : nat)
    (execute : nat -> Eff W A) :
  ((forall attempt w0, exists e, fst (execute attempt w0) = Failure e) ->
   forall w, exists e w0 w',
     Activity.retry times (counted execute) (0%nat, w)
     = (Failure e, (S times, w'))
     /\ execute (S times) w0 = (Failure e, w'))
  /\ (forall k,
        (1 <= k <= S times)%nat ->
        (forall attempt w0, (attempt < k)%nat ->
                            exists e, fst (execute attempt w0) = Failure e) ->
        (forall w0, exists a, fst (execute k w0) = Success a) ->
        forall w, exists a w',
          Activity.retry times (counted execute) (0%nat, w)
          = (Success a, (k, w')))
  /\ ScrapeWebsite.times = 1%nat
  /\ SyncCrm.times = 3%nat
  /\ (forall env payload,
        ScrapeWebsite.scrapeWebsite env payload
        = Workflow.withCompensation
            (Activity.retry ScrapeWebsite.times (ScrapeWebsite.execute env payload))
            ScrapeWebsite.compensation)
  /\ (forall pageInteraction payload,
        SyncCrm.syncCrm pageInteraction payload
        = Workflow.withCompensation
            (Activity.retry SyncCrm.times
               (fun attempt =>
                  mapError SyncCrm.errorHandler
                    (tapError
                       (fun e w => snd (logLine LogError "Activity failed with error" None w))
                       (pageInteraction (SyncCrmplaceDetailWorkflow.id payload) attempt))))
            SyncCrm.compensation).
Proof.
  split; [|split; [|repeat split]].
  - intros Hfail w. unfold Activity.retry.
    destruct (@retryFrom_all_fail W clock A execute times times 0%nat 0%nat w Hfail)
      as (e & w0 & w' & E & Hlast).
    exists e, w0, w'. split; [exact E | exact Hlast].
  - intros k Hk Hfail Hok w. unfold Activity.retry.
    destruct (@retryFrom_first_success W clock A execute times times 0%nat 0%nat k w)
      as (a & w' & E); [lia | exact Hfail | exact Hok |].
    exists a, w'. rewrite E. rewrite Nat.sub_0_r. reflexivity.
Qed.

Lemma activity_attempts_are_times_plus_one_witness :
  (exists e w0 w',
        Activity.retry SyncCrm.times (counted alwaysDown) (0%nat, idle)
        = (Failure e, (S SyncCrm.times, w'))
        /\ alwaysDown (S SyncCrm.times) w0 = (Failure e, w'))
  /\ (exists a w',
        Activity.retry SyncCrm.times (counted upOnSecondTry) (0%nat, idle)
        = (Success a, (2%nat, w'))).
Proof.
  split.
  - apply (proj1 (@activity_attempts_are_times_plus_one World World_Clock unit
                    SyncCrm.times alwaysDown)).
    intros attempt w0. eexists. reflexivity.
  - apply (proj1 (proj2 (@activity_attempts_are_times_plus_one World World_Clock unit
                    SyncCrm.times upOnSecondTry))
             2%nat).
    + unfold SyncCrm.times. lia.
    + intros attempt w0 Hlt. unfold upOnSecondTry.
      destruct attempt as [|[|attempt]]; [eexists; reflexivity .. | lia].
    + intros w0. eexists. reflexivity.
Defined.

(** C6 as stated fails: [ScrapeWebsite] has [times: 1], and when no page
    ever loads its operation is attempted twice before the activity
    fails, not once. *)
Lemma scrapeWebsite_is_attempted_twice :
  ScrapeWebsite.times = 1%nat
  /\ fst (Activity.retry ScrapeWebsite.times
            (counted (ScrapeWebsite.execute offlineEnv samplePayload))
            (0%nat, idle))
     = Failure (ScrapeWebsiteError "net::ERR_NAME_NOT_RESOLVED")
  /\ fst (snd (Activity.retry ScrapeWebsite.times
                 (counted (ScrapeWebsite.execute offlineEnv samplePayload))
                 (0%nat, idle)))
     = 2%nat.
Proof. vm_compute. repeat split. Qed.

(* ------------------------------------------------------------------ *)
(** ** The browser services *)

(** Symbolic execution of the services: the runtime's combinators and the
    services' definitions are unfolded, arithmetic is left alone. *)
Ltac exec :=
  cbv beta iota zeta delta
    [bind map succeed fail die sync catchAll catchTag mapError tapError orDie
     ignore coerce retry retryFrom pause delay recurrences sleep World_Clock
     Pair_Clock uninterruptible promise tryPromise logLine log lift
     addFinalizer acquireRelease closeScope isSuccess scoped
     BrowserService.getContext BrowserService.getBrowserAgent
     BrowserService.withPermits BrowserService.permitsOf BrowserService.setPermits
     BrowserService.browser_newContext BrowserService.context_close
     BrowserService.persistSession BrowserService.agent_start
     BrowserService.agent_stop BrowserService.nextHandle BrowserService.record
     BrowserService.setLive
     now deadline placeEntry company metrics logs browser
     contextPermits agentPermits opened live events
     set_now set_deadline set_placeEntry set_company set_metrics set_logs
     set_browser fst snd].

(** A creation that is rejected: the call dies with the rejection, after
    that one attempt; the permit is back and nothing is registered. *)
Lemma getContext_rejected (env : Env) (hook : option (nat -> Eff World unit))
    (fs : Scope) (w : World) (reason : string) :
  (1 <= contextPermits (browser w))%nat ->
  settled (newContext env (opened (browser w))) = Rejected reason ->
  exists w',
    BrowserService.getContext env hook (fs, w) = (Die reason, (fs, w'))
    /\ opened (browser w') = S (opened (browser w))
    /\ contextPermits (browser w') = contextPermits (browser w)
    /\ live (browser w') = live (browser w)
    /\ events (browser w') = events (browser w).
Proof.
  intros Hp Hr. destruct w as [t dl pes cos m lg [cp ap op lv ev]].
  cbn [browser contextPermits opened live events] in *.
  exec. change (0 <=? 0) with true.
  destruct (Nat.ltb_spec cp 1) as [|_]; [lia|].
  unfold elapse. exec. rewrite Hr. exec.
  eexists. split; [reflexivity|]. exec. repeat split. lia.
Qed.

Lemma getBrowserAgent_rejected (env : Env) (fs : Scope) (w : World)
    (reason : string) :
  (1 <= agentPermits (browser w))%nat ->
  settled (startBrowserAgent env (opened (browser w))) = Rejected reason ->
  exists w',
    BrowserService.getBrowserAgent env (fs, w) = (Die reason, (fs, w'))
    /\ opened (browser w') = S (opened (browser w))
    /\ agentPermits (browser w') = agentPermits (browser w)
    /\ live (browser w') = live (browser w)
    /\ events (browser w') = events (browser w).
Proof.
  intros Hp Hr. destruct w as [t dl pes cos m lg [cp ap op lv ev]].
  cbn [browser agentPermits opened live events] in *.
  exec. change (0 <=? 0) with true.
  destruct (Nat.ltb_spec ap 1) as [|_]; [lia|].
  unfold elapse. exec. rewrite Hr. exec.
  eexists. split; [reflexivity|]. exec. repeat split. lia.
Qed.

(** A creation that resolves: the handle is live, its release is
    registered in the caller's scope, and the permit is back already. *)
Lemma getContext_resolved (env : Env) (hook : option (nat -> Eff World unit))
    (fs : Scope) (w : World) :
  (1 <= contextPermits (browser w))%nat ->
  settled (newContext env (opened (browser w))) = Resolved tt ->
  exists release w',
    BrowserService.getContext env hook (fs, w)
    = (Success (opened (browser w)), (release :: fs, w'))
    /\ opened (browser w') = S (opened (browser w))
    /\ contextPermits (browser w') = contextPermits (browser w)
    /\ live (browser w') = opened (browser w) :: live (browser w)
    /\ events (browser w') = NewContext (opened (browser w)) :: events (browser w).
Proof.
  intros Hp Hr. destruct w as [t dl pes cos m lg [cp ap op lv ev]].
  cbn [browser contextPermits opened live events] in *.
  exec. change (0 <=? 0) with true.
  destruct (Nat.ltb_spec cp 1) as [|_]; [lia|].
  unfold elapse. exec. rewrite Hr. exec.
  eexists. eexists. split; [reflexivity|]. exec. repeat split. lia.
Qed.




(** The release itself guards nothing: a hook that dies keeps the
    context from being closed. *)
Lemma release_is_skipped_when_the_hook_dies :
  fst (scoped (h <- BrowserService.getContext sampleEnv
                      (Some (fun _ => die "hook crashed")) ;;
               lift (succeed tt)) idle)
  = Die "hook crashed"
  /\ events (browser (snd (scoped
       (h <- BrowserService.getContext sampleEnv
               (Some (fun _ => die "hook crashed")) ;;
        lift (succeed tt)) idle)))
     = [NewContext 0]
  /\ live (browser (snd (scoped
       (h <- BrowserService.getContext sampleEnv
               (Some (fun _ => die "hook crashed")) ;;
        lift (succeed tt)) idle)))
     = [0%nat].
Proof. vm_compute. repeat split. Qed.

(** The contexts a caller holds are not bounded by the semaphore: the
    permit is given back as soon as the context is created. *)
Lemma acquireAll_holds_every_context (env : Env) (n : nat) (fs : Scope)
    (w : World) :
  (1 <= contextPermits (browser w))%nat ->
  (forall c, settled (newContext env c) = Resolved tt) ->
  exists cs fs' w',
    acquireAll env n (fs, w) = (Success cs, (fs', w'))
    /\ List.length (live (browser w')) = (List.length (live (browser w)) + n)%nat
    /\ List.length fs' = (List.length fs + n)%nat
    /\ contextPermits (browser w') = contextPermits (browser w).
Proof.
  intros Hp Hr. revert fs w Hp.
  induction n as [|n IH]; intros fs w Hp; cbn [acquireAll].
  - exists [], fs, w. unfold succeed. repeat split; lia.
  - destruct (getContext_resolved env None fs w Hp (Hr _))
      as (release & w1 & E & Ho & Hc & Hl & He).
    unfold bind at 1. rewrite E. cbv beta iota.
    destruct (IH (release :: fs) w1) as (cs & fs' & w' & E' & Hl' & Hf' & Hc').
    { rewrite Hc. exact Hp. }
    unfold bind at 1. change (list Finalizer) with Scope. rewrite E'. unfold succeed.
    eexists _, fs', w'. split; [reflexivity|].
    rewrite Hl', Hf', Hc', Hl, Hc. cbn [List.length]. repeat split; lia.
Qed.

(** C4.  Each acquisition takes one permit of the service's semaphore of
    10, and a caller that finds no permit is parked.  The permit is held
    only while the sub-resource is being created, not while the handle
    lives: a caller that acquires [n] contexts in a scope holds [n] live
    contexts, with every permit back in the pool, for any [n]; with 11
    the bound of 10 is exceeded. *)
Theorem live_contexts_are_not_bounded (env : Env) (n : nat) (w : World) :
  contextPermits (browser w) = 10%nat ->
  live (browser w) = [] ->
  (forall c, settled (newContext env c) = Resolved tt) ->
  (forall hook fs w0,
     contextPermits (browser w0) = 0%nat ->
     fst (BrowserService.getContext env hook (fs, w0)) = Pending)
  /\ exists cs fs' w',
       acquireAll env n ([], w) = (Success cs, (fs', w'))
       /\ List.length (live (browser w')) = n
       /\ List.length fs' = n
       /\ contextPermits (browser w') = 10%nat.
Proof.
  intros Hp Hl Hr. split.
  - intros hook fs w0 H0. destruct w0 as [t dl pes cos m lg [cp ap op lv ev]].
    cbn [browser contextPermits] in H0. subst cp. reflexivity.
  - destruct (acquireAll_holds_every_context env n [] w) as (cs & fs' & w' & E & H1 & H2 & H3).
    { rewrite Hp. lia. } { exact Hr. }
    exists cs, fs', w'. rewrite Hl in H1. rewrite Hp in H3. cbn [List.length] in *.
    repeat split; assumption.
Qed.

Lemma live_contexts_are_not_bounded_witness :
  contextPermits (browser idle) = 10%nat
  /\ live (browser idle) = []
  /\ exists cs fs' w',
       acquireAll sampleEnv 11 ([], idle) = (Success cs, (fs', w'))
       /\ List.length (live (browser w')) = 11%nat
       /\ List.length fs' = 11%nat
       /\ contextPermits (browser w') = 10%nat.
Proof.
  split; [reflexivity|]. split; [reflexivity|].
  exact (proj2 (live_contexts_are_not_bounded sampleEnv 11 idle eq_refl eq_refl
                  (fun _ => eq_refl))).
Defined.

(** C5.  The creation of the sub-resource sits in [Effect.promise]: its
    rejection is a defect, not a typed failure, and [Effect.retry] next to
    it retries typed failures only.  So a call to acquire a handle whose
    creation is rejected makes this one creation attempt ([opened] counts
    the creations begun) and dies with the rejection; the policy
    [Schedule.recurs(2)] never comes into play and the error the
    signature of [getBrowserAgent] declares is never raised.  No handle
    and no finalizer are left behind, and the permit is back. *)
Theorem acquisition_dies_at_the_first_rejection
    (env : Env) (hook : option (nat -> Eff World unit)) (fs : Scope) (w : World)
    (reason reason' : string) :
  (1 <= contextPermits (browser w))%nat ->
  (1 <= agentPermits (browser w))%nat ->
  settled (newContext env (opened (browser w))) = Rejected reason ->
  settled (startBrowserAgent env (opened (browser w))) = Rejected reason' ->
  (exists w',
     BrowserService.getContext env hook (fs, w) = (Die reason, (fs, w'))
     /\ opened (browser w') = S (opened (browser w))
     /\ contextPermits (browser w') = contextPermits (browser w)
     /\ live (browser w') = live (browser w)
     /\ events (browser w') = events (browser w))
  /\ (exists w',
        BrowserService.getBrowserAgent env (fs, w) = (Die reason', (fs, w'))
        /\ opened (browser w') = S (opened (browser w))
        /\ agentPermits (browser w') = agentPermits (browser w)
        /\ live (browser w') = live (browser w)
        /\ events (browser w') = events (browser w)).
Proof.
  intros Hc Ha Hrc Hra. split.
  - exact (getContext_rejected env hook fs w Hc Hrc).
  - exact (getBrowserAgent_rejected env fs w Ha Hra).
Qed.

Lemma acquisition_dies_at_the_first_rejection_witness :
  exists w1 w2,
    BrowserService.getContext brokenBrowserEnv None ([], idle)
    = (Die "browser has been closed", ([], w1))
    /\ opened (browser w1) = 1%nat
    /\ BrowserService.getBrowserAgent brokenBrowserEnv ([], idle)
       = (Die "browser has been closed", ([], w2))
    /\ opened (browser w2) = 1%nat.
Proof.
  destruct (@acquisition_dies_at_the_first_rejection brokenBrowserEnv None [] idle
              "browser has been closed" "browser has been closed"
              ltac:(cbn; lia) ltac:(cbn; lia) eq_refl eq_refl)
    as [(w1 & E1 & H1 & _) (w2 & E2 & H2 & _)].
  exists w1, w2. repeat split; assumption.
Defined.

(* ------------------------------------------------------------------ *)
(** ** One iteration of a runner *)

(** Symbolic execution of an iteration up to the workflow call. *)
Ltac run :=
  cbv beta iota zeta delta
    [bind map succeed fail die sync catchAll catchTag mapError tapError orDie
     ignore coerce retry retryFrom pause delay recurrences sleep World_Clock
     logLine log Date_now
     Metric_increment processingDuration_record
     emptyBacklogPolicy isNoMoreRecords isTimeoutException
     Db.placeEntry_findFirst Db.placeEntry_update Db.company_findFirst
     Db.company_delete Db.company_createCrmSyncEvent
     SyncCrmRunner.processOneRecord SyncCrmRunner.processClaimed
     SyncCrmRunner.fetchNextRecord SyncCrmRunner.queryNext
     WebsiteScraper.processOneRecord WebsiteScraper.processClaimed
     WebsiteScraper.runWorkflow
     WebsiteScraper.fetchNextRecord WebsiteScraper.queryNext
     now deadline placeEntry company metrics logs browser
     set_now set_deadline set_placeEntry set_company set_metrics set_logs
     set_browser fst snd].

Lemma find_existsb {R} (f g : R -> bool) (l : list R) (x : R) :
  find f l = Some x -> g x = true -> existsb g l = true.
Proof.
  intros Hf Hg. apply find_some in Hf. apply existsb_exists.
  exists x. split; [apply Hf | exact Hg].
Qed.

Lemma updateFirst_sets {R} (p : R -> bool) (f : R -> R) (l : list R) :
  existsb p l = true ->
  exists x, In x l /\ p x = true /\ In (f x) (Db.updateFirst p f l).
Proof.
  induction l as [|r l IH]; cbn [existsb Db.updateFirst]; [discriminate|].
  destruct (p r) eqn:E; cbn [orb].
  - intros _. exists r. split; [left; reflexivity|]. split; [exact E | left; reflexivity].
  - intros H. destruct (IH H) as (x & Hin & Hp & Hup).
    exists x. split; [right; exact Hin|]. split; [exact Hp | right; exact Hup].
Qed.

Lemma deleteFirst_length {R} (p : R -> bool) (l : list R) :
  existsb p l = true ->
  S (List.length (Db.deleteFirst p l)) = List.length l.
Proof.
  induction l as [|r l IH]; cbn [existsb Db.deleteFirst]; [discriminate|].
  destruct (p r); cbn [orb List.length]; [reflexivity|].
  intros H. rewrite (IH H). reflexivity.
Qed.

(** C8.  In the CRM-sync loop a claimed company whose [servicesOffered]
    list is empty is disqualified: [recordsSkipped] (and
    [recordsProcessed]) go up by one, [recordsFailed] and
    [recordsTimedOut] do not, the company row is deleted, the
    [PlaceEntry] row it was derived from (same name and URL) has its
    status set back to null, one duration sample is recorded, the
    iteration answers [{ continue: true }] after the 3-second pause, and
    the workflow is not invoked: the iteration is the same whatever the
    workflow's activity would do, the browser is not used and no
    compensation is logged. *)
Theorem disqualified_record_is_skipped
    (pageInteraction : string -> nat -> Eff World unit) (w : World)
    (record : Company.t) :
  deadline w = None ->
  find Db.syncable (company w) = Some record ->
  Company.servicesOffered record = [] ->
  existsb (originOf record) (placeEntry w) = true ->
  exists w',
    SyncCrmRunner.processOneRecord pageInteraction w
    = (Success {| continue := true |}, w')
    /\ recordsSkipped (metrics w') = recordsSkipped (metrics w) + 1
    /\ recordsProcessed (metrics w') = recordsProcessed (metrics w) + 1
    /\ recordsFailed (metrics w') = recordsFailed (metrics w)
    /\ recordsTimedOut (metrics w') = recordsTimedOut (metrics w)
    /\ processingDuration (metrics w') = 0 :: processingDuration (metrics w)
    /\ company w' = Db.deleteFirst (Db.hasId (Company.id record)) (company w)
    /\ S (List.length (company w')) = List.length (company w)
    /\ placeEntry w'
       = Db.updateFirst (originOf record) (PlaceEntry.withStatus None) (placeEntry w)
    /\ (exists origin,
          In origin (placeEntry w) /\ originOf record origin = true
          /\ In (PlaceEntry.withStatus None origin) (placeEntry w'))
    /\ browser w' = browser w
    /\ now w' = now w + 3000
    /\ logs w'
       = [ line "Record processed successfully";
           line "Skipped record processed";
           line "Record has no services, deleting...";
           {| level := LogInfo; text := "Found record to process";
              about := Some (Company.id record) |};
           line "Checking database for next record...";
           line "Starting new iteration" ] ++ logs w
    /\ forall other,
         SyncCrmRunner.processOneRecord other w
         = SyncCrmRunner.processOneRecord pageInteraction w.
Proof.
  intros Hd Hf Hs Ho.
  assert (He : existsb (Db.hasId (Company.id record)) (company w) = true).
  { apply (find_existsb _ _ _ Hf). unfold Db.hasId. apply String.eqb_refl. }
  destruct w as [t dl pes cos m lg b]. fields. subst dl.
  assert (E : forall pi,
    SyncCrmRunner.processOneRecord pi
      {| now := t; deadline := None; placeEntry := pes; company := cos;
         metrics := m; logs := lg; browser := b |}
    = (Success {| continue := true |},
       {| now := t + 3000; deadline := None;
          placeEntry := Db.updateFirst (originOf record) (PlaceEntry.withStatus None) pes;
          company := Db.deleteFirst (Db.hasId (Company.id record)) cos;
          metrics := observe 0 (bump RecordsSkipped (bump RecordsProcessed m));
          logs := [ line "Record processed successfully";
                    line "Skipped record processed";
                    line "Record has no services, deleting...";
                    {| level := LogInfo; text := "Found record to process";
                       about := Some (Company.id record) |};
                    line "Checking database for next record...";
                    line "Starting new iteration" ] ++ lg;
          browser := b |})).
  { intros pi. run. rewrite Hf. run. rewrite Hs. run. rewrite He. run.
    change (fun r : PlaceEntry.t =>
              (PlaceEntry.name r =? Company.name record)%string
              && (PlaceEntry.url r =? Company.websiteUrl record)%string)
      with (originOf record).
    rewrite Ho. run. unfold elapse. run. rewrite Z.sub_diag. reflexivity. }
  eexists. split; [apply E|]. fields. destruct m; cbn [observe bump recordsSkipped
    recordsProcessed recordsFailed recordsTimedOut processingDuration].
  repeat split.
  - apply deleteFirst_length. exact He.
  - apply updateFirst_sets. exact Ho.
  - intros other. rewrite !E. reflexivity.
Qed.

Lemma disqualified_record_is_skipped_witness :
  deadline crmBacklog = None
  /\ find Db.syncable (company crmBacklog) = Some emptyCompany
  /\ Company.servicesOffered emptyCompany = []
  /\ existsb (originOf emptyCompany) (placeEntry crmBacklog) = true
  /\ exists w',
       SyncCrmRunner.processOneRecord (fun _ => alwaysDown) crmBacklog
       = (Success {| continue := true |}, w')
       /\ recordsSkipped (metrics w') = 1
       /\ company w' = []
       /\ statuses w' = [("1", None)].
Proof.
  repeat (split; [reflexivity|]).
  destruct (disqualified_record_is_skipped (fun _ => alwaysDown) crmBacklog
              eq_refl eq_refl eq_refl eq_refl)
    as (w' & E & Hs & _ & _ & _ & _ & Hc & _ & Hp & _).
  exists w'. split; [exact E|]. split; [exact Hs|]. split; [exact Hc|].
  unfold statuses. rewrite Hp. reflexivity.
Defined.

(* ------------------------------------------------------------------ *)
(** ** The website scraper: a workflow that times out *)

Lemma timed_out_iteration (env : Env) (w : World) (record : PlaceEntry.t) :
  deadline w = None ->
  find Db.unclaimed (placeEntry w) = Some record ->
  (forall w1, sameRun w w1 ->
     fst (timeout 300000
            (ScrapeWebsite.PlaceWebsiteScraperWorkflow_execute env
               (WebsiteScraper.payloadOf record)) w1)
     = Failure TimeoutException) ->
  exists w',
    WebsiteScraper.processOneRecord env w = (Success {| continue := true |}, w')
    /\ recordsProcessed (metrics w') = recordsProcessed (metrics w) + 1
    /\ recordsFailed (metrics w') = recordsFailed (metrics w) + 1
    /\ recordsTimedOut (metrics w') = recordsTimedOut (metrics w) + 1
    /\ recordsSkipped (metrics w') = recordsSkipped (metrics w)
    /\ (exists d, processingDuration (metrics w') = d :: processingDuration (metrics w))
    /\ placeEntry w' = placeEntry w
    /\ deadline w' = None.
Proof.
  intros Hd Hf Ht.
  destruct w as [t dl pes cos m lg b]. fields. subst dl.
  run. rewrite Hf. run.
  match goal with |- context [timeout 300000 ?wf ?w1] =>
    pose proof (Ht w1 ltac:(repeat split)) as Hr;
    pose proof (keeps_timeout 300000
                  (keeps_workflow env (WebsiteScraper.payloadOf record)) w1) as Hu;
    pose proof (timeout_restores_deadline 300000 wf w1) as Hdl;
    destruct (timeout 300000 wf w1) as [r w2]
  end.
  cbn [fst snd] in Hr, Hu, Hdl. subst r.
  destruct w2 as [t2 dl2 pes2 cos2 m2 lg2 b2].
  destruct Hu as [Hu1 Hu2]. fields. subst dl2 pes2 m2.
  run. unfold elapse. run.
  eexists. split; [reflexivity|]. destruct m. cbn. repeat split. eexists. reflexivity.
Qed.

(** C2 (amended).  When the workflow of a claimed record exceeds the
    5-minute timeout, the iteration treats the outcome as null:
    [recordsFailed] and [recordsTimedOut] (and [recordsProcessed]) go up
    by one, no status is written (the backlog is unchanged, so the row is
    still unclaimed), one duration sample is recorded and the iteration
    answers [{ continue: true }].  In the three-record scenario the
    counters after the third iteration are [recordsProcessed = 3],
    [recordsFailed = 1], [recordsTimedOut = 1], rows 1 and 2 have
    [status = true] and row 3 is unchanged; the fourth iteration claims
    row 3 again. *)
Theorem timed_out_record_is_left_unclaimed :
  (forall (env : Env) (w : World) (record : PlaceEntry.t),
     deadline w = None ->
     find Db.unclaimed (placeEntry w) = Some record ->
     (forall w1, sameRun w w1 ->
        fst (timeout 300000
               (ScrapeWebsite.PlaceWebsiteScraperWorkflow_execute env
                  (WebsiteScraper.payloadOf record)) w1)
        = Failure TimeoutException) ->
     exists w',
       WebsiteScraper.processOneRecord env w = (Success {| continue := true |}, w')
       /\ recordsProcessed (metrics w') = recordsProcessed (metrics w) + 1
       /\ recordsFailed (metrics w') = recordsFailed (metrics w) + 1
       /\ recordsTimedOut (metrics w') = recordsTimedOut (metrics w) + 1
       /\ recordsSkipped (metrics w') = recordsSkipped (metrics w)
       /\ (exists d, processingDuration (metrics w')
                     = d :: processingDuration (metrics w))
       /\ placeEntry w' = placeEntry w
       /\ find Db.unclaimed (placeEntry w') = Some record)
  /\ (let w3 := snd (WebsiteScraper.mainProcessingLoop sampleEnv 3 threeRecords) in
      recordsProcessed (metrics w3) = 3
      /\ recordsFailed (metrics w3) = 1
      /\ recordsTimedOut (metrics w3) = 1
      /\ List.length (processingDuration (metrics w3)) = 3%nat
      /\ statuses w3 = [("1", Some true); ("2", Some true); ("3", None)]
      /\ statuses threeRecords = [("1", None); ("2", None); ("3", None)]
      /\ fst (WebsiteScraper.fetchNextRecord w3) = Success (Some (entry "3" "http://slow"))).
Proof.
  split.
  - intros env w record Hd Hf Ht.
    destruct (@timed_out_iteration env w record Hd Hf Ht)
      as (w' & E & H1 & H2 & H3 & H4 & H5 & H6 & _).
    exists w'. rewrite H6. repeat split; assumption.
  - vm_compute. repeat split.
Qed.

Lemma slow_site_times_out (w1 : World) :
  sameRun slowRecordOnly w1 ->
  fst (timeout 300000
         (ScrapeWebsite.PlaceWebsiteScraperWorkflow_execute sampleEnv
            (WebsiteScraper.payloadOf (entry "3" "http://slow"))) w1)
  = Failure TimeoutException.
Proof.
  intros (Hn & Hd & Hc & Hb). destruct w1 as [t dl pes cos m lg b].
  fields. subst t dl cos b. vm_compute. reflexivity.
Defined.

Lemma timed_out_record_is_left_unclaimed_witness :
  deadline slowRecordOnly = None
  /\ find Db.unclaimed (placeEntry slowRecordOnly) = Some (entry "3" "http://slow")
  /\ exists w',
       WebsiteScraper.processOneRecord sampleEnv slowRecordOnly
       = (Success {| continue := true |}, w')
       /\ recordsProcessed (metrics w') = recordsProcessed (metrics slowRecordOnly) + 1
       /\ recordsFailed (metrics w') = recordsFailed (metrics slowRecordOnly) + 1
       /\ recordsTimedOut (metrics w') = recordsTimedOut (metrics slowRecordOnly) + 1
       /\ recordsSkipped (metrics w') = recordsSkipped (metrics slowRecordOnly)
       /\ (exists d, processingDuration (metrics w')
                     = d :: processingDuration (metrics slowRecordOnly))
       /\ placeEntry w' = placeEntry slowRecordOnly
       /\ find Db.unclaimed (placeEntry w') = Some (entry "3" "http://slow").
Proof.
  split; [reflexivity|]. split; [reflexivity|].
  exact (proj1 timed_out_record_is_left_unclaimed sampleEnv slowRecordOnly
           (entry "3" "http://slow") eq_refl eq_refl slow_site_times_out).
Defined.

(** C2 as stated fails: the counters of the three-record scenario are
    not final after the third record.  Row 3 is still unclaimed, the next
    iteration claims it again, and [recordsProcessed] is 4. *)
Lemma scenario_counters_are_not_final :
  ~ (forall n, (3 <= n)%nat ->
       recordsProcessed
         (metrics (snd (WebsiteScraper.mainProcessingLoop sampleEnv n threeRecords)))
       = 3).
Proof.
  intros H. specialize (H 4%nat ltac:(lia)). vm_compute in H. discriminate H.
Qed.

(* ------------------------------------------------------------------ *)
(** ** The website scraper: an activity that returns early *)

Ltac sim :=
  cbv beta iota zeta delta
    [bind map succeed fail die sync catchAll catchTag mapError tapError orDie
     ignore coerce retry retryFrom pause delay recurrences sleep World_Clock
     Pair_Clock uninterruptible promise tryPromise logLine log lift
     addFinalizer acquireRelease closeScope isSuccess scoped Date_now
     timeout elapse
     ScrapeWebsite.execute
     ScrapeWebsite.withDefaults ScrapeWebsite.rejected ScrapeWebsite.errorHandler
     PlaceWebsiteScraperWorkflow.id PlaceWebsiteScraperWorkflow.name
     PlaceWebsiteScraperWorkflow.url PlaceWebsiteScraperWorkflow.address
     PlaceWebsiteScraperWorkflow.phone PlaceWebsiteScraperWorkflow.location
     Extracted.emailAddress Extracted.telephoneNumber Extracted.address
     Extracted.servicesOffered
     BrowserService.getBrowserAgent
     BrowserService.withPermits BrowserService.permitsOf BrowserService.setPermits
     BrowserService.agent_start
     BrowserService.agent_stop BrowserService.nextHandle BrowserService.record
     BrowserService.setLive
     now deadline placeEntry company metrics logs browser
     contextPermits agentPermits opened live events
     set_now set_deadline set_placeEntry set_company set_metrics set_logs
     set_browser fst snd].

Ltac clock :=
  repeat match goal with
  | |- context [Z.ltb ?a ?b] =>
      first [ rewrite (proj2 (Z.ltb_ge a b)) by lia
            | rewrite (proj2 (Z.ltb_lt a b)) by lia ]
  end.


Ltac unwrap :=
  cbv beta iota zeta delta
    [bind map succeed fail die sync catchAll catchTag mapError tapError orDie
     ignore coerce retry retryFrom pause delay recurrences sleep World_Clock
     Pair_Clock uninterruptible logLine log lift
     addFinalizer closeScope isSuccess scoped timeout
     ScrapeWebsite.PlaceWebsiteScraperWorkflow_execute ScrapeWebsite.scrapeWebsite
     ScrapeWebsite.times ScrapeWebsite.compensation
     Workflow.execute Workflow.withCompensation Activity.retry
     now deadline placeEntry company metrics logs browser
     set_now set_deadline set_placeEntry set_company set_metrics set_logs
     set_browser fst snd].






(* ================================================================== *)
(** * Idempotency keys *)

Lemma append_cancel (prefix s1 s2 : string) :
  String.append prefix s1 = String.append prefix s2 -> s1 = s2.
Proof.
  induction prefix as [|c prefix IH]; cbn [String.append]; intros H.
  - exact H.
  - injection H as H. exact (IH H).
Qed.

Section Calendar.
Import Date.

Lemma yearFrom_year (fuel : nat) (y day : Z) :
y <= fst (yearFrom fuel y day) <= y + Z.of_nat fuel.
Proof.
revert y day. induction fuel as [|fuel IH]; intros y day; cbn [yearFrom].
- cbn [fst]. lia.
- destruct (day <? daysInYear y); cbn [fst]; [lia|].
  specialize (IH (y + 1) (day - daysInYear y)). lia.
Qed.

(** Two day numbers walked to the same year and day of the year are the
  same day number. *)
Lemma yearFrom_inj (fuel : nat) (y d1 d2 : Z) :
yearFrom fuel y d1 = yearFrom fuel y d2 -> d1 = d2.
Proof.
revert y d1 d2. induction fuel as [|fuel IH]; intros y d1 d2; cbn [yearFrom].
- intros H. injection H as H. exact H.
- destruct (d1 <? daysInYear y) eqn:E1, (d2 <? daysInYear y) eqn:E2; intros H.
  + injection H as H. exact H.
  + pose proof (yearFrom_year fuel (y + 1) (d2 - daysInYear y)) as G.
    rewrite <- H in G. cbn [fst] in G. lia.
  + pose proof (yearFrom_year fuel (y + 1) (d1 - daysInYear y)) as G.
    rewrite H in G. cbn [fst] in G. lia.
  + apply IH in H. lia.
Qed.

Lemma daysInYear_bounds (y : Z) : 365 <= daysInYear y <= 366.
Proof. unfold daysInYear. destruct (isLeapYear y); lia. Qed.

Lemma yearFrom_finishes (fuel : nat) (y day : Z) :
0 <= day < 365 * Z.of_nat fuel ->
0 <= snd (yearFrom fuel y day) < daysInYear (fst (yearFrom fuel y day)).
Proof.
revert y day. induction fuel as [|fuel IH]; intros y day H; cbn [yearFrom].
- lia.
- destruct (Z.ltb_spec day (daysInYear y)); cbn [fst snd]; [lia|].
  pose proof (daysInYear_bounds y). apply IH. lia.
Qed.

Lemma monthFrom_month (l : list Z) (m day : Z) :
m <= fst (monthFrom l m day) <= m + Z.of_nat (List.length l).
Proof.
revert m day.
induction l as [|len l IH]; intros m day; cbn [monthFrom List.length].
- cbn [fst]. lia.
- destruct (day <? len); cbn [fst]; [lia|].
  specialize (IH (m + 1) (day - len)). lia.
Qed.

Lemma monthFrom_inj (l : list Z) (m d1 d2 : Z) :
monthFrom l m d1 = monthFrom l m d2 -> d1 = d2.
Proof.
revert m d1 d2. induction l as [|len l IH]; intros m d1 d2; cbn [monthFrom].
- intros H. injection H as H. exact H.
- destruct (d1 <? len) eqn:E1, (d2 <? len) eqn:E2; intros H.
  + injection H as H. exact H.
  + pose proof (monthFrom_month l (m + 1) (d2 - len)) as G.
    rewrite <- H in G. cbn [fst] in G. lia.
  + pose proof (monthFrom_month l (m + 1) (d1 - len)) as G.
    rewrite H in G. cbn [fst] in G. lia.
  + apply IH in H. lia.
Qed.

Lemma monthFrom_finishes (l : list Z) (m day : Z) :
Forall (fun len => 0 < len <= 31) l ->
0 <= day < fold_right Z.add 0 l ->
0 <= snd (monthFrom l m day) < 31.
Proof.
revert m day.
induction l as [|len l IH]; intros m day Hl H; cbn [monthFrom fold_right] in *.
- lia.
- inversion Hl as [|? ? Hlen Hrest]; subst.
  destruct (Z.ltb_spec day len); cbn [snd]; [lia|].
  apply IH; [exact Hrest | lia].
Qed.

Lemma monthLengths_sum (y : Z) :
fold_right Z.add 0 (monthLengths y) = daysInYear y.
Proof. unfold monthLengths, daysInYear. destruct (isLeapYear y); reflexivity. Qed.

Lemma monthLengths_days (y : Z) :
Forall (fun len => 0 < len <= 31) (monthLengths y).
Proof. unfold monthLengths. destruct (isLeapYear y); repeat constructor; lia. Qed.

(** The calendar date determines the day number. *)
Lemma civil_inj (a b : Z) : civil a = civil b -> a = b.
Proof.
unfold civil.
destruct (yearFrom (Z.to_nat 8036) 1970 a) as [ya da] eqn:Ea.
destruct (yearFrom (Z.to_nat 8036) 1970 b) as [yb db] eqn:Eb.
destruct (monthFrom (monthLengths ya) 1 da) as [ma ra] eqn:Fa.
destruct (monthFrom (monthLengths yb) 1 db) as [mb rb] eqn:Fb.
intros H. injection H as Hy Hm Hd. subst yb mb.
assert (ra = rb) by lia. subst rb.
rewrite <- Fb in Fa. apply monthFrom_inj in Fa. subst db.
rewrite <- Eb in Ea. apply yearFrom_inj in Ea. exact Ea.
Qed.

(** The fields of the date of a day of the four-digit years are within
  what the padding prints. *)
Lemma civil_bounds (day : Z) :
0 <= day < 2932897 ->
1970 <= fst (fst (civil day)) <= 10006
/\ 1 <= snd (fst (civil day)) <= 13
/\ 1 <= snd (civil day) <= 31.
Proof.
intros H. unfold civil.
pose proof (yearFrom_year (Z.to_nat 8036) 1970 day) as Hy.
pose proof (@yearFrom_finishes (Z.to_nat 8036) 1970 day ltac:(lia)) as Hf.
destruct (yearFrom (Z.to_nat 8036) 1970 day) as [y doy]. cbn [fst snd] in *.
pose proof (monthFrom_month (monthLengths y) 1 doy) as Hm.
pose proof (@monthFrom_finishes (monthLengths y) 1 doy (monthLengths_days y)) as Hd.
rewrite monthLengths_sum in Hd. specialize (Hd Hf).
destruct (monthFrom (monthLengths y) 1 doy) as [m dom]. cbn [fst snd] in *.
assert (Z.of_nat (List.length (monthLengths y)) = 12) by reflexivity.
lia.
Qed.

Lemma digit_inj (a b : Z) : digit a = digit b -> a mod 10 = b mod 10.
Proof.
unfold digit. intros H.
pose proof (Z.mod_pos_bound a 10 ltac:(lia)).
pose proof (Z.mod_pos_bound b 10 ltac:(lia)).
apply (f_equal nat_of_ascii) in H.
rewrite !nat_ascii_embedding in H by lia. lia.
Qed.

Lemma pad2_inj (a b : Z) (r s : string) :
0 <= a < 100 -> 0 <= b < 100 -> pad2 a r = pad2 b s -> a = b /\ r = s.
Proof.
unfold pad2. intros Ha Hb H. injection H as H1 H0 Hr.
apply digit_inj in H1, H0. split; [|exact Hr].
revert H1 H0. Z.div_mod_to_equations. lia.
Qed.

Lemma pad3_inj (a b : Z) (r s : string) :
0 <= a < 1000 -> 0 <= b < 1000 -> pad3 a r = pad3 b s -> a = b /\ r = s.
Proof.
unfold pad3, pad2. intros Ha Hb H. injection H as H2 H1 H0 Hr.
apply digit_inj in H2, H1, H0. split; [|exact Hr].
revert H2 H1 H0. Z.div_mod_to_equations. lia.
Qed.

Lemma pad4_inj (a b : Z) (r s : string) :
1970 <= a <= 10006 -> 1970 <= b <= 10006 ->
pad4 a r = pad4 b s -> a = b /\ r = s.
Proof.
unfold pad4, pad3, pad2. intros Ha Hb H. injection H as H3 H2 H1 H0 Hr.
apply digit_inj in H3, H2, H1, H0. split; [|exact Hr].
revert H3 H2 H1 H0. Z.div_mod_to_equations. lia.
Qed.

(** Within the four-digit years, the ISO form determines the time
  value. *)
Lemma toISOString_inj (t1 t2 : Z) :
fourDigitYear t1 -> fourDigitYear t2 ->
toISOString t1 = toISOString t2 -> t1 = t2.
Proof.
unfold fourDigitYear, toISOString, msPerDay. intros H1 H2.
pose proof (@civil_bounds (t1 / 86400000)
              ltac:(revert H1; Z.div_mod_to_equations; lia)) as B1.
pose proof (@civil_bounds (t2 / 86400000)
              ltac:(revert H2; Z.div_mod_to_equations; lia)) as B2.
pose proof (@civil_inj (t1 / 86400000) (t2 / 86400000)) as Hc.
destruct (civil (t1 / 86400000)) as [[y1 m1] d1].
destruct (civil (t2 / 86400000)) as [[y2 m2] d2].
cbn [fst snd] in B1, B2.
pose proof (Z.mod_pos_bound t1 86400000 ltac:(lia)) as M1.
pose proof (Z.mod_pos_bound t2 86400000 ltac:(lia)) as M2.
set (ms1 := t1 mod 86400000) in *. set (ms2 := t2 mod 86400000) in *.
intros H.
apply pad4_inj in H as [Ey H]; [|lia|lia]. apply (@append_cancel "-") in H.
apply pad2_inj in H as [Em H]; [|lia|lia]. apply (@append_cancel "-") in H.
apply pad2_inj in H as [Ed H]; [|lia|lia]. apply (@append_cancel "T") in H.
apply pad2_inj in H as [Eh H];
  [|clear - M1; Z.div_mod_to_equations; lia
   |clear - M2; Z.div_mod_to_equations; lia].
apply (@append_cancel ":") in H.
apply pad2_inj in H as [Emi H];
  [|pose proof (Z.mod_pos_bound (ms1 / 60000) 60); lia
   |pose proof (Z.mod_pos_bound (ms2 / 60000) 60); lia].
apply (@append_cancel ":") in H.
apply pad2_inj in H as [Es H];
  [|pose proof (Z.mod_pos_bound (ms1 / 1000) 60); lia
   |pose proof (Z.mod_pos_bound (ms2 / 1000) 60); lia].
apply (@append_cancel ".") in H.
apply pad3_inj in H as [Ems _];
  [|apply Z.mod_pos_bound; lia|apply Z.mod_pos_bound; lia].
assert (ms1 = ms2) as Ems'.
{ clear - M1 M2 Eh Emi Es Ems. revert Eh Emi Es Ems.
  Z.div_mod_to_equations. lia. }
assert (t1 / 86400000 = t2 / 86400000) as Eday.
{ apply Hc. congruence. }
rewrite (Z.div_mod t1 86400000), (Z.div_mod t2 86400000) by lia.
fold ms1 ms2. rewrite Eday, Ems'. reflexivity.
Qed.

End Calendar.

(** C7. Two of the three workflow definitions, PlaceWebsiteScraperWorkflow
    and SyncCrmplaceDetailWorkflow, make their idempotency key from the
    record id followed by a dash and the ISO form of the current time, so
    the same payload executed at two different times (of the four-digit
    years, where the ISO form is the 24-character one) gets two different
    keys; the third, PlacesLocatorWorkflow, uses exactly the payload's id,
    so the same payload gets the same key whenever it is executed. *)
Theorem two_of_three_idempotency_keys_carry_the_time
    (p : PlaceWebsiteScraperWorkflow.Payload)
    (q : SyncCrmplaceDetailWorkflow.Payload)
    (r : PlacesLocatorWorkflow.Payload) (t1 t2 : Z) :
  fourDigitYear t1 -> fourDigitYear t2 -> t1 <> t2 ->
  (PlaceWebsiteScraperWorkflow.idempotencyKey p t1
   = String.append (PlaceWebsiteScraperWorkflow.id p)
       (String.append "-" (Date.toISOString t1))
   /\ PlaceWebsiteScraperWorkflow.idempotencyKey p t1
      <> PlaceWebsiteScraperWorkflow.idempotencyKey p t2)
  /\ (SyncCrmplaceDetailWorkflow.idempotencyKey q t1
      = String.append (SyncCrmplaceDetailWorkflow.id q)
          (String.append "-" (Date.toISOString t1))
      /\ SyncCrmplaceDetailWorkflow.idempotencyKey q t1
         <> SyncCrmplaceDetailWorkflow.idempotencyKey q t2)
  /\ (PlacesLocatorWorkflow.idempotencyKey r t1 = PlacesLocatorWorkflow.id r
      /\ PlacesLocatorWorkflow.idempotencyKey r t1
         = PlacesLocatorWorkflow.idempotencyKey r t2).
Proof.
  intros H1 H2 Hne.
  assert (forall prefix,
            String.append prefix (String.append "-" (Date.toISOString t1))
            <> String.append prefix (String.append "-" (Date.toISOString t2)))
    as Hkeys.
  { intros prefix H. apply append_cancel in H. injection H as H.
    apply Hne. exact (toISOString_inj H1 H2 H). }
  repeat split.
  - apply Hkeys.
  - apply Hkeys.
Qed.

Lemma two_of_three_idempotency_keys_carry_the_time_witness :
  PlaceWebsiteScraperWorkflow.idempotencyKey samplePayload 1767358231123
  = "pe-1-2026-01-02T12:50:31.123Z"
  /\ PlaceWebsiteScraperWorkflow.idempotencyKey samplePayload 1767358231123
     <> PlaceWebsiteScraperWorkflow.idempotencyKey samplePayload 1767358231124.
Proof.
  pose proof (@two_of_three_idempotency_keys_carry_the_time
                samplePayload
                {| SyncCrmplaceDetailWorkflow.id := "company-1" |}
                {| PlacesLocatorWorkflow.id := "search-1";
                   PlacesLocatorWorkflow.url := "http://maps";
                   PlacesLocatorWorkflow.location := "Leeds" |}
                1767358231123 1767358231124) as H.
  destruct H as [[Hform Hne] _].
  - unfold fourDigitYear. lia.
  - unfold fourDigitYear. lia.
  - lia.
  - split; [|exact Hne]. rewrite Hform. vm_compute. reflexivity.
Defined.

(* ------------------------------------------------------------------ *)
(** ** The release of a context, when it goes wrong *)





(* ------------------------------------------------------------------ *)
(** ** The activity: a page that does not load *)

(** One attempt on a page whose load is rejected: the agent is started,
    the rejection becomes the attempt's typed failure, and the release
    stops the agent. *)
Lemma attempt_with_unloadable_page (env : Env)
    (payload : PlaceWebsiteScraperWorkflow.Payload) (attempt : nat) (w : World)
    (reason : string) :
  let url := PlaceWebsiteScraperWorkflow.url payload in
  let a := opened (browser w) in
  (1 <= agentPermits (browser w))%nat ->
  settled (startBrowserAgent env a) = Resolved tt ->
  settled (goto env url attempt) = Rejected reason ->
  settled (stopAgent env a true) = Resolved tt ->
  0 <= took (startBrowserAgent env a) ->
  0 <= took (goto env url attempt) ->
  match deadline w with
  | None => True
  | Some dl => now w + took (startBrowserAgent env a) + took (goto env url attempt) <= dl
  end ->
  exists w',
    ScrapeWebsite.execute env payload attempt w
    = (Failure (ScrapeWebsiteError reason), w')
    /\ company w' = company w
    /\ deadline w' = deadline w
    /\ now w' = now w + took (startBrowserAgent env a) + took (goto env url attempt)
                + took (stopAgent env a true)
    /\ opened (browser w') = S a
    /\ agentPermits (browser w') = agentPermits (browser w)
    /\ contextPermits (browser w') = contextPermits (browser w)
    /\ live (browser w') = BrowserService.remove a (a :: live (browser w))
    /\ events (browser w') = StopAgent a :: StartAgent a :: events (browser w).
Proof.
  intros url a Hp Hstart Hgoto Hfin HtA HtG Hsum. subst url a.
  destruct w as [t dl pes cos m lg [cp ap op lv ev]].
  destruct payload as [pid pname purl paddr pphone ploc].
  cbn [browser agentPermits opened deadline placeEntry now contextPermits live events
       PlaceWebsiteScraperWorkflow.url company] in *.
  sim.
  destruct (Nat.ltb_spec ap 1) as [|_]; [lia|].
  sim. rewrite Hstart. sim.
  destruct dl as [dl|]; cbv beta iota in Hsum.
  - clock. rewrite Hgoto. sim. rewrite Hfin. sim.
    eexists. split; [reflexivity|]. sim. repeat split; try reflexivity; lia.
  - rewrite Hgoto. sim. rewrite Hfin. sim.
    eexists. split; [reflexivity|]. sim. repeat split; try reflexivity; lia.
Qed.

(** The workflow on such a page: the attempt and its one retry. *)
Lemma workflow_with_unloadable_page (env : Env)
    (payload : PlaceWebsiteScraperWorkflow.Payload) (w : World)
    (first second : string) :
  let url := PlaceWebsiteScraperWorkflow.url payload in
  let a := opened (browser w) in
  deadline w = None ->
  (1 <= agentPermits (browser w))%nat ->
  settled (startBrowserAgent env a) = Resolved tt ->
  settled (goto env url 1) = Rejected first ->
  settled (stopAgent env a true) = Resolved tt ->
  settled (startBrowserAgent env (S a)) = Resolved tt ->
  settled (goto env url 2) = Rejected second ->
  settled (stopAgent env (S a) true) = Resolved tt ->
  0 <= took (startBrowserAgent env a) ->
  0 <= took (goto env url 1) ->
  0 <= took (stopAgent env a true) ->
  0 <= took (startBrowserAgent env (S a)) ->
  0 <= took (goto env url 2) ->
  took (startBrowserAgent env a) + took (goto env url 1)
  + took (stopAgent env a true) + took (startBrowserAgent env (S a))
  + took (goto env url 2) <= 300000 ->
  exists w',
    timeout 300000 (ScrapeWebsite.PlaceWebsiteScraperWorkflow_execute env payload) w
    = (Failure (ScrapeWebsiteError second), w')
    /\ company w' = company w
    /\ deadline w' = None
    /\ opened (browser w') = S (S a)
    /\ agentPermits (browser w') = agentPermits (browser w)
    /\ live (browser w')
       = BrowserService.remove (S a)
           (S a :: BrowserService.remove a (a :: live (browser w)))
    /\ events (browser w')
       = StopAgent (S a) :: StartAgent (S a) :: StopAgent a :: StartAgent a
         :: events (browser w).
Proof.
  intros url a Hd Hp Hs1 Hg1 Hf1 Hs2 Hg2 Hf2 Ht1 Ht2 Ht3 Ht4 Ht5 Hsum. subst url a.
  destruct w as [t dl pes cos m lg b]. fields. subst dl.
  destruct (@attempt_with_unloadable_page env payload 1
              {| now := t; deadline := Some (t + 300000); placeEntry := pes;
                 company := cos; metrics := m; logs := lg; browser := b |} first
              Hp Hs1 Hg1 Hf1 Ht1 Ht2 ltac:(fields; lia))
    as (w1 & E1 & Hc1 & Hd1 & Hn1 & Ho1 & Hp1 & _ & Hl1 & He1).
  fields.
  destruct (@attempt_with_unloadable_page env payload 2 w1 second
              ltac:(rewrite Hp1; exact Hp)
              ltac:(rewrite Ho1; exact Hs2) Hg2
              ltac:(rewrite Ho1; exact Hf2)
              ltac:(rewrite Ho1; exact Ht4) Ht5
              ltac:(rewrite Hd1, Hn1, Ho1; lia))
    as (w2 & E2 & Hc2 & Hd2 & Hn2 & Ho2 & Hp2 & _ & Hl2 & He2).
  unwrap. rewrite E1. unwrap. change (0 <=? 0) with true. unwrap. rewrite E2. unwrap.
  destruct w2 as [t2 dl2 pes2 cos2 m2 lg2 b2]. fields.
  eexists. split; [reflexivity|]. fields.
  rewrite Hc2, Hc1, Ho2, Ho1, Hp2, Hp1, Hl2, Hl1, He2, He1, Ho1.
  repeat split.
Qed.

(* ------------------------------------------------------------------ *)
(** ** The website scraper: a workflow that ends *)

Lemma ended_iteration (env : Env) (w : World) (record : PlaceEntry.t)
    (r : Exit unit) (result : bool) :
  deadline w = None ->
  find Db.unclaimed (placeEntry w) = Some record ->
  match r with
  | Success _ => result = true
  | Failure e => isTimeoutException e = false /\ result = false
  | _ => False
  end ->
  (forall w1, sameRun w w1 ->
     fst (timeout 300000
            (ScrapeWebsite.PlaceWebsiteScraperWorkflow_execute env
               (WebsiteScraper.payloadOf record)) w1) = r) ->
  exists w1 w',
    sameRun w w1
    /\ WebsiteScraper.processOneRecord env w = (Success {| continue := true |}, w')
    /\ company w'
       = company (snd (timeout 300000
                         (ScrapeWebsite.PlaceWebsiteScraperWorkflow_execute env
                            (WebsiteScraper.payloadOf record)) w1))
    /\ browser w'
       = browser (snd (timeout 300000
                         (ScrapeWebsite.PlaceWebsiteScraperWorkflow_execute env
                            (WebsiteScraper.payloadOf record)) w1))
    /\ placeEntry w'
       = Db.updateFirst (sameEntry record) (PlaceEntry.withStatus (Some result))
           (placeEntry w)
    /\ recordsProcessed (metrics w') = recordsProcessed (metrics w) + 1
    /\ recordsFailed (metrics w')
       = recordsFailed (metrics w) + (if result then 0 else 1)
    /\ recordsTimedOut (metrics w') = recordsTimedOut (metrics w)
    /\ (exists d, processingDuration (metrics w') = d :: processingDuration (metrics w))
    /\ deadline w' = None.
Proof.
  intros Hd Hf Hr Ht.
  assert (He : existsb (sameEntry record) (placeEntry w) = true).
  { apply (find_existsb _ _ _ Hf). apply String.eqb_refl. }
  destruct w as [t dl pes cos m lg b]. fields. subst dl.
  run. rewrite Hf. run.
  match goal with |- context [timeout 300000 ?wf ?w1] =>
    exists w1;
    pose proof (Ht w1 ltac:(repeat split)) as Hx;
    pose proof (keeps_timeout 300000
                  (keeps_workflow env (WebsiteScraper.payloadOf record)) w1) as Hu;
    pose proof (timeout_restores_deadline 300000 wf w1) as Hdl;
    destruct (timeout 300000 wf w1) as [r' w2]
  end.
  cbn [fst snd] in Hx, Hu, Hdl. subst r'.
  destruct w2 as [t2 dl2 pes2 cos2 m2 lg2 b2].
  destruct Hu as [Hu1 Hu2]. fields. subst dl2 pes2 m2.
  unfold sameEntry in He.
  destruct r as [[]|e|d| |]; try contradiction.
  - subst result. run. rewrite He. run. unfold elapse. run.
    eexists. split; [repeat split|]. split; [reflexivity|].
    destruct m. cbn. repeat split; try lia.
    eexists. reflexivity.
  - destruct Hr as [Hne ->]. run. unfold isTimeoutException in Hne. rewrite Hne.
    run. rewrite He. run. unfold elapse. run.
    eexists. split; [repeat split|]. split; [reflexivity|].
    destruct m. cbn. repeat split; try lia.
    eexists. reflexivity.
Qed.

(** With the ids of the rows distinct, writing a status to the row that
    was found takes exactly that row out of the backlog. *)
Lemma updateFirst_claims (record : PlaceEntry.t) (s : bool)
    (pes : list PlaceEntry.t) :
  NoDup (List.map PlaceEntry.id pes) ->
  find Db.unclaimed pes = Some record ->
  filter Db.unclaimed
    (Db.updateFirst (sameEntry record) (PlaceEntry.withStatus (Some s)) pes)
  = List.tl (filter Db.unclaimed pes)
  /\ List.hd_error (filter Db.unclaimed pes) = Some record.
Proof.
  induction pes as [|r pes IH]; cbn [find]; [discriminate|].
  intros Hnd Hf. inversion Hnd as [|? ? Hnotin Hnd']; subst.
  cbn [Db.updateFirst filter]. unfold sameEntry at 1.
  destruct (Db.unclaimed r) eqn:Hu.
  - injection Hf as ->. rewrite String.eqb_refl.
    cbn [filter List.tl List.hd_error]. split; [|reflexivity].
    unfold Db.unclaimed at 1. destruct record; reflexivity.
  - destruct (String.eqb_spec (PlaceEntry.id r) (PlaceEntry.id record)) as [Heq|Hneq].
    + exfalso. apply Hnotin. rewrite Heq. apply in_map.
      apply find_some in Hf. apply Hf.
    + cbn [filter]. rewrite Hu. apply IH; assumption.
Qed.

Lemma updateFirst_in (record : PlaceEntry.t) (f : PlaceEntry.t -> PlaceEntry.t)
    (pes : list PlaceEntry.t) :
  NoDup (List.map PlaceEntry.id pes) ->
  In record pes ->
  In (f record) (Db.updateFirst (sameEntry record) f pes).
Proof.
  induction pes as [|x pes IH]; cbn [In List.map Db.updateFirst]; [contradiction|].
  intros Hnd [-> | Hin].
  - unfold sameEntry at 1. rewrite String.eqb_refl. left. reflexivity.
  - inversion Hnd as [|? ? Hnotin Hnd']; subst. unfold sameEntry at 1.
    destruct (String.eqb_spec (PlaceEntry.id x) (PlaceEntry.id record)) as [Heq|Hneq].
    + exfalso. apply Hnotin. rewrite Heq. apply in_map. exact Hin.
    + right. apply IH; assumption.
Qed.

(** X3.  A workflow that ends before the runner's 5 minutes are over, with a
    success or with a typed failure, has its row marked [true] or
    [false]: the
    row leaves the backlog (with distinct ids it was the first unclaimed
    row, and the unclaimed rows after the iteration are the others, in
    order), [recordsFailed] goes up for a failure only and
    [recordsTimedOut] stays. *)
Theorem ended_workflow_takes_the_row_out_of_the_backlog
    (env : Env) (w : World) (record : PlaceEntry.t) (r : Exit unit)
    (result : bool) :
  deadline w = None ->
  NoDup (List.map PlaceEntry.id (placeEntry w)) ->
  find Db.unclaimed (placeEntry w) = Some record ->
  (r = Success tt /\ result = true)
  \/ (exists e, r = Failure e /\ isTimeoutException e = false /\ result = false) ->
  (forall w1, sameRun w w1 ->
     let run := timeout 300000
                  (ScrapeWebsite.PlaceWebsiteScraperWorkflow_execute env
                     (WebsiteScraper.payloadOf record)) w1 in
     fst run = r /\ now (snd run) < now w1 + 300000) ->
  exists w',
    WebsiteScraper.processOneRecord env w = (Success {| continue := true |}, w')
    /\ placeEntry w'
       = Db.updateFirst (sameEntry record) (PlaceEntry.withStatus (Some result))
           (placeEntry w)
    /\ In (PlaceEntry.withStatus (Some result) record) (placeEntry w')
    /\ List.hd_error (backlog w) = Some record
    /\ backlog w' = List.tl (backlog w)
    /\ recordsProcessed (metrics w') = recordsProcessed (metrics w) + 1
    /\ recordsFailed (metrics w')
       = recordsFailed (metrics w) + (if result then 0 else 1)
    /\ recordsTimedOut (metrics w') = recordsTimedOut (metrics w).
Proof.
  intros Hd Hnd Hf Hr Ht.
  destruct (@ended_iteration env w record r result Hd Hf) as
    (w1 & w' & _ & E & _ & _ & Hpe & Hp & Hfl & Hto & _ & _).
  { destruct Hr as [[-> ->] | (e & -> & He & ->)]; [reflexivity | split; [exact He | reflexivity]]. }
  { intros w1 Hsame. exact (proj1 (Ht w1 Hsame)). }
  destruct (@updateFirst_claims record result (placeEntry w) Hnd Hf) as [Htl Hhd].
  exists w'. split; [exact E|]. split; [exact Hpe|]. unfold backlog. rewrite Hpe.
  repeat split; try assumption.
  apply updateFirst_in; [exact Hnd|]. apply find_some in Hf. apply Hf.
Qed.

Lemma threeRecords_distinct :
  NoDup (List.map PlaceEntry.id (placeEntry threeRecords)).
Proof.
  cbn. repeat (apply NoDup_cons;
    [cbn; intros H; decompose [or] H; first [discriminate | contradiction] |]).
  apply NoDup_nil.
Defined.

Lemma first_site_scraped (w1 : World) :
  sameRun threeRecords w1 ->
  let run := timeout 300000
               (ScrapeWebsite.PlaceWebsiteScraperWorkflow_execute sampleEnv
                  (WebsiteScraper.payloadOf (entry "1" "http://a"))) w1 in
  fst run = Success tt /\ now (snd run) < now w1 + 300000.
Proof.
  intros (Hn & Hd & Hc & Hb). destruct w1 as [t dl pes cos m lg b].
  fields. subst t dl cos b. vm_compute. split; reflexivity.
Defined.

Lemma ended_workflow_takes_the_row_out_of_the_backlog_witness :
  exists w',
    WebsiteScraper.processOneRecord sampleEnv threeRecords
    = (Success {| continue := true |}, w')
    /\ List.map PlaceEntry.id (backlog w') = ["2"; "3"].
Proof.
  destruct (@ended_workflow_takes_the_row_out_of_the_backlog sampleEnv threeRecords
              (entry "1" "http://a") (Success tt) true eq_refl threeRecords_distinct
              eq_refl (or_introl (conj eq_refl eq_refl)) first_site_scraped)
    as (w' & E & _ & _ & _ & Hb & _).
  exists w'. split; [exact E|]. rewrite Hb. reflexivity.
Defined.

(** X4.  A site that does not load on either attempt, both attempts ending
    before the runner's 5 minutes are over: the activity is tried twice,
    each time with an agent of its own that the release stops, no
    company is written, and the row is marked failed for good. *)
Theorem unreachable_site_is_marked_failed
    (env : Env) (w : World) (record : PlaceEntry.t) (first second : string) :
  let url := PlaceEntry.url record in
  let a := opened (browser w) in
  deadline w = None ->
  NoDup (List.map PlaceEntry.id (placeEntry w)) ->
  find Db.unclaimed (placeEntry w) = Some record ->
  (1 <= agentPermits (browser w))%nat ->
  settled (startBrowserAgent env a) = Resolved tt ->
  settled (goto env url 1) = Rejected first ->
  settled (stopAgent env a true) = Resolved tt ->
  settled (startBrowserAgent env (S a)) = Resolved tt ->
  settled (goto env url 2) = Rejected second ->
  settled (stopAgent env (S a) true) = Resolved tt ->
  0 <= took (startBrowserAgent env a) ->
  0 <= took (goto env url 1) ->
  0 <= took (stopAgent env a true) ->
  0 <= took (startBrowserAgent env (S a)) ->
  0 <= took (goto env url 2) ->
  0 <= took (stopAgent env (S a) true) ->
  took (startBrowserAgent env a) + took (goto env url 1)
  + took (stopAgent env a true) + took (startBrowserAgent env (S a))
  + took (goto env url 2) + took (stopAgent env (S a) true) < 300000 ->
  exists w',
    WebsiteScraper.processOneRecord env w = (Success {| continue := true |}, w')
    /\ In (PlaceEntry.withStatus (Some false) record) (placeEntry w')
    /\ backlog w' = List.tl (backlog w)
    /\ company w' = company w
    /\ recordsFailed (metrics w') = recordsFailed (metrics w) + 1
    /\ recordsTimedOut (metrics w') = recordsTimedOut (metrics w)
    /\ events (browser w')
       = StopAgent (S a) :: StartAgent (S a) :: StopAgent a :: StartAgent a
         :: events (browser w)
    /\ agentPermits (browser w') = agentPermits (browser w).
Proof.
  intros url a Hd Hnd Hf Hp Hs1 Hg1 Hf1 Hs2 Hg2 Hf2 Ht1 Ht2 Ht3 Ht4 Ht5 Ht6 Hall.
  subst url a.
  assert (Hsum : took (startBrowserAgent env (opened (browser w)))
                 + took (goto env (PlaceEntry.url record) 1)
                 + took (stopAgent env (opened (browser w)) true)
                 + took (startBrowserAgent env (S (opened (browser w))))
                 + took (goto env (PlaceEntry.url record) 2) <= 300000) by lia.
  assert (Hwf : forall w1, sameRun w w1 ->
            exists w2,
              timeout 300000
                (ScrapeWebsite.PlaceWebsiteScraperWorkflow_execute env
                   (WebsiteScraper.payloadOf record)) w1
              = (Failure (ScrapeWebsiteError second), w2)
              /\ company w2 = company w
              /\ agentPermits (browser w2) = agentPermits (browser w)
              /\ events (browser w2)
                 = StopAgent (S (opened (browser w))) :: StartAgent (S (opened (browser w)))
                   :: StopAgent (opened (browser w)) :: StartAgent (opened (browser w))
                   :: events (browser w)).
  { intros w1 (Hn1 & Hd1 & Hc1 & Hb1).
    destruct (@workflow_with_unloadable_page env (WebsiteScraper.payloadOf record) w1
                first second) as (w2 & E & Hc & _ & _ & Hp2 & _ & He);
      rewrite ?Hb1; try assumption; [congruence|].
    exists w2. rewrite <- Hc1, <- Hb1. repeat split; assumption. }
  destruct (@ended_iteration env w record (Failure (ScrapeWebsiteError second)) false Hd Hf)
    as (w1 & w' & Hsame & E & Hco & Hbr & Hpe & Hp' & Hfl & Hto & _ & _).
  { split; reflexivity. }
  { intros w1 Hsame. destruct (Hwf w1 Hsame) as (w2 & -> & _). reflexivity. }
  destruct (Hwf w1 Hsame) as (w2 & Ew & Hc2 & Hp2 & He2).
  rewrite Ew in Hco, Hbr. cbn [snd] in Hco, Hbr.
  destruct (@updateFirst_claims record false (placeEntry w) Hnd Hf) as [Htl _].
  exists w'. unfold backlog. rewrite Hbr, Hco, Hpe. repeat split; try assumption.
  apply updateFirst_in; [exact Hnd|]. apply find_some in Hf. apply Hf.
Qed.

Lemma unreachable_site_is_marked_failed_witness :
  exists w',
    WebsiteScraper.processOneRecord offlineEnv threeRecords
    = (Success {| continue := true |}, w')
    /\ In (PlaceEntry.withStatus (Some false) (entry "1" "http://a")) (placeEntry w')
    /\ events (browser w') = [StopAgent 1; StartAgent 1; StopAgent 0; StartAgent 0].
Proof.
  destruct (@unreachable_site_is_marked_failed offlineEnv threeRecords
              (entry "1" "http://a") "net::ERR_NAME_NOT_RESOLVED"
              "net::ERR_NAME_NOT_RESOLVED" eq_refl threeRecords_distinct eq_refl
              ltac:(cbn; lia) eq_refl eq_refl eq_refl eq_refl eq_refl eq_refl
              ltac:(cbn; lia) ltac:(cbn; lia) ltac:(cbn; lia) ltac:(cbn; lia)
              ltac:(cbn; lia) ltac:(cbn; lia) ltac:(cbn; lia))
    as (w' & E & Hin & _ & _ & _ & _ & He & _).
  exists w'. split; [exact E|]. split; [exact Hin | exact He].
Defined.

(* ------------------------------------------------------------------ *)
(** ** Defects are not caught *)

Lemma attempt_without_agent (env : Env)
    (payload : PlaceWebsiteScraperWorkflow.Payload) (attempt : nat) (w : World)
    (reason : string) :
  (1 <= agentPermits (browser w))%nat ->
  settled (startBrowserAgent env (opened (browser w))) = Rejected reason ->
  exists w',
    ScrapeWebsite.execute env payload attempt w = (Die reason, w')
    /\ company w' = company w
    /\ deadline w' = deadline w
    /\ live (browser w') = live (browser w)
    /\ events (browser w') = events (browser w)
    /\ agentPermits (browser w') = agentPermits (browser w).
Proof.
  intros Hp Hstart.
  destruct w as [t dl pes cos m lg [cp ap op lv ev]].
  destruct payload as [pid pname purl paddr pphone ploc].
  cbn [browser agentPermits opened deadline placeEntry now contextPermits live events
       PlaceWebsiteScraperWorkflow.url company] in *.
  sim.
  destruct (Nat.ltb_spec ap 1) as [|_]; [lia|].
  sim. rewrite Hstart. sim.
  eexists. split; [reflexivity|]. sim. repeat split; try reflexivity; lia.
Qed.

(** X5.  An agent that cannot be started (the start is rejected before the
    runner's 5 minutes are over): the rejection is a defect
    ([Effect.promise]), which neither the activity's retry nor the
    runner's [catchAll] handles.  The iteration dies, and the loop with
    it: the row is still unclaimed, it has been counted as processed and
    not as failed, and no duration sample was recorded. *)
Theorem agent_that_cannot_start_crashes_the_runner
    (env : Env) (w : World) (record : PlaceEntry.t) (reason : string)
    (fuel : nat) :
  deadline w = None ->
  find Db.unclaimed (placeEntry w) = Some record ->
  (1 <= agentPermits (browser w))%nat ->
  settled (startBrowserAgent env (opened (browser w))) = Rejected reason ->
  0 <= took (startBrowserAgent env (opened (browser w))) < 300000 ->
  exists w',
    WebsiteScraper.mainProcessingLoop env (S fuel) w = (Die reason, w')
    /\ placeEntry w' = placeEntry w
    /\ company w' = company w
    /\ recordsProcessed (metrics w') = recordsProcessed (metrics w) + 1
    /\ recordsFailed (metrics w') = recordsFailed (metrics w)
    /\ recordsTimedOut (metrics w') = recordsTimedOut (metrics w)
    /\ processingDuration (metrics w') = processingDuration (metrics w)
    /\ events (browser w') = events (browser w).
Proof.
  intros Hd Hf Hp Hstart _.
  destruct w as [t dl pes cos m lg b]. fields. subst dl.
  unfold WebsiteScraper.mainProcessingLoop. cbn [loop continue].
  run. rewrite Hf. run. unwrap.
  match goal with |- context [ScrapeWebsite.execute env ?p ?n ?w1] =>
    destruct (@attempt_without_agent env p n w1 reason Hp Hstart)
      as (w2 & E & Hc & Hdl & Hl & He & Hap);
    pose proof (keeps_execute env p n w1) as Hu;
    rewrite E in Hu; rewrite E
  end.
  destruct w2 as [t2 dl2 pes2 cos2 m2 lg2 b2].
  destruct Hu as [Hu1 Hu2]. fields. subst dl2 pes2 m2 cos2.
  unwrap. eexists. split; [reflexivity|]. fields.
  destruct m. cbn. repeat split. exact He.
Qed.

Lemma agent_that_cannot_start_crashes_the_runner_witness :
  exists w',
    WebsiteScraper.mainProcessingLoop brokenBrowserEnv 5 threeRecords
    = (Die "browser has been closed", w')
    /\ placeEntry w' = placeEntry threeRecords
    /\ recordsProcessed (metrics w') = 1
    /\ recordsFailed (metrics w') = 0.
Proof.
  destruct (@agent_that_cannot_start_crashes_the_runner brokenBrowserEnv threeRecords
              (entry "1" "http://a") "browser has been closed" 4
              eq_refl eq_refl ltac:(cbn; lia) eq_refl ltac:(cbn; lia))
    as (w' & E & Hp & _ & Hr & Hf & _).
  exists w'. split; [exact E|]. split; [exact Hp|]. split; [exact Hr | exact Hf].
Defined.

(* ------------------------------------------------------------------ *)
(** ** The activity: writing the company *)

Lemma dedupe_in (seen tags : list string) (t : string) :
  In t (ScrapeWebsite.dedupe seen tags) <-> In t tags /\ ~ In t seen.
Proof.
  revert seen. induction tags as [|x tags IH]; intros seen; cbn [ScrapeWebsite.dedupe In].
  - tauto.
  - destruct (existsb (String.eqb x) seen) eqn:E.
    + apply existsb_exists in E. destruct E as (y & Hy & Heq).
      apply String.eqb_eq in Heq. subst y.
      rewrite IH. split.
      * intros [H1 H2]. tauto.
      * intros [[-> | H1] H2]; [contradiction | tauto].
    + assert (Hx : ~ In x seen).
      { intros Hin. assert (existsb (String.eqb x) seen = true) as H.
        { apply existsb_exists. exists x. split; [exact Hin | apply String.eqb_refl]. }
        congruence. }
      cbn [In]. rewrite IH. cbn [In]. split.
      * intros [-> | [H1 H2]]; [tauto|]. split; [tauto|]. intros H. apply H2. right. exact H.
      * intros [[-> | H1] H2]; [tauto|].
        destruct (string_dec x t) as [->|Hne]; [tauto|]. right. split; [exact H1|].
        intros [H | H]; [contradiction | contradiction].
Qed.

Lemma dedupe_NoDup (seen tags : list string) :
  NoDup (ScrapeWebsite.dedupe seen tags).
Proof.
  revert seen. induction tags as [|x tags IH]; intros seen; cbn [ScrapeWebsite.dedupe].
  - constructor.
  - destruct (existsb (String.eqb x) seen); [apply IH|].
    constructor; [|apply IH].
    rewrite dedupe_in. intros [_ H]. apply H. left. reflexivity.
Qed.

Ltac scrape :=
  cbv beta iota zeta delta
    [bind map succeed fail die sync catchAll catchTag mapError tapError orDie
     ignore coerce retry retryFrom pause delay recurrences sleep World_Clock
     Pair_Clock uninterruptible promise tryPromise logLine log lift
     addFinalizer acquireRelease closeScope isSuccess scoped Date_now
     timeout elapse Db.company_create
     ScrapeWebsite.execute
     ScrapeWebsite.withDefaults ScrapeWebsite.rejected ScrapeWebsite.errorHandler
     PlaceWebsiteScraperWorkflow.id PlaceWebsiteScraperWorkflow.name
     PlaceWebsiteScraperWorkflow.url PlaceWebsiteScraperWorkflow.address
     PlaceWebsiteScraperWorkflow.phone PlaceWebsiteScraperWorkflow.location
     Extracted.emailAddress Extracted.telephoneNumber Extracted.address
     Extracted.servicesOffered
     BrowserService.getBrowserAgent
     BrowserService.withPermits BrowserService.permitsOf BrowserService.setPermits
     BrowserService.agent_start
     BrowserService.agent_stop BrowserService.nextHandle BrowserService.record
     BrowserService.setLive
     now deadline placeEntry company metrics logs browser
     contextPermits agentPermits opened live events
     set_now set_deadline set_placeEntry set_company set_metrics set_logs
     set_browser fst snd].

(** What one attempt does once the extraction qualifies: it reaches
    [db.company.create], whose answer depends on whether the name is
    already taken, and then releases the agent. *)
Lemma attempt_reaches_the_write (env : Env)
    (payload : PlaceWebsiteScraperWorkflow.Payload) (attempt : nat) (w : World)
    (raw : Extracted.t) :
  let url := PlaceWebsiteScraperWorkflow.url payload in
  let a := opened (browser w) in
  let data := ScrapeWebsite.withDefaults payload raw in
  let row := ScrapeWebsite.newCompany payload data
               (newId env (List.length (company w))) in
  (1 <= agentPermits (browser w))%nat ->
  settled (startBrowserAgent env a) = Resolved tt ->
  settled (goto env url attempt) = Resolved tt ->
  settled (extract env url attempt) = Resolved raw ->
  settled (waitForTimeout env url attempt) = Resolved tt ->
  settled (stopAgent env a false) = Resolved tt ->
  inTime env url attempt a w ->
  qualifying payload raw ->
  exists w',
    ScrapeWebsite.execute env payload attempt w
    = (if nameTaken payload w
       then Failure (ScrapeWebsiteError
                       "Unique constraint failed on the fields: (`name`)")
       else match settled (stopAgent env a true) with
            | Resolved _ => Success (Some data)
            | Rejected reason => Die reason
            end, w')
    /\ company w' = (if nameTaken payload w then company w else company w ++ [row])
    /\ deadline w' = deadline w
    /\ events (browser w')
       = StopAgent a :: StopAgent a :: StartAgent a :: events (browser w)
    /\ agentPermits (browser w') = agentPermits (browser w).
Proof.
  intros url a data row Hp Hstart Hgoto Hextract Hwait Hstop Hb Hq.
  subst url a data row. unfold inTime in Hb. unfold nameTaken, companyName.
  destruct w as [t dl pes cos m lg [cp ap op lv ev]].
  destruct raw as [em tel addr svc].
  destruct payload as [pid pname purl paddr pphone ploc].
  cbn [browser agentPermits opened deadline placeEntry now company
       PlaceWebsiteScraperWorkflow.url PlaceWebsiteScraperWorkflow.name] in *.
  destruct Hb as (HtA & HtG & HtE & HtW & HtS & Hsum).
  destruct Hq as (Hsvc & tp & Htel & Hinc).
  cbn [Extracted.servicesOffered] in Hsvc.
  destruct svc as [|s ss]; [congruence|].
  cbv beta iota delta [ScrapeWebsite.withDefaults Extracted.telephoneNumber
    Extracted.servicesOffered PlaceWebsiteScraperWorkflow.phone] in Htel.
  scrape.
  destruct (Nat.ltb_spec ap 1) as [|_]; [lia|].
  scrape. rewrite Hstart. scrape.
  destruct dl as [dl|]; cbv beta iota in Hsum.
  - clock. rewrite Hgoto. scrape.
    match goal with |- context [if Z.ltb ?a ?b then ?a else _] =>
      destruct (Z.ltb_spec a b) end;
    scrape; clock; rewrite Hextract; scrape; clock; rewrite Hwait; scrape; clock;
    rewrite Hstop; scrape;
    (destruct tel as [t0|]; cbv beta iota in Htel;
      [injection Htel as <- | subst pphone]);
    scrape; rewrite Hinc; scrape;
    cbn [ScrapeWebsite.newCompany Company.name PlaceWebsiteScraperWorkflow.name];
    match goal with |- context [existsb ?f cos] => destruct (existsb f cos) end;
    scrape; destruct (settled (stopAgent env op true)) as [[]|reason]; scrape;
    cbn [message_of]; eexists; (split; [reflexivity|]); scrape;
    repeat split; lia.
  - rewrite Hgoto. scrape. clock. rewrite Hextract. scrape. rewrite Hwait. scrape.
    rewrite Hstop. scrape.
    (destruct tel as [t0|]; cbv beta iota in Htel;
      [injection Htel as <- | subst pphone]);
    scrape; rewrite Hinc; scrape;
    cbn [ScrapeWebsite.newCompany Company.name PlaceWebsiteScraperWorkflow.name];
    match goal with |- context [existsb ?f cos] => destruct (existsb f cos) end;
    scrape; destruct (settled (stopAgent env op true)) as [[]|reason]; scrape;
    cbn [message_of]; eexists; (split; [reflexivity|]); scrape;
    repeat split; lia.
Qed.

(** An extraction that takes longer than its 3-minute timeout. *)
Lemma attempt_with_slow_extraction (env : Env)
    (payload : PlaceWebsiteScraperWorkflow.Payload) (attempt : nat) (w : World) :
  let url := PlaceWebsiteScraperWorkflow.url payload in
  let a := opened (browser w) in
  (1 <= agentPermits (browser w))%nat ->
  settled (startBrowserAgent env a) = Resolved tt ->
  settled (goto env url attempt) = Resolved tt ->
  settled (stopAgent env a true) = Resolved tt ->
  0 <= took (startBrowserAgent env a) ->
  0 <= took (goto env url attempt) ->
  180000 < took (extract env url attempt) ->
  match deadline w with
  | None => True
  | Some dl =>
      now w + took (startBrowserAgent env a) + took (goto env url attempt) + 180000 < dl
  end ->
  exists w',
    ScrapeWebsite.execute env payload attempt w
    = (Failure (ScrapeWebsiteError (message_of TimeoutException)), w')
    /\ company w' = company w
    /\ deadline w' = deadline w
    /\ now w' = now w + took (startBrowserAgent env a) + took (goto env url attempt)
                + 180000 + took (stopAgent env a true)
    /\ events (browser w') = StopAgent a :: StartAgent a :: events (browser w)
    /\ agentPermits (browser w') = agentPermits (browser w)
    /\ opened (browser w') = S a.
Proof.
  intros url a Hp Hstart Hgoto Hfin HtA HtG HtE Hsum. subst url a.
  destruct w as [t dl pes cos m lg [cp ap op lv ev]].
  destruct payload as [pid pname purl paddr pphone ploc].
  cbn [browser agentPermits opened deadline placeEntry now company
       PlaceWebsiteScraperWorkflow.url] in *.
  scrape.
  destruct (Nat.ltb_spec ap 1) as [|_]; [lia|].
  scrape. rewrite Hstart. scrape.
  destruct dl as [dl|]; cbv beta iota in Hsum.
  - clock. rewrite Hgoto. scrape. clock. scrape. clock. scrape.
    rewrite Hfin. scrape. cbn [message_of].
    eexists. split; [reflexivity|]. scrape. repeat split; lia.
  - rewrite Hgoto. scrape. clock. scrape. rewrite Hfin. scrape. cbn [message_of].
    eexists. split; [reflexivity|]. scrape. repeat split; lia.
Qed.

(** An attempt whose extraction cannot end before the enclosing deadline:
    it is interrupted, at the page load or in the extraction. *)
Lemma attempt_cut_short (env : Env)
    (payload : PlaceWebsiteScraperWorkflow.Payload) (attempt : nat) (w : World)
    (dl : Z) :
  let url := PlaceWebsiteScraperWorkflow.url payload in
  let a := opened (browser w) in
  deadline w = Some dl ->
  (1 <= agentPermits (browser w))%nat ->
  settled (startBrowserAgent env a) = Resolved tt ->
  settled (goto env url attempt) = Resolved tt ->
  settled (stopAgent env a true) = Resolved tt ->
  0 <= took (startBrowserAgent env a) ->
  0 <= took (goto env url attempt) ->
  180000 < took (extract env url attempt) ->
  dl <= now w + took (startBrowserAgent env a) + took (goto env url attempt) + 180000 ->
  exists w',
    ScrapeWebsite.execute env payload attempt w = (Interrupted, w')
    /\ company w' = company w
    /\ deadline w' = deadline w
    /\ events (browser w') = StopAgent a :: StartAgent a :: events (browser w)
    /\ agentPermits (browser w') = agentPermits (browser w).
Proof.
  intros url a Hd Hp Hstart Hgoto Hfin HtA HtG HtE Hsum. subst url a.
  destruct w as [t dl0 pes cos m lg [cp ap op lv ev]].
  destruct payload as [pid pname purl paddr pphone ploc].
  cbn [browser agentPermits opened deadline placeEntry now company
       PlaceWebsiteScraperWorkflow.url] in *.
  subst dl0. scrape.
  destruct (Nat.ltb_spec ap 1) as [|_]; [lia|].
  scrape. rewrite Hstart. scrape.
  match goal with |- context [Z.ltb dl ?x] => destruct (Z.ltb_spec dl x) end.
  - scrape. rewrite Hfin. scrape.
    eexists. split; [reflexivity|]. scrape. repeat split; lia.
  - rewrite Hgoto. scrape. clock. scrape. clock. scrape. rewrite Hfin. scrape.
    eexists. split; [reflexivity|]. scrape. repeat split; lia.
Qed.

Lemma workflow_with_slow_extraction (env : Env)
    (payload : PlaceWebsiteScraperWorkflow.Payload) (w : World) :
  let url := PlaceWebsiteScraperWorkflow.url payload in
  let a := opened (browser w) in
  deadline w = None ->
  (1 <= agentPermits (browser w))%nat ->
  settled (startBrowserAgent env a) = Resolved tt ->
  settled (goto env url 1) = Resolved tt ->
  settled (stopAgent env a true) = Resolved tt ->
  settled (startBrowserAgent env (S a)) = Resolved tt ->
  settled (goto env url 2) = Resolved tt ->
  settled (stopAgent env (S a) true) = Resolved tt ->
  0 <= took (startBrowserAgent env a) ->
  0 <= took (goto env url 1) ->
  0 <= took (stopAgent env a true) ->
  0 <= took (startBrowserAgent env (S a)) ->
  0 <= took (goto env url 2) ->
  180000 < took (extract env url 1) ->
  180000 < took (extract env url 2) ->
  took (startBrowserAgent env a) + took (goto env url 1) < 120000 ->
  exists w',
    timeout 300000 (ScrapeWebsite.PlaceWebsiteScraperWorkflow_execute env payload) w
    = (Failure TimeoutException, w')
    /\ company w' = company w
    /\ events (browser w')
       = StopAgent (S a) :: StartAgent (S a) :: StopAgent a :: StartAgent a
         :: events (browser w).
Proof.
  intros url a Hd Hp Hs1 Hg1 Hf1 Hs2 Hg2 Hf2 Ht1 Ht2 Ht3 Ht4 Ht5 He1 He2 Hsum.
  subst url a.
  destruct w as [t dl pes cos m lg b]. fields. subst dl.
  destruct (@attempt_with_slow_extraction env payload 1
              {| now := t; deadline := Some (t + 300000); placeEntry := pes;
                 company := cos; metrics := m; logs := lg; browser := b |}
              Hp Hs1 Hg1 Hf1 Ht1 Ht2 He1 ltac:(fields; lia))
    as (w1 & E1 & Hc1 & Hd1 & Hn1 & Hev1 & Hp1 & Ho1).
  fields.
  destruct (@attempt_cut_short env payload 2 w1 (t + 300000) Hd1
              ltac:(rewrite Hp1; exact Hp)
              ltac:(rewrite Ho1; exact Hs2) Hg2
              ltac:(rewrite Ho1; exact Hf2)
              ltac:(rewrite Ho1; exact Ht4) Ht5 He2
              ltac:(rewrite Hn1, Ho1; lia))
    as (w2 & E2 & Hc2 & Hd2 & Hev2 & Hp2).
  unwrap. rewrite E1. unwrap. change (0 <=? 0) with true. unwrap. rewrite E2. unwrap.
  destruct w2 as [t2 dl2 pes2 cos2 m2 lg2 b2]. fields.
  eexists. split; [reflexivity|]. fields.
  rewrite Hc2, Hc1, Hev2, Hev1, Ho1. repeat split.
Qed.

(* ------------------------------------------------------------------ *)
(** ** The activity and the runner, case by case *)

(** X6.  An extraction that qualifies, for a company whose name is not in
    the table yet: the attempt succeeds with the extracted data and
    appends exactly one company, named after the payload, with industry
    "Legal", no sync event, and the extracted services each once;
    [agent.stop()] has been called twice, by the activity and by the
    release of the agent. *)
Theorem qualifying_extraction_writes_one_company (env : Env)
    (payload : PlaceWebsiteScraperWorkflow.Payload) (attempt : nat) (w : World)
    (raw : Extracted.t) :
  let url := PlaceWebsiteScraperWorkflow.url payload in
  let a := opened (browser w) in
  let data := ScrapeWebsite.withDefaults payload raw in
  (1 <= agentPermits (browser w))%nat ->
  settled (startBrowserAgent env a) = Resolved tt ->
  settled (goto env url attempt) = Resolved tt ->
  settled (extract env url attempt) = Resolved raw ->
  settled (waitForTimeout env url attempt) = Resolved tt ->
  settled (stopAgent env a false) = Resolved tt ->
  settled (stopAgent env a true) = Resolved tt ->
  inTime env url attempt a w ->
  qualifying payload raw ->
  nameTaken payload w = false ->
  exists row w',
    ScrapeWebsite.execute env payload attempt w = (Success (Some data), w')
    /\ company w' = company w ++ [row]
    /\ Company.name row = companyName payload
    /\ Company.websiteUrl row = url
    /\ Company.industry row = Some "Legal"
    /\ Company.crmSyncEvent row = None
    /\ NoDup (Company.servicesOffered row)
    /\ (forall t, In t (Company.servicesOffered row)
                  <-> In t (Extracted.servicesOffered raw))
    /\ events (browser w')
       = StopAgent a :: StopAgent a :: StartAgent a :: events (browser w).
Proof.
  intros url a data Hp Hstart Hgoto Hextract Hwait Hstop Hfin Hb Hq Hn.
  destruct (@attempt_reaches_the_write env payload attempt w raw
              Hp Hstart Hgoto Hextract Hwait Hstop Hb Hq)
    as (w' & E & Hc & _ & He & _).
  fold a in Hfin. rewrite Hn in E, Hc.
  change (opened (browser w)) with a in E. rewrite Hfin in E.
  eexists. exists w'. split; [exact E|]. split; [exact Hc|].
  unfold ScrapeWebsite.newCompany.
  cbn [Company.name Company.websiteUrl Company.industry Company.crmSyncEvent
       Company.servicesOffered].
  repeat split; try exact He.
  - apply dedupe_NoDup.
  - intros H. apply dedupe_in in H. destruct H as [H _].
    unfold ScrapeWebsite.withDefaults in H. exact H.
  - intros H. apply dedupe_in. split; [|intros []].
    unfold ScrapeWebsite.withDefaults. exact H.
Qed.

Lemma sample_inTime : inTime sampleEnv "http://a" 1 0 idle.
Proof. unfold inTime. cbn. repeat split; lia. Defined.

Lemma sample_qualifying : qualifying samplePayload sampleData.
Proof.
  split; [discriminate|]. exists "+44 20 7946 0000". split; reflexivity.
Defined.

Lemma qualifying_extraction_writes_one_company_witness :
  exists row w',
    ScrapeWebsite.execute sampleEnv samplePayload 1 idle
    = (Success (Some (ScrapeWebsite.withDefaults samplePayload sampleData)), w')
    /\ company w' = [row]
    /\ Company.name row = "Firm 1"
    /\ NoDup (Company.servicesOffered row)
    /\ events (browser w') = [StopAgent 0; StopAgent 0; StartAgent 0].
Proof.
  destruct (@qualifying_extraction_writes_one_company sampleEnv samplePayload 1 idle
              sampleData ltac:(cbn; lia) eq_refl eq_refl eq_refl eq_refl eq_refl eq_refl
              sample_inTime sample_qualifying eq_refl)
    as (row & w' & E & Hc & Hn & _ & _ & _ & Hnd & _ & He).
  exists row, w'. repeat split; assumption.
Defined.

(** X7.  A company name that is in the table already ([Company.name] is
    unique): the attempt does the whole scrape and stops the agent, the
    write is refused, and the attempt fails with a [ScrapeWebsiteError]
    that carries the store's message; the table is as it was. *)
Theorem taken_name_fails_the_attempt (env : Env)
    (payload : PlaceWebsiteScraperWorkflow.Payload) (attempt : nat) (w : World)
    (raw : Extracted.t) :
  let url := PlaceWebsiteScraperWorkflow.url payload in
  let a := opened (browser w) in
  (1 <= agentPermits (browser w))%nat ->
  settled (startBrowserAgent env a) = Resolved tt ->
  settled (goto env url attempt) = Resolved tt ->
  settled (extract env url attempt) = Resolved raw ->
  settled (waitForTimeout env url attempt) = Resolved tt ->
  settled (stopAgent env a false) = Resolved tt ->
  inTime env url attempt a w ->
  qualifying payload raw ->
  nameTaken payload w = true ->
  exists message w',
    ScrapeWebsite.execute env payload attempt w
    = (Failure (ScrapeWebsiteError message), w')
    /\ company w' = company w
    /\ events (browser w')
       = StopAgent a :: StopAgent a :: StartAgent a :: events (browser w).
Proof.
  intros url a Hp Hstart Hgoto Hextract Hwait Hstop Hb Hq Hn.
  destruct (@attempt_reaches_the_write env payload attempt w raw
              Hp Hstart Hgoto Hextract Hwait Hstop Hb Hq)
    as (w' & E & Hc & _ & He & _).
  rewrite Hn in E, Hc. eexists. exists w'. repeat split; eassumption.
Qed.

Lemma known_inTime : inTime sampleEnv "http://a" 1 0 knownFirm.
Proof. unfold inTime. cbn. repeat split; lia. Defined.

Lemma taken_name_fails_the_attempt_witness :
  exists message w',
    ScrapeWebsite.execute sampleEnv samplePayload 1 knownFirm
    = (Failure (ScrapeWebsiteError message), w')
    /\ company w' = company knownFirm.
Proof.
  destruct (@taken_name_fails_the_attempt sampleEnv samplePayload 1 knownFirm
              sampleData ltac:(cbn; lia) eq_refl eq_refl eq_refl eq_refl eq_refl
              known_inTime sample_qualifying eq_refl)
    as (message & w' & E & Hc & _).
  exists message, w'. split; assumption.
Defined.

(** X8.  The second [agent.stop()], the one of the release, is an
    [Effect.promise]: when it is rejected, the attempt that has just
    written its company dies with the rejection; the company stays
    written. *)
Theorem rejected_release_kills_the_attempt_after_the_write (env : Env)
    (payload : PlaceWebsiteScraperWorkflow.Payload) (attempt : nat) (w : World)
    (raw : Extracted.t) (reason : string) :
  let url := PlaceWebsiteScraperWorkflow.url payload in
  let a := opened (browser w) in
  let data := ScrapeWebsite.withDefaults payload raw in
  (1 <= agentPermits (browser w))%nat ->
  settled (startBrowserAgent env a) = Resolved tt ->
  settled (goto env url attempt) = Resolved tt ->
  settled (extract env url attempt) = Resolved raw ->
  settled (waitForTimeout env url attempt) = Resolved tt ->
  settled (stopAgent env a false) = Resolved tt ->
  settled (stopAgent env a true) = Rejected reason ->
  inTime env url attempt a w ->
  qualifying payload raw ->
  nameTaken payload w = false ->
  exists w',
    ScrapeWebsite.execute env payload attempt w = (Die reason, w')
    /\ company w'
       = company w
         ++ [ScrapeWebsite.newCompany payload data
               (newId env (List.length (company w)))].
Proof.
  intros url a data Hp Hstart Hgoto Hextract Hwait Hstop Hfin Hb Hq Hn.
  destruct (@attempt_reaches_the_write env payload attempt w raw
              Hp Hstart Hgoto Hextract Hwait Hstop Hb Hq)
    as (w' & E & Hc & _ & He & _).
  rewrite Hn in E, Hc. change (opened (browser w)) with a in E. rewrite Hfin in E.
  exists w'. split; assumption.
Qed.

Lemma stopOnce_inTime : inTime stopOnceEnv "http://a" 1 0 idle.
Proof. unfold inTime. cbn. repeat split; lia. Defined.

Lemma rejected_release_kills_the_attempt_after_the_write_witness :
  exists w',
    ScrapeWebsite.execute stopOnceEnv samplePayload 1 idle
    = (Die "agent is not running", w')
    /\ List.length (company w') = 1%nat.
Proof.
  destruct (@rejected_release_kills_the_attempt_after_the_write stopOnceEnv
              samplePayload 1 idle sampleData "agent is not running"
              ltac:(cbn; lia) eq_refl eq_refl eq_refl eq_refl eq_refl eq_refl
              stopOnce_inTime sample_qualifying eq_refl)
    as (w' & E & Hc).
  exists w'. split; [exact E|]. rewrite Hc. reflexivity.
Defined.

(** X9.  An extraction that exceeds its own 3-minute timeout on the first
    attempt and on the retry: the two attempts do not fit in the 5
    minutes the runner waits for the workflow, so the runner's timeout
    comes first.  The iteration counts the record as processed, failed
    and timed out and writes no status: the row is still the next
    unclaimed row, which the next iteration selects again. *)
Theorem slow_extraction_ends_as_a_runner_timeout
    (env : Env) (w : World) (record : PlaceEntry.t) :
  let url := PlaceEntry.url record in
  let a := opened (browser w) in
  deadline w = None ->
  find Db.unclaimed (placeEntry w) = Some record ->
  (1 <= agentPermits (browser w))%nat ->
  settled (startBrowserAgent env a) = Resolved tt ->
  settled (goto env url 1) = Resolved tt ->
  settled (stopAgent env a true) = Resolved tt ->
  settled (startBrowserAgent env (S a)) = Resolved tt ->
  settled (goto env url 2) = Resolved tt ->
  settled (stopAgent env (S a) true) = Resolved tt ->
  0 <= took (startBrowserAgent env a) ->
  0 <= took (goto env url 1) ->
  0 <= took (stopAgent env a true) ->
  0 <= took (startBrowserAgent env (S a)) ->
  0 <= took (goto env url 2) ->
  180000 < took (extract env url 1) ->
  180000 < took (extract env url 2) ->
  took (startBrowserAgent env a) + took (goto env url 1) < 120000 ->
  exists w',
    WebsiteScraper.processOneRecord env w = (Success {| continue := true |}, w')
    /\ placeEntry w' = placeEntry w
    /\ find Db.unclaimed (placeEntry w') = Some record
    /\ recordsProcessed (metrics w') = recordsProcessed (metrics w) + 1
    /\ recordsFailed (metrics w') = recordsFailed (metrics w) + 1
    /\ recordsTimedOut (metrics w') = recordsTimedOut (metrics w) + 1.
Proof.
  intros url a Hd Hf Hp Hs1 Hg1 Hf1 Hs2 Hg2 Hf2 Ht1 Ht2 Ht3 Ht4 Ht5 He1 He2 Hsum.
  subst url a.
  destruct (@timed_out_iteration env w record Hd Hf) as
    (w' & E & H1 & H2 & H3 & _ & _ & H6 & _).
  { intros w1 (Hn1 & Hd1 & Hc1 & Hb1).
    destruct (@workflow_with_slow_extraction env (WebsiteScraper.payloadOf record) w1)
      as (w2 & -> & _); rewrite ?Hb1; try assumption; [congruence | reflexivity]. }
  exists w'. rewrite H6. repeat split; assumption.
Qed.

Lemma slow_extraction_ends_as_a_runner_timeout_witness :
  exists w',
    WebsiteScraper.processOneRecord tarpitEnv threeRecords
    = (Success {| continue := true |}, w')
    /\ find Db.unclaimed (placeEntry w') = Some (entry "1" "http://a")
    /\ recordsTimedOut (metrics w') = 1.
Proof.
  destruct (@slow_extraction_ends_as_a_runner_timeout tarpitEnv threeRecords
              (entry "1" "http://a") eq_refl eq_refl ltac:(cbn; lia)
              eq_refl eq_refl eq_refl eq_refl eq_refl eq_refl
              ltac:(cbn; lia) ltac:(cbn; lia) ltac:(cbn; lia) ltac:(cbn; lia)
              ltac:(cbn; lia) ltac:(cbn; lia) ltac:(cbn; lia) ltac:(cbn; lia))
    as (w' & E & _ & Hf & _ & _ & Ht).
  exists w'. split; [exact E|]. split; [exact Hf | exact Ht].
Defined.

(* ------------------------------------------------------------------ *)
(** ** What every run of the website scraper keeps *)

Lemma keeps_catchTag {A} tag (m : Eff World A) (h : Err -> Eff World A) :
  keeps m -> (forall e, keeps (h e)) -> keeps (catchTag tag m h).
Proof.
  intros Hm Hh w. unfold catchTag. specialize (Hm w).
  destruct (m w) as [[a|e|d| |] w1]; cbn [snd] in *; try exact Hm.
  destruct (tag e); [|exact Hm].
  eapply untouched_trans; [exact Hm | apply Hh].
Qed.

Lemma keeps_fetchNextRecord : keeps WebsiteScraper.fetchNextRecord.
Proof.
  unfold WebsiteScraper.fetchNextRecord. apply keeps_catchTag.
  - unfold retry. change (recurrences emptyBacklogPolicy) with (Some 5%nat).
    cbv beta iota. apply keeps_retryFrom. intros _.
    unfold WebsiteScraper.queryNext.
    apply keeps_bind; [apply keeps_logLine|]. intros _.
    apply keeps_bind; [intros w; apply untouched_refl|]. intros [r|].
    + apply keeps_succeed.
    + apply keeps_bind; [apply keeps_logLine|]. intros _. apply keeps_fail.
  - intros e. apply keeps_bind; [apply keeps_logLine|]. intros _. apply keeps_succeed.
Qed.

Lemma queryNext_empty_again (w0 : World) :
  find Db.unclaimed (placeEntry w0) = None ->
  fst (WebsiteScraper.queryNext w0) = Failure NoMoreRecords
  /\ placeEntry (snd (WebsiteScraper.queryNext w0)) = placeEntry w0.
Proof.
  destruct w0 as [t dl pes cos m lg b]. fields. intros Hf.
  unfold WebsiteScraper.queryNext. run. rewrite Hf. run. split; reflexivity.
Qed.

Lemma fetchNextRecord_finds (w : World) (record : PlaceEntry.t) :
  fst (WebsiteScraper.fetchNextRecord w) = Success (Some record) ->
  find Db.unclaimed (placeEntry w) = Some record.
Proof.
  unfold WebsiteScraper.fetchNextRecord, catchTag, retry.
  change (recurrences emptyBacklogPolicy) with (Some 5%nat). cbv beta iota.
  destruct (find Db.unclaimed (placeEntry w)) as [r|] eqn:Hf.
  - cbn [retryFrom]. destruct w as [t dl pes cos m lg b]. fields.
    unfold WebsiteScraper.queryNext at 1.
    run. rewrite Hf. run. intros H. injection H as ->. reflexivity.
  - intros H. exfalso. revert H.
    assert (Hr : forall left i w0, find Db.unclaimed (placeEntry w0) = None ->
              forall x, fst (retryFrom emptyBacklogPolicy left i
                               (fun _ => WebsiteScraper.queryNext) w0) <> Success x).
    { induction left as [|left IH]; intros i w0 H0 x; cbn [retryFrom];
        destruct (queryNext_empty_again w0 H0) as [Hq1 Hq2];
        destruct (WebsiteScraper.queryNext w0) as [r w1]; cbn [fst snd] in *; subst r.
      - discriminate.
      - unfold bind, pause.
        destruct (delay emptyBacklogPolicy i <=? 0).
        + unfold succeed. apply IH. rewrite Hq2. exact H0.
        + cbn [sleep World_Clock].
          pose proof (keeps_elapse (delay emptyBacklogPolicy i) w1) as [Hk _].
          destruct (elapse (delay emptyBacklogPolicy i) w1) as [[[]|e|d| |] w2];
            cbn [fst snd] in *; try discriminate.
          apply IH. rewrite Hk, Hq2. exact H0. }
    specialize (Hr 5%nat 0%nat w Hf).
    destruct (retryFrom emptyBacklogPolicy 5 0 (fun _ => WebsiteScraper.queryNext) w)
      as [[x|e|d| |] w1]; cbn [fst] in *; try discriminate.
    + exfalso. exact (Hr x eq_refl).
    + destruct (isNoMoreRecords e); [|discriminate].
      unfold bind, log, logLine, sync, succeed. cbn [fst]. discriminate.
Qed.

(** What the runner does with a claimed record, by the exit of the
    workflow: every case of it. *)
Lemma processClaimed_cases (env : Env) (record : PlaceEntry.t) (startTime : Z)
    (w : World) :
  existsb (sameEntry record) (placeEntry w) = true ->
  let r := fst (WebsiteScraper.processClaimed env record startTime w) in
  let w' := snd (WebsiteScraper.processClaimed env record startTime w) in
  recordsProcessed (metrics w') = recordsProcessed (metrics w)
  /\ recordsSkipped (metrics w') = recordsSkipped (metrics w)
  /\ ((isSuccess r = false /\ untouched w w')
      \/ (r = Success tt
          /\ ((exists result,
                 placeEntry w'
                 = Db.updateFirst (sameEntry record)
                     (PlaceEntry.withStatus (Some result)) (placeEntry w)
                 /\ recordsFailed (metrics w')
                    = recordsFailed (metrics w) + (if result then 0 else 1)
                 /\ recordsTimedOut (metrics w') = recordsTimedOut (metrics w))
              \/ (placeEntry w' = placeEntry w
                  /\ recordsFailed (metrics w') = recordsFailed (metrics w) + 1
                  /\ recordsTimedOut (metrics w') = recordsTimedOut (metrics w) + 1)))).
Proof.
  intros He r w'. subst r w'.
  destruct w as [t dl pes cos m lg b]. fields. unfold sameEntry in He.
  run.
  match goal with |- context [timeout 300000 ?wf ?w1] =>
    pose proof (keeps_timeout 300000
                  (keeps_workflow env (WebsiteScraper.payloadOf record)) w1) as Hu;
    destruct (timeout 300000 wf w1) as [r w2]
  end.
  destruct w2 as [t2 dl2 pes2 cos2 m2 lg2 b2].
  destruct Hu as [Hu1 Hu2]. fields. subst pes2 m2.
  destruct r as [[]|e|d| |]; run.
  - rewrite He. run. destruct m; cbn. repeat split.
    right. split; [reflexivity|]. left. exists true. repeat split. lia.
  - destruct e; run; try (rewrite He; run); destruct m; cbn; repeat split;
      right; (split; [reflexivity|]);
      first [ right; repeat split; reflexivity
            | left; exists false; repeat split; reflexivity ].
  - destruct m; cbn. repeat split. left. repeat split.
  - destruct m; cbn. repeat split. left. repeat split.
  - destruct m; cbn. repeat split. left. repeat split.
Qed.

Lemma claimed_refl (r : PlaceEntry.t) : claimed r r.
Proof. left. reflexivity. Qed.

Lemma claimsOnly_refl (pes : list PlaceEntry.t) : claimsOnly pes pes.
Proof. induction pes; constructor; [apply claimed_refl | assumption]. Qed.

Lemma claimed_trans (a b c : PlaceEntry.t) : claimed a b -> claimed b c -> claimed a c.
Proof.
  intros [-> | [Ha (x & ->)]] [-> | [Hb (y & ->)]].
  - left. reflexivity.
  - right. split; [exact Hb | exists y; reflexivity].
  - right. split; [exact Ha | exists x; reflexivity].
  - destruct a. discriminate Hb.
Qed.

Lemma claimsOnly_trans (a b c : list PlaceEntry.t) :
  claimsOnly a b -> claimsOnly b c -> claimsOnly a c.
Proof.
  intros Hab. revert c. induction Hab as [|x y a b Hxy Hab IH]; intros c Hbc.
  - inversion Hbc. constructor.
  - inversion Hbc as [|? z ? c' Hyz Hbc']; subst. constructor.
    + eapply claimed_trans; eassumption.
    + apply IH. exact Hbc'.
Qed.

Lemma claimsOnly_ids (a b : list PlaceEntry.t) :
  claimsOnly a b -> List.map PlaceEntry.id b = List.map PlaceEntry.id a.
Proof.
  induction 1 as [|x y a b Hxy Hab IH]; [reflexivity|].
  cbn [List.map]. rewrite IH. f_equal.
  destruct Hxy as [-> | [_ (s & ->)]]; [reflexivity | destruct x; reflexivity].
Qed.

Lemma updateFirst_claimsOnly (record : PlaceEntry.t) (result : bool)
    (pes : list PlaceEntry.t) :
  NoDup (List.map PlaceEntry.id pes) ->
  find Db.unclaimed pes = Some record ->
  claimsOnly pes
    (Db.updateFirst (sameEntry record) (PlaceEntry.withStatus (Some result)) pes).
Proof.
  intros Hnd Hf.
  assert (Hin : In record pes) by (apply find_some in Hf; apply Hf).
  assert (Hun : PlaceEntry.status record = None).
  { apply find_some in Hf. destruct Hf as [_ Hf]. unfold Db.unclaimed in Hf.
    destruct (PlaceEntry.status record); [discriminate|reflexivity]. }
  clear Hf. revert Hnd Hin.
  induction pes as [|x pes IH]; cbn [In List.map Db.updateFirst]; [contradiction|].
  intros Hnd Hin. inversion Hnd as [|? ? Hnotin Hnd']; subst. unfold sameEntry at 1.
  destruct (String.eqb_spec (PlaceEntry.id x) (PlaceEntry.id record)) as [Heq|Hneq].
  - assert (x = record) as ->.
    { destruct Hin as [H|H]; [exact H|]. exfalso. apply Hnotin. rewrite Heq.
      apply in_map. exact H. }
    constructor; [|apply claimsOnly_refl].
    right. split; [exact Hun | exists result; reflexivity].
  - constructor; [apply claimed_refl|]. apply IH; [exact Hnd'|].
    destruct Hin as [H|H]; [congruence | exact H].
Qed.

Lemma tallied_refl (m : Metrics) : tallied m m.
Proof. unfold tallied. repeat split; lia. Qed.

Lemma tallied_trans (a b c : Metrics) : tallied a b -> tallied b c -> tallied a c.
Proof. unfold tallied. intros (?&?&?&?) (?&?&?&?). repeat split; lia. Qed.

(** One iteration, whatever the collaborators do and whatever deadline
    it runs under. *)
Lemma iteration_keeps (env : Env) (w : World) :
  let w' := snd (WebsiteScraper.processOneRecord env w) in
  tallied (metrics w) (metrics w')
  /\ (NoDup (List.map PlaceEntry.id (placeEntry w)) ->
      claimsOnly (placeEntry w) (placeEntry w')).
Proof.
  intros w'.
  assert (E : w' = snd (WebsiteScraper.processOneRecord env w)) by reflexivity.
  clearbody w'. unfold WebsiteScraper.processOneRecord in E.
  unfold bind at 1 in E. unfold log at 1, logLine at 1, sync at 1 in E.
  unfold bind at 1 in E. unfold Date_now at 1 in E.
  unfold bind at 1 in E.
  match type of E with context [WebsiteScraper.fetchNextRecord ?w0] =>
    pose proof (keeps_fetchNextRecord w0) as Hk;
    pose proof (@fetchNextRecord_finds w0) as Hfind;
    destruct (WebsiteScraper.fetchNextRecord w0) as [r1 w1]
  end.
  destruct Hk as [Hk1 Hk2]. cbn [fst snd placeEntry metrics set_logs] in Hk1, Hk2, Hfind.
  destruct r1 as [[record|]|e|d| |];
    [ | unfold succeed in E | | | | ]; cbn [snd] in E;
    try (subst w'; rewrite Hk1, Hk2; split;
         [apply tallied_refl | intros _; apply claimsOnly_refl]).
  specialize (Hfind record eq_refl).
  assert (He : existsb (sameEntry record) (placeEntry w) = true).
  { apply (find_existsb _ _ _ Hfind). apply String.eqb_refl. }
  unfold bind at 1 in E. unfold Metric_increment at 1, sync at 1 in E.
  unfold bind at 1 in E. unfold logLine at 1, sync at 1 in E.
  unfold bind at 1 in E.
  match type of E with context [WebsiteScraper.processClaimed env record ?st ?w3] =>
    pose proof (@processClaimed_cases env record st w3) as Hc;
    destruct (WebsiteScraper.processClaimed env record st w3) as [r w4]
  end.
  cbn [fst snd placeEntry metrics set_logs set_metrics] in Hc.
  rewrite Hk1 in Hc. specialize (Hc He). rewrite Hk2 in Hc.
  destruct Hc as (Hp & Hs & Hc).
  assert (Hfinal :
    tallied (metrics w) (metrics w4)
    /\ (NoDup (List.map PlaceEntry.id (placeEntry w)) ->
        claimsOnly (placeEntry w) (placeEntry w4))).
  { destruct (metrics w) as [p f s t0 ds] eqn:Em.
    cbn [bump recordsProcessed recordsFailed recordsSkipped recordsTimedOut] in *.
    destruct Hc as [[_ [Hu1 Hu2]] | [_ [(result & Hpe & Hf & Ht) | (Hpe & Hf & Ht)]]].
    - cbn [placeEntry metrics set_logs set_metrics] in Hu1, Hu2.
      rewrite Hu1, Hu2, Hk1. split; [|intros _; apply claimsOnly_refl].
      unfold tallied. cbn. repeat split; lia.
    - split.
      + unfold tallied. rewrite Hp, Hs, Hf, Ht. destruct result; cbn; repeat split; lia.
      + intros Hnd. rewrite Hpe. apply updateFirst_claimsOnly; assumption.
    - split.
      + unfold tallied. rewrite Hp, Hs, Hf, Ht. cbn. repeat split; lia.
      + intros _. rewrite Hpe. apply claimsOnly_refl. }
  destruct r as [[]|e|d| |]; cbn [snd] in E; try (subst w'; exact Hfinal).
  match type of E with context [snd (?k w4)] =>
    assert (Hkk : keeps k)
  end.
  { apply keeps_bind; [apply keeps_logLine|]. intros _.
    apply keeps_bind; [apply keeps_elapse|]. intros _. apply keeps_succeed. }
  destruct (Hkk w4) as [Hq1 Hq2]. rewrite <- E in Hq1, Hq2.
  rewrite Hq1, Hq2. exact Hfinal.
Qed.

(** The loop, for any number of iterations. *)
Lemma loop_keeps (env : Env) (fuel : nat) (w : World) :
  let w' := snd (loop fuel {| continue := true |}
                   (fun state => continue state) (fun state => state)
                   (fun _ => WebsiteScraper.processOneRecord env) w) in
  tallied (metrics w) (metrics w')
  /\ (NoDup (List.map PlaceEntry.id (placeEntry w)) ->
      claimsOnly (placeEntry w) (placeEntry w')).
Proof.
  revert w. induction fuel as [|fuel IH]; intros w w';
    assert (E : w' = snd (loop _ {| continue := true |}
                   (fun state => continue state) (fun state => state)
                   (fun _ => WebsiteScraper.processOneRecord env) w)) by reflexivity;
    clearbody w'; cbn [loop continue] in E.
  - cbn [snd] in E. subst w'.
    split; [apply tallied_refl | intros _; apply claimsOnly_refl].
  - unfold bind at 1 in E.
    pose proof (iteration_keeps env w) as Hi. cbv zeta in Hi.
    destruct (WebsiteScraper.processOneRecord env w) as [r w1]. cbn [snd] in Hi.
    destruct r as [a|e|d| |]; cbn [snd] in E; try (subst w'; exact Hi).
    specialize (IH w1). cbv zeta in IH. unfold map, bind in E.
    destruct (loop fuel {| continue := true |} (fun state => continue state)
                (fun state => state) (fun _ => WebsiteScraper.processOneRecord env) w1)
      as [r2 w2]. cbn [snd] in IH.
    assert (Hboth :
      tallied (metrics w) (metrics w2)
      /\ (NoDup (List.map PlaceEntry.id (placeEntry w)) ->
          claimsOnly (placeEntry w) (placeEntry w2))).
    { destruct Hi as [Ht Hc], IH as [Ht' Hc']. split.
      - eapply tallied_trans; eassumption.
      - intros Hnd. specialize (Hc Hnd). eapply claimsOnly_trans; [exact Hc|].
        apply Hc'. rewrite (claimsOnly_ids Hc). exact Hnd. }
    destruct r2 as [l|e|d| |]; unfold succeed in E; cbn [snd] in E; subst w';
      exact Hboth.
Qed.

Lemma run_keeps (env : Env) (fuel : nat) (w : World) :
  let w' := snd (WebsiteScraper.mainProcessingLoop env fuel w) in
  tallied (metrics w) (metrics w')
  /\ (NoDup (List.map PlaceEntry.id (placeEntry w)) ->
      claimsOnly (placeEntry w) (placeEntry w')).
Proof.
  intros w'.
  assert (E : w' = snd (WebsiteScraper.mainProcessingLoop env fuel w)) by reflexivity.
  clearbody w'. unfold WebsiteScraper.mainProcessingLoop in E. unfold bind at 1 in E.
  pose proof (loop_keeps env fuel w) as Hl. cbv zeta in Hl.
  destruct (loop fuel {| continue := true |} (fun state => continue state)
              (fun state => state) (fun _ => WebsiteScraper.processOneRecord env) w)
    as [r w1]. cbn [snd] in Hl.
  destruct r as [l|e|d| |]; cbn [snd] in E; subst w'; exact Hl.
Qed.

(** X10.  The counters of the website scraper, over any number of iterations
    and whatever the browser and the extraction answer: between the
    start and any later moment of the run no counter has gone down,
    every timeout was counted as a failure and as a processed record,
    and [recordsSkipped] was not touched.  So counters that show no more
    timeouts than failures, or than processed records, keep doing so. *)
Theorem timeouts_are_counted_as_failures (env : Env) (fuel : nat) (w : World) :
  let w' := snd (WebsiteScraper.mainProcessingLoop env fuel w) in
  tallied (metrics w) (metrics w')
  /\ recordsProcessed (metrics w) <= recordsProcessed (metrics w')
  /\ recordsFailed (metrics w) <= recordsFailed (metrics w')
  /\ (0 <= recordsTimedOut (metrics w) <= recordsFailed (metrics w) ->
      0 <= recordsTimedOut (metrics w') <= recordsFailed (metrics w'))
  /\ (recordsTimedOut (metrics w) <= recordsProcessed (metrics w) ->
      recordsTimedOut (metrics w') <= recordsProcessed (metrics w')).
Proof.
  intros w'. destruct (run_keeps env fuel w) as [Ht _]. fold w' in Ht.
  split; [exact Ht|]. unfold tallied in Ht. repeat split; lia.
Qed.

Lemma timeouts_are_counted_as_failures_witness :
  0 <= recordsTimedOut
         (metrics (snd (WebsiteScraper.mainProcessingLoop sampleEnv 4 threeRecords)))
    <= recordsFailed
         (metrics (snd (WebsiteScraper.mainProcessingLoop sampleEnv 4 threeRecords))).
Proof.
  apply (proj1 (proj2 (proj2 (proj2
           (@timeouts_are_counted_as_failures sampleEnv 4 threeRecords))))).
  cbn. lia.
Defined.

Lemma claimsOnly_keeps_claimed (pes pes' : list PlaceEntry.t) (row : PlaceEntry.t) :
  claimsOnly pes pes' -> In row pes -> PlaceEntry.status row <> None -> In row pes'.
Proof.
  induction 1 as [|x y a b Hxy Hab IH]; cbn [In]; [contradiction|].
  intros [-> | Hin] Hs.
  - left. destruct Hxy as [-> | [Hn _]]; [reflexivity | contradiction].
  - right. exact (IH Hin Hs).
Qed.

(** X11.  The backlog of the website scraper, over any number of iterations
    and whatever the collaborators do (the ids of the rows being
    distinct): no row is added, removed or reordered, a row that has a
    status keeps it, and the only change ever made to a row is to give
    an unclaimed row its status. *)
Theorem status_is_written_once (env : Env) (fuel : nat) (w : World) :
  NoDup (List.map PlaceEntry.id (placeEntry w)) ->
  let w' := snd (WebsiteScraper.mainProcessingLoop env fuel w) in
  claimsOnly (placeEntry w) (placeEntry w')
  /\ List.map PlaceEntry.id (placeEntry w') = List.map PlaceEntry.id (placeEntry w)
  /\ (forall row, In row (placeEntry w) -> PlaceEntry.status row <> None ->
                  In row (placeEntry w')).
Proof.
  intros Hnd w'. destruct (run_keeps env fuel w) as [_ Hc]. fold w' in Hc.
  specialize (Hc Hnd). split; [exact Hc|]. split; [exact (claimsOnly_ids Hc)|].
  intros row. apply claimsOnly_keeps_claimed. exact Hc.
Qed.

Lemma status_is_written_once_witness :
  List.map PlaceEntry.id
    (placeEntry (snd (WebsiteScraper.mainProcessingLoop sampleEnv 4 threeRecords)))
  = ["1"; "2"; "3"].
Proof.
  exact (proj1 (proj2 (@status_is_written_once sampleEnv 4 threeRecords
                         threeRecords_distinct))).
Defined.

(* ------------------------------------------------------------------ *)
(** ** The CRM runner *)

(** X12.  A company without services whose [PlaceEntry] row is not there: the
    company has been deleted when the update of the row fails, the
    handler of the iteration counts a failure, and the record is both
    skipped and failed: the success count of the report goes down. *)
Theorem disqualified_record_without_origin_counts_twice
    (pageInteraction : string -> nat -> Eff World unit) (w : World)
    (record : Company.t) :
  deadline w = None ->
  find Db.syncable (company w) = Some record ->
  Company.servicesOffered record = [] ->
  existsb (originOf record) (placeEntry w) = false ->
  exists w',
    SyncCrmRunner.processOneRecord pageInteraction w
    = (Success {| continue := true |}, w')
    /\ company w' = Db.deleteFirst (Db.hasId (Company.id record)) (company w)
    /\ S (List.length (company w')) = List.length (company w)
    /\ placeEntry w' = placeEntry w
    /\ recordsProcessed (metrics w') = recordsProcessed (metrics w) + 1
    /\ recordsSkipped (metrics w') = recordsSkipped (metrics w) + 1
    /\ recordsFailed (metrics w') = recordsFailed (metrics w) + 1
    /\ recordsTimedOut (metrics w') = recordsTimedOut (metrics w)
    /\ successCount (metrics w') = successCount (metrics w) - 1
    /\ processingDuration (metrics w') = 0 :: processingDuration (metrics w)
    /\ countLog "Error processing record" (logs w')
       = S (countLog "Error processing record" (logs w))
    /\ countLog "Skipped record processed" (logs w')
       = countLog "Skipped record processed" (logs w).
Proof.
  intros Hd Hf Hs Ho.
  assert (He : existsb (Db.hasId (Company.id record)) (company w) = true).
  { apply (find_existsb _ _ _ Hf). unfold Db.hasId. apply String.eqb_refl. }
  destruct w as [t dl pes cos m lg b]. fields. subst dl.
  run. rewrite Hf. run. rewrite Hs. run. rewrite He. run.
  change (fun r : PlaceEntry.t =>
            (PlaceEntry.name r =? Company.name record)%string
            && (PlaceEntry.url r =? Company.websiteUrl record)%string)
    with (originOf record).
  rewrite Ho. run. unfold elapse. run. rewrite Z.sub_diag.
  eexists. split; [reflexivity|]. fields. unfold successCount.
  destruct m as [p f s t0 ds]; cbn [observe bump recordsSkipped recordsProcessed recordsFailed
    recordsTimedOut processingDuration].
  repeat split; try lia.
  apply deleteFirst_length. exact He.
Qed.

Lemma disqualified_record_without_origin_counts_twice_witness :
  exists w',
    SyncCrmRunner.processOneRecord (fun _ => alwaysDown) orphanBacklog
    = (Success {| continue := true |}, w')
    /\ company w' = []
    /\ successCount (metrics w') = -1.
Proof.
  destruct (@disqualified_record_without_origin_counts_twice (fun _ => alwaysDown)
              orphanBacklog emptyCompany eq_refl eq_refl eq_refl eq_refl)
    as (w' & E & Hc & _ & _ & _ & _ & _ & _ & Hs & _).
  exists w'. split; [exact E|]. split; [exact Hc | exact Hs].
Defined.

Lemma updateFirst_syncs (record : Company.t) (s : bool) (cos : list Company.t) :
  NoDup (List.map Company.id cos) ->
  find Db.syncable cos = Some record ->
  filter Db.syncable
    (Db.updateFirst (Db.hasId (Company.id record)) (Company.withCrmSyncEvent s) cos)
  = List.tl (filter Db.syncable cos)
  /\ List.hd_error (filter Db.syncable cos) = Some record
  /\ In (Company.withCrmSyncEvent s record)
        (Db.updateFirst (Db.hasId (Company.id record)) (Company.withCrmSyncEvent s) cos).
Proof.
  induction cos as [|r cos IH]; cbn [find]; [discriminate|].
  intros Hnd Hf. inversion Hnd as [|? ? Hnotin Hnd']; subst.
  cbn [Db.updateFirst filter]. unfold Db.hasId at 1 3.
  destruct (Db.syncable r) eqn:Hu.
  - injection Hf as ->. rewrite String.eqb_refl.
    cbn [filter List.tl List.hd_error]. split; [|split; [reflexivity | left; reflexivity]].
    unfold Db.syncable at 1. destruct record; reflexivity.
  - destruct (String.eqb_spec (Company.id r) (Company.id record)) as [Heq|Hneq].
    + exfalso. apply Hnotin. rewrite Heq. apply in_map.
      apply find_some in Hf. apply Hf.
    + cbn [filter]. rewrite Hu. destruct (IH Hnd' Hf) as (H1 & H2 & H3).
      split; [exact H1|]. split; [exact H2|]. right. exact H3.
Qed.

(** X13.  A sync workflow that ends before the runner's 3 minutes are over,
    with a success or with a typed failure, and has left the store
    alone: the
    company gets a sync event of status [true] or [false] and leaves the
    selection (with distinct ids it was the first company to sync, and
    the companies to sync after the iteration are the others, in order);
    [recordsFailed] goes up for a failure only. *)
Theorem ended_sync_records_the_event
    (pageInteraction : string -> nat -> Eff World unit) (w : World)
    (record : Company.t) (r : Exit unit) (result : bool) :
  deadline w = None ->
  NoDup (List.map Company.id (company w)) ->
  find Db.syncable (company w) = Some record ->
  Company.servicesOffered record <> [] ->
  (r = Success tt /\ result = true)
  \/ (exists e, r = Failure e /\ isTimeoutException e = false /\ result = false) ->
  (forall w1, sameRun w w1 ->
     let run := timeout 180000
                  (SyncCrm.SyncCrmplaceDetailWorkflow_execute pageInteraction
                     {| SyncCrmplaceDetailWorkflow.id := Company.id record |}) w1 in
     fst run = r /\ sameStore w1 (snd run) /\ now (snd run) < now w1 + 180000) ->
  exists w',
    SyncCrmRunner.processOneRecord pageInteraction w
    = (Success {| continue := true |}, w')
    /\ company w'
       = Db.updateFirst (Db.hasId (Company.id record))
           (Company.withCrmSyncEvent result) (company w)
    /\ In (Company.withCrmSyncEvent result record) (company w')
    /\ List.hd_error (unsynced w) = Some record
    /\ unsynced w' = List.tl (unsynced w)
    /\ placeEntry w' = placeEntry w
    /\ recordsProcessed (metrics w') = recordsProcessed (metrics w) + 1
    /\ recordsFailed (metrics w')
       = recordsFailed (metrics w) + (if result then 0 else 1)
    /\ recordsSkipped (metrics w') = recordsSkipped (metrics w)
    /\ recordsTimedOut (metrics w') = recordsTimedOut (metrics w).
Proof.
  intros Hd Hnd Hf Hs Hr Ht.
  assert (He : existsb (Db.hasId (Company.id record)) (company w) = true).
  { apply (find_existsb _ _ _ Hf). unfold Db.hasId. apply String.eqb_refl. }
  destruct (@updateFirst_syncs record result (company w) Hnd Hf) as (Htl & Hhd & Hin).
  destruct w as [t dl pes cos m lg b]. fields. subst dl.
  destruct (Company.servicesOffered record) as [|s ss] eqn:Es; [congruence|].
  run. rewrite Hf. run. rewrite Es. run. unfold SyncCrmRunner.runWorkflow. run.
  match goal with |- context [timeout 180000 ?wf ?w1] =>
    destruct (Ht w1 ltac:(repeat split)) as (Hx & Hst & _);
    pose proof (timeout_restores_deadline 180000 wf w1) as Hdl;
    destruct (timeout 180000 wf w1) as [r' w2]
  end.
  cbn [fst snd] in Hx, Hst, Hdl. subst r'.
  destruct w2 as [t2 dl2 pes2 cos2 m2 lg2 b2].
  destruct Hst as (Hc & Hp & Hm). fields. subst dl2 pes2 m2 cos2.
  unfold unsynced. fields.
  destruct Hr as [[-> ->] | (e & -> & Hne & ->)].
  - run. rewrite He. run. unfold elapse. run.
    eexists. split; [reflexivity|]. fields. destruct m as [p f s0 t0 ds]. cbn.
    repeat split; try assumption; lia.
  - run. unfold isTimeoutException in Hne. rewrite Hne. run. rewrite He. run.
    unfold elapse. run.
    eexists. split; [reflexivity|]. fields. destruct m as [p f s0 t0 ds]. cbn.
    repeat split; try assumption; lia.
Qed.

Lemma crmReady_distinct : NoDup (List.map Company.id (company crmReady)).
Proof. cbn. apply NoDup_cons; [intros [] | apply NoDup_nil]. Defined.

Lemma crm_always_down (w1 : World) :
  sameRun crmReady w1 ->
  let run := timeout 180000
               (SyncCrm.SyncCrmplaceDetailWorkflow_execute (fun _ => alwaysDown)
                  {| SyncCrmplaceDetailWorkflow.id := Company.id readyCompany |}) w1 in
  fst run = Failure (SyncCrmError "CRM is down")
  /\ sameStore w1 (snd run) /\ now (snd run) < now w1 + 180000.
Proof.
  intros (Hn & Hd & Hc & Hb). destruct w1 as [t dl pes cos m lg b].
  fields. subst t dl cos b. vm_compute. repeat split.
Defined.

Lemma ended_sync_records_the_event_witness :
  exists w',
    SyncCrmRunner.processOneRecord (fun _ => alwaysDown) crmReady
    = (Success {| continue := true |}, w')
    /\ company w' = [Company.withCrmSyncEvent false readyCompany]
    /\ unsynced w' = [].
Proof.
  destruct (@ended_sync_records_the_event (fun _ => alwaysDown) crmReady readyCompany
              (Failure (SyncCrmError "CRM is down")) false
              eq_refl crmReady_distinct eq_refl ltac:(discriminate)
              (or_intror (ex_intro _ (SyncCrmError "CRM is down")
                            (conj eq_refl (conj eq_refl eq_refl))))
              crm_always_down)
    as (w' & E & Hc & _ & _ & Hu & _).
  exists w'. split; [exact E|]. split; [rewrite Hc; reflexivity | rewrite Hu; reflexivity].
Defined.

(* ------------------------------------------------------------------ *)
(** ** What the runtime leaves alone

    The combinators only move the clock, the deadline and the log: a
    relation between worlds that does not look at these three is left
    by a composed effect as soon as its parts leave it. *)

Section Frame.
Variable R : World -> World -> Prop.
Hypothesis R_refl : forall w, R w w.
Hypothesis R_trans : forall a b c, R a b -> R b c -> R a c.
Hypothesis R_now : forall v w, R w (set_now v w).
Hypothesis R_deadline : forall v w, R w (set_deadline v w).
Hypothesis R_logs : forall v w, R w (set_logs v w).

Lemma preserves_succeed {A} (a : A) : preserves R (succeed a).
Proof. intros w. apply R_refl. Qed.

Lemma preserves_fail {A} e : preserves R (@fail World A e).
Proof. intros w. apply R_refl. Qed.

Lemma preserves_bind {A B} (m : Eff World A) (k : A -> Eff World B) :
  preserves R m -> (forall a, preserves R (k a)) -> preserves R (bind m k).
Proof.
  intros Hm Hk w. unfold bind. specialize (Hm w).
  destruct (m w) as [[a|e|d| |] w1]; cbn [snd] in *; try exact Hm.
  eapply R_trans; [exact Hm | apply Hk].
Qed.

Lemma preserves_elapse d : preserves R (elapse d).
Proof.
  intros w. unfold elapse. destruct (deadline w) as [dl|].
  - destruct (dl <? now w + d); apply R_now.
  - apply R_now.
Qed.

Lemma preserves_pause d : preserves R (pause d).
Proof.
  unfold pause. destruct (d <=? 0); [apply preserves_succeed | apply preserves_elapse].
Qed.

Lemma preserves_logLine l t a : preserves R (logLine l t a).
Proof. intros w. apply R_logs. Qed.

Lemma preserves_mapError {A} f (m : Eff World A) :
  preserves R m -> preserves R (mapError f m).
Proof.
  intros Hm w. unfold mapError. specialize (Hm w).
  destruct (m w) as [[a|e|d| |] w1]; exact Hm.
Qed.

Lemma preserves_tapError {A} (f : Err -> World -> World) (m : Eff World A) :
  preserves R m -> (forall e w, R w (f e w)) -> preserves R (tapError f m).
Proof.
  intros Hm Hf w. unfold tapError. specialize (Hm w).
  destruct (m w) as [[a|e|d| |] w1]; cbn [snd] in *; try exact Hm.
  eapply R_trans; [exact Hm | apply Hf].
Qed.

Lemma preserves_catchTag {A} tag (m : Eff World A) (h : Err -> Eff World A) :
  preserves R m -> (forall e, preserves R (h e)) -> preserves R (catchTag tag m h).
Proof.
  intros Hm Hh w. unfold catchTag. specialize (Hm w).
  destruct (m w) as [[a|e|d| |] w1]; cbn [snd] in *; try exact Hm.
  destruct (tag e); [|exact Hm].
  eapply R_trans; [exact Hm | apply Hh].
Qed.

Lemma preserves_timeout {A} d (m : Eff World A) :
  preserves R m -> preserves R (timeout d m).
Proof.
  intros Hm w. unfold timeout.
  match goal with |- context [m ?w0] => specialize (Hm w0); destruct (m w0) as [r w1] end.
  cbn [snd] in Hm.
  assert (R w (set_deadline (deadline w) w1)).
  { eapply R_trans; [apply R_deadline|].
    eapply R_trans; [exact Hm | apply R_deadline]. }
  destruct r; try assumption.
  destruct (match deadline w with Some o => now w + d <? o | None => true end); assumption.
Qed.

Lemma preserves_uninterruptible {A} (m : Eff World A) :
  preserves R m -> preserves R (uninterruptible m).
Proof.
  intros Hm w. unfold uninterruptible.
  specialize (Hm (set_deadline None w)). destruct (m (set_deadline None w)) as [r w1].
  cbn [snd] in *.
  eapply R_trans; [apply R_deadline|].
  eapply R_trans; [exact Hm | apply R_deadline].
Qed.

Lemma preserves_retryFrom {A} s left i (eff : nat -> Eff World A) :
  (forall j, preserves R (eff j)) -> preserves R (retryFrom s left i eff).
Proof.
  intros He. revert i. induction left as [|left IH]; intros i w; cbn [retryFrom].
  - specialize (He i w). destruct (eff i w) as [[a|e|d| |] w1]; exact He.
  - pose proof (He i w) as Hu.
    destruct (eff i w) as [[a|e|d| |] w1]; cbn [snd] in *; try exact Hu.
    assert (Hb : preserves R (bind (pause (delay s i))
                                (fun _ => retryFrom s left (S i) eff))).
    { apply preserves_bind; [|intros _; apply IH].
      change (preserves R (pause (delay s i))). apply preserves_pause. }
    eapply R_trans; [exact Hu | apply Hb].
Qed.

Lemma preserves_closeScope fs ok :
  preservesAll R fs -> preserves R (closeScope fs ok).
Proof.
  induction fs as [|f fs IH]; intros Hfs w; cbn [closeScope].
  - apply R_refl.
  - inversion Hfs as [|? ? Hf Hrest]; subst.
    specialize (Hf ok w). destruct (f ok w) as [r w1].
    specialize (IH Hrest w1). destruct (closeScope fs ok w1) as [r' w2].
    cbn [snd] in *. eapply R_trans; eassumption.
Qed.

Lemma preserves_scoped {A} (body : Scoped A) :
  preservesS R body -> preserves R (scoped body).
Proof.
  intros Hb w. unfold scoped. destruct (Hb [] w (Forall_nil _)) as [Hu Hf].
  unfold Scope in *.
  destruct (body ([], w)) as [r [fs w1]]. cbn [fst snd] in *.
  pose proof (preserves_uninterruptible
                (preserves_closeScope (isSuccess r) Hf) w1) as Hc.
  destruct (uninterruptible (closeScope fs (isSuccess r)) w1) as [rf w2].
  cbn [snd] in Hc.
  destruct r; cbn [snd]; try exact Hu; eapply R_trans; eassumption.
Qed.

Lemma preservesS_lift {A} (m : Eff World A) :
  preserves R m -> preservesS R (lift m).
Proof.
  intros Hm fs w Hfs. unfold lift. specialize (Hm w).
  destruct (m w) as [r w1]. cbn [fst snd] in *. split; assumption.
Qed.

Lemma preservesS_succeed {A} (a : A) : preservesS R (succeed a).
Proof. intros fs w Hfs. split; [apply R_refl | exact Hfs]. Qed.

Lemma preservesS_bind {A B} (m : Scoped A) (k : A -> Scoped B) :
  preservesS R m -> (forall a, preservesS R (k a)) -> preservesS R (bind m k).
Proof.
  intros Hm Hk fs w Hfs. unfold bind. destruct (Hm fs w Hfs) as [Hu Hf].
  destruct (m (fs, w)) as [[a|e|d| |] [fs1 w1]]; cbn [fst snd] in *;
    try (split; assumption).
  destruct (Hk a fs1 w1 Hf) as [Hu' Hf'].
  split; [eapply R_trans; eassumption | exact Hf'].
Qed.

Lemma preservesS_addFinalizer (f : Finalizer) :
  (forall ok, preserves R (f ok)) -> preservesS R (addFinalizer f).
Proof.
  intros Hf fs w Hfs. unfold addFinalizer. cbn [fst snd].
  split; [apply R_refl | constructor; assumption].
Qed.

(** The sync workflow leaves what its page interaction leaves. *)
Lemma preserves_sync_workflow (pageInteraction : string -> nat -> Eff World unit)
    (payload : SyncCrmplaceDetailWorkflow.Payload) :
  (forall i n, preserves R (pageInteraction i n)) ->
  preserves R (SyncCrm.SyncCrmplaceDetailWorkflow_execute pageInteraction payload).
Proof.
  intros Hp.
  unfold SyncCrm.SyncCrmplaceDetailWorkflow_execute, Workflow.execute.
  apply preserves_scoped. apply preservesS_bind.
  - unfold SyncCrm.syncCrm, Workflow.withCompensation.
    apply preservesS_bind.
    { apply preservesS_lift. unfold Activity.retry. apply preserves_retryFrom.
      intros j. apply preserves_mapError. apply preserves_tapError; [apply Hp|].
      intros e w. apply (preserves_logLine LogError "Activity failed with error" None w). }
    intros a. apply preservesS_bind; [|intros _; apply preservesS_succeed].
    apply preservesS_addFinalizer. intros [|]; [apply preserves_succeed|].
    unfold SyncCrm.compensation.
    repeat (apply preserves_bind; [apply preserves_logLine | intros _]).
    apply preserves_logLine.
  - intros _. apply preservesS_lift, preserves_logLine.
Qed.

(** So does the query for the next company, with its retries. *)
Lemma preserves_crm_fetchNextRecord :
  preserves R SyncCrmRunner.fetchNextRecord.
Proof.
  unfold SyncCrmRunner.fetchNextRecord. apply preserves_catchTag.
  - unfold retry. change (recurrences emptyBacklogPolicy) with (Some 5%nat).
    cbv beta iota. apply preserves_retryFrom. intros _.
    unfold SyncCrmRunner.queryNext.
    apply preserves_bind; [apply preserves_logLine|]. intros _.
    apply preserves_bind; [intros w; apply R_refl|]. intros [r|].
    + apply preserves_succeed.
    + apply preserves_bind; [apply preserves_logLine|]. intros _. apply preserves_fail.
  - intros e. apply preserves_bind; [apply preserves_logLine|]. intros _.
    apply preserves_succeed.
Qed.

(** A loop leaves what each of its iterations leaves. *)
Lemma preserves_loop (body : Eff World LoopState) (fuel : nat) :
  preserves R body ->
  preserves R (loop fuel {| continue := true |} (fun state => continue state)
                 (fun state => state) (fun _ => body)).
Proof.
  intros Hb. induction fuel as [|fuel IH]; intros w; cbn [loop continue].
  - apply R_refl.
  - unfold bind at 1. pose proof (Hb w) as Hi.
    destruct (body w) as [[a|e|d| |] w1]; cbn [snd] in *; try exact Hi.
    specialize (IH w1). unfold map, bind.
    destruct (loop fuel {| continue := true |} (fun state => continue state)
                (fun state => state) (fun _ => body) w1) as [[l|e|d| |] w2];
      cbn [snd] in *; unfold succeed; cbn [snd];
      eapply R_trans; eassumption.
Qed.
End Frame.

(* ------------------------------------------------------------------ *)
(** ** What every run of the CRM runner keeps *)

Lemma sameStore_refl (w : World) : sameStore w w.
Proof. repeat split. Qed.

Lemma sameStore_trans (a b c : World) : sameStore a b -> sameStore b c -> sameStore a c.
Proof. intros (?&?&?) (?&?&?). repeat split; etransitivity; eassumption. Qed.

Lemma synced_refl (l : list Company.t) : synced l l.
Proof. induction l; constructor; assumption. Qed.

Lemma withCrmSyncEvent_settles (s : bool) (c : Company.t) :
  Db.syncable (Company.withCrmSyncEvent s c) = false
  /\ Company.id (Company.withCrmSyncEvent s c) = Company.id c.
Proof. destruct c. split; reflexivity. Qed.

Lemma synced_trans (a b c : list Company.t) : synced a b -> synced b c -> synced a c.
Proof.
  intros Hab. revert c. induction Hab as [|x l l' Hl IH|x s l l' Hx Hs Hl IH|x l l' Hx Hs Hl IH];
    intros c Hbc.
  - exact Hbc.
  - inversion Hbc as [|? ? c' Hc|? s' ? c' Hx' Hs' Hc|? ? c' Hx' Hs' Hc]; subst.
    + apply synced_same. apply IH. exact Hc.
    + apply synced_event; [assumption..|]. apply IH. exact Hc.
    + apply synced_deleted; [assumption..|]. apply IH. exact Hc.
  - pose proof (withCrmSyncEvent_settles s x) as [Hno _].
    inversion Hbc as [|? ? c' Hc|? s' ? c' Hx' Hs' Hc|? ? c' Hx' Hs' Hc]; subst;
      try congruence.
    apply synced_event; [assumption..|]. apply IH. exact Hc.
  - apply synced_deleted; [assumption..|]. apply IH. exact Hbc.
Qed.

(** No company is added: every company of the later table has the id
    of a company of the earlier one. *)
Lemma synced_ids (l l' : list Company.t) (c' : Company.t) :
  synced l l' -> In c' l' -> exists c, In c l /\ Company.id c' = Company.id c.
Proof.
  induction 1 as [|x l l' Hl IH|x s l l' Hx Hs Hl IH|x l l' Hx Hs Hl IH];
    cbn [In]; [contradiction| | |].
  - intros [<- | H]; [exists x; split; [left|]; reflexivity|].
    destruct (IH H) as (c & Hc & E). exists c. split; [right|]; assumption.
  - intros [<- | H].
    + exists x. split; [left; reflexivity|]. apply withCrmSyncEvent_settles.
    + destruct (IH H) as (c & Hc & E). exists c. split; [right|]; assumption.
  - intros H. destruct (IH H) as (c & Hc & E). exists c. split; [right|]; assumption.
Qed.

Lemma synced_NoDup (l l' : list Company.t) :
  synced l l' -> NoDup (List.map Company.id l) -> NoDup (List.map Company.id l').
Proof.
  induction 1 as [|x l l' Hl IH|x s l l' Hx Hs Hl IH|x l l' Hx Hs Hl IH];
    cbn [List.map]; intros Hnd; [exact Hnd| | |];
    inversion Hnd as [|? ? Hnotin Hnd']; subst.
  - constructor; [|exact (IH Hnd')].
    intros Hin. apply in_map_iff in Hin. destruct Hin as (c' & E & Hc').
    destruct (@synced_ids _ _ _ Hl Hc') as (c & Hc & E'). apply Hnotin.
    rewrite <- E, E'. apply in_map. exact Hc.
  - destruct (withCrmSyncEvent_settles s x) as [_ ->].
    constructor; [|exact (IH Hnd')].
    intros Hin. apply in_map_iff in Hin. destruct Hin as (c' & E & Hc').
    destruct (@synced_ids _ _ _ Hl Hc') as (c & Hc & E'). apply Hnotin.
    rewrite <- E, E'. apply in_map. exact Hc.
  - exact (IH Hnd').
Qed.

(** A company the runner cannot select stays as it is. *)
Lemma synced_keeps (l l' : list Company.t) (c : Company.t) :
  synced l l' -> In c l -> Db.syncable c = false -> In c l'.
Proof.
  induction 1 as [|x l l' Hl IH|x s l l' Hx Hs Hl IH|x l l' Hx Hs Hl IH];
    cbn [In]; [contradiction| | |]; intros [-> | Hin] Hno.
  - left. reflexivity.
  - right. exact (IH Hin Hno).
  - congruence.
  - right. exact (IH Hin Hno).
  - congruence.
  - exact (IH Hin Hno).
Qed.

Lemma found_is_first (record : Company.t) (x : Company.t) (cos : list Company.t) :
  NoDup (List.map Company.id (x :: cos)) ->
  find Db.syncable (x :: cos) = Some record ->
  (Company.id x = Company.id record /\ x = record /\ Db.syncable record = true)
  \/ (Company.id x <> Company.id record /\ find Db.syncable cos = Some record).
Proof.
  cbn [find List.map]. intros Hnd Hf. inversion Hnd as [|? ? Hnotin Hnd']; subst.
  destruct (Db.syncable x) eqn:Hx.
  - injection Hf as ->. left. repeat split. exact Hx.
  - right. split; [|exact Hf]. intros Heq. apply Hnotin. rewrite Heq.
    apply in_map. apply find_some in Hf. apply Hf.
Qed.

Lemma deleteFirst_synced (record : Company.t) (cos : list Company.t) :
  NoDup (List.map Company.id cos) ->
  find Db.syncable cos = Some record ->
  Company.servicesOffered record = [] ->
  synced cos (Db.deleteFirst (Db.hasId (Company.id record)) cos).
Proof.
  intros Hnd Hf Hs. induction cos as [|x cos IH]; [discriminate|].
  cbn [Db.deleteFirst]. unfold Db.hasId at 1.
  destruct (@found_is_first _ _ _ Hnd Hf) as [(Heq & -> & Hx) | (Hneq & Hf')].
  - rewrite String.eqb_refl. apply synced_deleted; [assumption..|apply synced_refl].
  - destruct (String.eqb_spec (Company.id x) (Company.id record)); [contradiction|].
    apply synced_same. apply IH; [|exact Hf'].
    inversion Hnd; assumption.
Qed.

Lemma updateFirst_synced (record : Company.t) (status : bool) (cos : list Company.t) :
  NoDup (List.map Company.id cos) ->
  find Db.syncable cos = Some record ->
  Company.servicesOffered record <> [] ->
  synced cos
    (Db.updateFirst (Db.hasId (Company.id record)) (Company.withCrmSyncEvent status) cos).
Proof.
  intros Hnd Hf Hs. induction cos as [|x cos IH]; [discriminate|].
  cbn [Db.updateFirst]. unfold Db.hasId at 1.
  destruct (@found_is_first _ _ _ Hnd Hf) as [(Heq & -> & Hx) | (Hneq & Hf')].
  - rewrite String.eqb_refl. apply synced_event; [assumption..|apply synced_refl].
  - destruct (String.eqb_spec (Company.id x) (Company.id record)); [contradiction|].
    apply synced_same. apply IH; [|exact Hf'].
    inversion Hnd; assumption.
Qed.

Lemma released_refl (pes : list PlaceEntry.t) : released pes pes.
Proof. induction pes; constructor; [left; reflexivity | assumption]. Qed.

Lemma released_trans (a b c : list PlaceEntry.t) :
  released a b -> released b c -> released a c.
Proof.
  intros Hab. revert c. induction Hab as [|x y a b Hxy Hab IH]; intros c Hbc.
  - inversion Hbc. constructor.
  - inversion Hbc as [|? z ? c' Hyz Hbc']; subst. constructor; [|apply IH; exact Hbc'].
    destruct Hxy as [-> | ->], Hyz as [-> | ->]; auto.
Qed.

Lemma updateFirst_released (p : PlaceEntry.t -> bool) (pes : list PlaceEntry.t) :
  released pes (Db.updateFirst p (PlaceEntry.withStatus None) pes).
Proof.
  induction pes as [|x pes IH]; cbn [Db.updateFirst]; [constructor|].
  destruct (p x); constructor; auto; apply released_refl.
Qed.

Lemma crmTallied_refl (m : Metrics) : crmTallied m m.
Proof. unfold crmTallied. repeat split; lia. Qed.

Lemma crmTallied_trans (a b c : Metrics) :
  crmTallied a b -> crmTallied b c -> crmTallied a c.
Proof. unfold crmTallied. intros (?&?&?&?) (?&?&?&?). repeat split; lia. Qed.

Lemma crmStep_refl (w : World) : crmStep w w.
Proof.
  split; [apply crmTallied_refl|]. split; [apply released_refl|].
  intros _. apply synced_refl.
Qed.

Lemma crmStep_trans (a b c : World) : crmStep a b -> crmStep b c -> crmStep a c.
Proof.
  intros (Ht & Hr & Hs) (Ht' & Hr' & Hs').
  split; [eapply crmTallied_trans; eassumption|].
  split; [eapply released_trans; eassumption|].
  intros Hnd. specialize (Hs Hnd). eapply synced_trans; [exact Hs|].
  apply Hs'. exact (@synced_NoDup _ _ Hs Hnd).
Qed.

Lemma crmStep_sameStore (a b : World) : sameStore a b -> crmStep a b.
Proof.
  intros (Hc & Hp & Hm). unfold crmStep. rewrite Hc, Hp, Hm.
  split; [apply crmTallied_refl|]. split; [apply released_refl|].
  intros _. apply synced_refl.
Qed.

Lemma crm_queryNext_empty (pageInteraction : string -> nat -> Eff World unit)
    (w0 : World) :
  find Db.syncable (company w0) = None ->
  fst (SyncCrmRunner.queryNext w0) = Failure NoMoreRecords
  /\ company (snd (SyncCrmRunner.queryNext w0)) = company w0.
Proof.
  destruct w0 as [t dl pes cos m lg b]. fields. intros Hf.
  unfold SyncCrmRunner.queryNext. run. rewrite Hf. run. split; reflexivity.
Qed.

Lemma crm_fetchNextRecord_finds (w : World) (record : Company.t) :
  fst (SyncCrmRunner.fetchNextRecord w) = Success (Some record) ->
  find Db.syncable (company w) = Some record.
Proof.
  unfold SyncCrmRunner.fetchNextRecord, catchTag, retry.
  change (recurrences emptyBacklogPolicy) with (Some 5%nat). cbv beta iota.
  destruct (find Db.syncable (company w)) as [r|] eqn:Hf.
  - cbn [retryFrom]. destruct w as [t dl pes cos m lg b]. fields.
    unfold SyncCrmRunner.queryNext at 1.
    run. rewrite Hf. run. intros H. injection H as ->. reflexivity.
  - intros H. exfalso. revert H.
    assert (Hr : forall left i w0, find Db.syncable (company w0) = None ->
              forall x, fst (retryFrom emptyBacklogPolicy left i
                               (fun _ => SyncCrmRunner.queryNext) w0) <> Success x).
    { induction left as [|left IH]; intros i w0 H0 x; cbn [retryFrom];
        destruct (crm_queryNext_empty (fun _ _ => succeed tt) w0 H0) as [Hq1 Hq2];
        destruct (SyncCrmRunner.queryNext w0) as [r w1]; cbn [fst snd] in *; subst r.
      - discriminate.
      - unfold bind, pause.
        destruct (delay emptyBacklogPolicy i <=? 0).
        + unfold succeed. apply IH. rewrite Hq2. exact H0.
        + cbn [sleep World_Clock].
          assert (Hk : company (snd (elapse (delay emptyBacklogPolicy i) w1))
                       = company w1).
          { unfold elapse. destruct (deadline w1) as [dl|];
              [destruct (dl <? now w1 + delay emptyBacklogPolicy i)|]; reflexivity. }
          destruct (elapse (delay emptyBacklogPolicy i) w1) as [[[]|e|d| |] w2];
            cbn [fst snd] in *; try discriminate.
          apply IH. rewrite Hk, Hq2. exact H0. }
    specialize (Hr 5%nat 0%nat w Hf).
    destruct (retryFrom emptyBacklogPolicy 5 0 (fun _ => SyncCrmRunner.queryNext) w)
      as [[x|e|d| |] w1]; cbn [fst] in *; try discriminate.
    + exfalso. exact (Hr x eq_refl).
    + destruct (isNoMoreRecords e); [|discriminate].
      unfold bind, log, logLine, sync, succeed. cbn [fst]. discriminate.
Qed.

Lemma sameStore_workflow (pageInteraction : string -> nat -> Eff World unit)
    (payload : SyncCrmplaceDetailWorkflow.Payload) :
  (forall i n, preserves sameStore (pageInteraction i n)) ->
  preserves sameStore
    (timeout 180000
       (SyncCrm.SyncCrmplaceDetailWorkflow_execute pageInteraction payload)).
Proof.
  intros Hp.
  apply preserves_timeout; [exact sameStore_trans | intros v w; repeat split|].
  apply preserves_sync_workflow;
    first [ exact sameStore_refl | exact sameStore_trans | exact Hp
          | intros v w; repeat split ].
Qed.

(** What the runner does with a company it selected, whatever the
    workflow does. *)
Lemma crm_processClaimed_step (pageInteraction : string -> nat -> Eff World unit)
    (record : Company.t) (startTime : Z) (w : World) :
  (forall i n, preserves sameStore (pageInteraction i n)) ->
  find Db.syncable (company w) = Some record ->
  let w' := snd (SyncCrmRunner.processClaimed pageInteraction record startTime w) in
  recordsProcessed (metrics w') = recordsProcessed (metrics w)
  /\ 0 <= recordsTimedOut (metrics w') - recordsTimedOut (metrics w)
  /\ recordsTimedOut (metrics w') - recordsTimedOut (metrics w)
     <= recordsFailed (metrics w') - recordsFailed (metrics w)
  /\ recordsFailed (metrics w') - recordsFailed (metrics w) <= 1
  /\ (0 <= recordsSkipped (metrics w') - recordsSkipped (metrics w)
      /\ (recordsTimedOut (metrics w') - recordsTimedOut (metrics w))
         + (recordsSkipped (metrics w') - recordsSkipped (metrics w)) <= 1)
  /\ released (placeEntry w) (placeEntry w')
  /\ (NoDup (List.map Company.id (company w)) -> synced (company w) (company w')).
Proof.
  intros Hp Hf w'. subst w'.
  assert (He : existsb (Db.hasId (Company.id record)) (company w) = true).
  { apply (find_existsb _ _ _ Hf). unfold Db.hasId. apply String.eqb_refl. }
  destruct w as [t dl pes cos m lg b]. fields.
  destruct (Company.servicesOffered record) as [|s ss] eqn:Es.
  - run. rewrite Es. run. rewrite He. run.
    match goal with |- context [existsb ?p pes] => destruct (existsb p pes) end;
      run; destruct m as [p f s t0 ds]; cbn;
      (repeat split; try lia;
       [ first [apply updateFirst_released | apply released_refl]
       | intros Hnd; apply deleteFirst_synced; assumption ]).
  - run. rewrite Es. run. unfold SyncCrmRunner.runWorkflow. run.
    match goal with |- context [timeout 180000 ?wf ?w1] =>
      pose proof (@sameStore_workflow pageInteraction
                    {| SyncCrmplaceDetailWorkflow.id := Company.id record |} Hp w1)
        as Hst;
      destruct (timeout 180000 wf w1) as [r w2]
    end.
    destruct w2 as [t2 dl2 pes2 cos2 m2 lg2 b2].
    destruct Hst as (Hc & Hpe & Hm). fields. subst pes2 m2 cos2.
    assert (Hev : forall status,
              NoDup (List.map Company.id cos) ->
              synced cos (Db.updateFirst (Db.hasId (Company.id record))
                            (Company.withCrmSyncEvent status) cos)).
    { intros status Hnd. apply updateFirst_synced; [assumption..|]. congruence. }
    destruct r as [[]|e|d| |]; run.
    + rewrite He. run. destruct m as [p f s0 t0 ds]; cbn.
      repeat split; try lia; [apply released_refl | apply Hev].
    + destruct e; run; try (rewrite He; run); destruct m as [p f s0 t0 ds]; cbn;
        (repeat split; try lia;
         [ apply released_refl | first [apply Hev | intros _; apply synced_refl] ]).
    + destruct m as [p f s0 t0 ds]; cbn.
      repeat split; try lia; [apply released_refl | intros _; apply synced_refl].
    + destruct m as [p f s0 t0 ds]; cbn.
      repeat split; try lia; [apply released_refl | intros _; apply synced_refl].
    + destruct m as [p f s0 t0 ds]; cbn.
      repeat split; try lia; [apply released_refl | intros _; apply synced_refl].
Qed.

(** One iteration, whatever the workflow does and whatever deadline it
    runs under. *)
Lemma crm_iteration_step (pageInteraction : string -> nat -> Eff World unit) :
  (forall i n, preserves sameStore (pageInteraction i n)) ->
  preserves crmStep (SyncCrmRunner.processOneRecord pageInteraction).
Proof.
  intros Hp w.
  set (w' := snd (SyncCrmRunner.processOneRecord pageInteraction w)).
  assert (E : w' = snd (SyncCrmRunner.processOneRecord pageInteraction w)) by reflexivity.
  clearbody w'. unfold SyncCrmRunner.processOneRecord in E.
  unfold bind at 1 in E. unfold log at 1, logLine at 1, sync at 1 in E.
  unfold bind at 1 in E. unfold Date_now at 1 in E.
  unfold bind at 1 in E.
  match type of E with context [SyncCrmRunner.fetchNextRecord ?w0] =>
    assert (Hk : sameStore w0 (snd (SyncCrmRunner.fetchNextRecord w0)))
      by (apply preserves_crm_fetchNextRecord;
          first [ exact sameStore_refl | exact sameStore_trans
                | intros v w1; repeat split ]);
    pose proof (@crm_fetchNextRecord_finds w0) as Hfind;
    destruct (SyncCrmRunner.fetchNextRecord w0) as [r1 w1]
  end.
  destruct Hk as (Hk1 & Hk2 & Hk3).
  cbn [fst snd placeEntry metrics company set_logs] in Hk1, Hk2, Hk3, Hfind.
  assert (Hsame : sameStore w w1) by (repeat split; assumption).
  destruct r1 as [[record|]|e|d| |];
    [ | unfold succeed in E | | | | ]; cbn [snd] in E;
    try (subst w'; apply crmStep_sameStore; exact Hsame).
  specialize (Hfind record eq_refl).
  unfold bind at 1 in E. unfold Metric_increment at 1, sync at 1 in E.
  unfold bind at 1 in E. unfold logLine at 1, sync at 1 in E.
  unfold bind at 1 in E.
  match type of E with
    context [SyncCrmRunner.processClaimed pageInteraction record ?st ?w3] =>
    pose proof (@crm_processClaimed_step pageInteraction record st w3 Hp) as Hc;
    destruct (SyncCrmRunner.processClaimed pageInteraction record st w3) as [r w4]
  end.
  cbn [fst snd placeEntry metrics company set_logs set_metrics] in Hc.
  rewrite Hk1, Hk2, Hk3 in Hc. specialize (Hc Hfind).
  destruct Hc as (Hpr & Ht1 & Ht2 & Ht3 & Hs & Hrel & Hsy).
  assert (Hfinal : crmStep w w4).
  { split; [|split; assumption].
    destruct (metrics w) as [p f s t0 ds] eqn:Em.
    cbn [bump recordsProcessed recordsFailed recordsSkipped recordsTimedOut] in *.
    unfold crmTallied. cbn. repeat split; lia. }
  destruct r as [[]|e|d| |]; cbn [snd] in E; try (subst w'; exact Hfinal).
  match type of E with context [snd (?k w4)] =>
    assert (Hkk : preserves sameStore k)
  end.
  { apply preserves_bind;
      [exact sameStore_trans | intros w0; repeat split | intros _].
    apply preserves_bind;
      [exact sameStore_trans | | intros _; intros w0; repeat split].
    intros w0. cbn [sleep World_Clock]. unfold elapse.
    destruct (deadline w0) as [dl|]; [destruct (dl <? now w0 + 3000)|];
      repeat split. }
  specialize (Hkk w4). rewrite <- E in Hkk.
  eapply crmStep_trans; [exact Hfinal | apply crmStep_sameStore; exact Hkk].
Qed.

Lemma crm_run_step (pageInteraction : string -> nat -> Eff World unit) (fuel : nat) :
  (forall i n, preserves sameStore (pageInteraction i n)) ->
  preserves crmStep (SyncCrmRunner.mainProcessingLoop pageInteraction fuel).
Proof.
  intros Hp w.
  set (w' := snd (SyncCrmRunner.mainProcessingLoop pageInteraction fuel w)).
  assert (E : w' = snd (SyncCrmRunner.mainProcessingLoop pageInteraction fuel w))
    by reflexivity.
  clearbody w'. unfold SyncCrmRunner.mainProcessingLoop in E. unfold bind at 1 in E.
  pose proof (@preserves_loop crmStep crmStep_refl crmStep_trans
                (SyncCrmRunner.processOneRecord pageInteraction) fuel
                (@crm_iteration_step pageInteraction Hp) w) as Hl.
  destruct (loop fuel {| continue := true |} (fun state => continue state)
              (fun state => state)
              (fun _ => SyncCrmRunner.processOneRecord pageInteraction) w)
    as [r w1]. cbn [snd] in Hl.
  destruct r as [l|e|d| |]; cbn [snd] in E; subst w'; exact Hl.
Qed.

(** X20.  The company table, over any number of iterations of the CRM runner
    and whatever the workflow answers (the page interaction leaving the
    store alone, and the ids of the companies being distinct): no
    company is added; a company that has a sync event, or no email
    address, is never changed or deleted; the only changes ever made are
    to give a selectable company with services its sync event and to
    delete a selectable company without services; and every row of the
    backlog is kept, with its status reset at most. *)
Theorem crm_run_changes_only_what_it_selects
    (pageInteraction : string -> nat -> Eff World unit) (fuel : nat) (w : World) :
  (forall i n, preserves sameStore (pageInteraction i n)) ->
  NoDup (List.map Company.id (company w)) ->
  let w' := snd (SyncCrmRunner.mainProcessingLoop pageInteraction fuel w) in
  synced (company w) (company w')
  /\ (forall c, In c (company w) -> Db.syncable c = false -> In c (company w'))
  /\ (forall c', In c' (company w') ->
        exists c, In c (company w) /\ Company.id c' = Company.id c)
  /\ released (placeEntry w) (placeEntry w').
Proof.
  intros Hp Hnd w'. destruct (@crm_run_step pageInteraction fuel Hp w) as (_ & Hr & Hs).
  fold w' in Hr, Hs. specialize (Hs Hnd).
  split; [exact Hs|]. split; [|split; [|exact Hr]].
  - intros c. apply synced_keeps. exact Hs.
  - intros c'. apply synced_ids. exact Hs.
Qed.

Lemma alwaysDown_keeps_the_store (i : string) (n : nat) :
  preserves sameStore ((fun _ : string => alwaysDown) i n).
Proof. intros w. repeat split. Defined.

Lemma crmMixed_distinct : NoDup (List.map Company.id (company crmMixed)).
Proof.
  cbn. repeat (apply NoDup_cons;
    [cbn; intros H; decompose [or] H; first [discriminate | contradiction] |]).
  apply NoDup_nil.
Defined.

Lemma crm_run_changes_only_what_it_selects_witness :
  In syncedCompany
    (company (snd (SyncCrmRunner.mainProcessingLoop (fun _ => alwaysDown) 3 crmMixed)))
  /\ In silentCompany
       (company (snd (SyncCrmRunner.mainProcessingLoop (fun _ => alwaysDown) 3 crmMixed))).
Proof.
  destruct (@crm_run_changes_only_what_it_selects (fun _ => alwaysDown) 3 crmMixed
              alwaysDown_keeps_the_store crmMixed_distinct)
    as (_ & Hk & _).
  split; apply Hk; [left; reflexivity | reflexivity
                   | right; left; reflexivity | reflexivity].
Defined.

(** X21.  The counters of the CRM runner, over any number of iterations and
    whatever the workflow answers: between the start and any later
    moment of the run no counter has gone down, every timeout was
    counted as a failure, and timeouts and skipped records together were
    counted no more often than records were processed (a record is
    skipped or handed to the workflow, not both).  So counters that show
    no more timeouts than failures, and no more timeouts and skips than
    processed records, keep doing so. *)
Theorem crm_timeouts_and_skips_stay_within_processed
    (pageInteraction : string -> nat -> Eff World unit) (fuel : nat) (w : World) :
  (forall i n, preserves sameStore (pageInteraction i n)) ->
  let w' := snd (SyncCrmRunner.mainProcessingLoop pageInteraction fuel w) in
  crmTallied (metrics w) (metrics w')
  /\ recordsProcessed (metrics w) <= recordsProcessed (metrics w')
  /\ recordsFailed (metrics w) <= recordsFailed (metrics w')
  /\ (0 <= recordsTimedOut (metrics w) <= recordsFailed (metrics w) ->
      0 <= recordsTimedOut (metrics w') <= recordsFailed (metrics w'))
  /\ (0 <= recordsSkipped (metrics w) ->
      recordsTimedOut (metrics w) + recordsSkipped (metrics w)
      <= recordsProcessed (metrics w) ->
      0 <= recordsSkipped (metrics w')
      /\ recordsTimedOut (metrics w') + recordsSkipped (metrics w')
         <= recordsProcessed (metrics w')).
Proof.
  intros Hp w'. destruct (@crm_run_step pageInteraction fuel Hp w) as (Ht & _ & _).
  fold w' in Ht. split; [exact Ht|]. unfold crmTallied in Ht. repeat split; lia.
Qed.

Lemma crm_timeouts_and_skips_stay_within_processed_witness :
  crmTallied (metrics crmMixed)
    (metrics (snd (SyncCrmRunner.mainProcessingLoop (fun _ => alwaysDown) 3 crmMixed))).
Proof.
  exact (proj1 (@crm_timeouts_and_skips_stay_within_processed (fun _ => alwaysDown) 3
                  crmMixed alwaysDown_keeps_the_store)).
Defined.

(* ------------------------------------------------------------------ *)
(** ** The database layer *)

Ltac layer :=
  cbv beta iota zeta delta
    [bind map succeed fail die sync catchAll catchTag mapError tapError orDie
     ignore coerce retry retryFrom pause delay recurrences sleep World_Clock
     Pair_Clock uninterruptible promise tryPromise logLine log lift elapse
     addFinalizer acquireRelease closeScope isSuccess scoped
     Database.provided Database.PrismaClientLive Database.connecting
     Database.disconnecting Database.connectionPolicy
     now deadline placeEntry company metrics logs browser
     set_now set_deadline set_placeEntry set_company set_metrics set_logs
     set_browser fst snd].

(** X22.  A database that cannot be reached: [prisma.$connect()] is called four
    times (the first try and the three retries of the policy) with 1, 2
    and 4 seconds between the calls, the failure is logged once, and the
    layer fails with the error of the last call.  The program is not
    run, and no disconnect is attempted. *)
Theorem database_connection_gives_up_after_four_tries
    (client : Database.Client) (A : Type) (program : Eff World A) (w : World)
    (url : string) :
  Database.DATABASE_URL client = Some url ->
  deadline w = None ->
  (forall i, (i <= 3)%nat ->
     exists reason, settled (Database.connect client i) = Rejected reason) ->
  exists reason w',
    settled (Database.connect client 3) = Rejected reason
    /\ Database.provided client program w
       = (Failure (UnknownException ("Failed to connect to database: " ++ reason)), w')
    /\ now w'
       = now w + took (Database.connect client 0) + 1000
         + took (Database.connect client 1) + 2000
         + took (Database.connect client 2) + 4000
         + took (Database.connect client 3)
    /\ logs w'
       = {| level := LogError;
            text := "Failed to connect to database after retries";
            about := Some ("Failed to connect to database: " ++ reason)%string |} :: logs w
    /\ sameStore w w'
    /\ browser w' = browser w.
Proof.
  intros Hu Hd Hr.
  destruct (Hr 0%nat ltac:(lia)) as (r0 & H0). destruct (Hr 1%nat ltac:(lia)) as (r1 & H1).
  destruct (Hr 2%nat ltac:(lia)) as (r2 & H2). destruct (Hr 3%nat ltac:(lia)) as (r3 & H3).
  destruct w as [t dl pes cos m lg b]. fields. subst dl.
  exists r3. eexists. split; [exact H3|].
  layer. rewrite Hu. layer. rewrite H0. layer.
  change (Z.max (1000 * 2 ^ Z.of_nat 0) 0 <=? 0) with false.
  change (Z.max (1000 * 2 ^ Z.of_nat 1) 0 <=? 0) with false.
  change (Z.max (1000 * 2 ^ Z.of_nat 2) 0 <=? 0) with false.
  layer. rewrite H1. layer. rewrite H2. layer. rewrite H3. layer.
  change (Z.max (1000 * 2 ^ Z.of_nat 0) 0) with 1000.
  change (Z.max (1000 * 2 ^ Z.of_nat 1) 0) with 2000.
  change (Z.max (1000 * 2 ^ Z.of_nat 2) 0) with 4000.
  cbn [message_of]. split; [reflexivity|]. fields. repeat split.
Qed.

Lemma database_connection_gives_up_after_four_tries_witness :
  exists w',
    Database.provided unreachableDatabase (succeed tt) idle
    = (Failure (UnknownException
                  "Failed to connect to database: Can't reach database server"), w')
    /\ now w' = 7200.
Proof.
  destruct (@database_connection_gives_up_after_four_tries unreachableDatabase unit
              (succeed tt) idle "postgresql://localhost:5432/places" eq_refl eq_refl
              (fun _ _ => ex_intro _ "Can't reach database server" eq_refl))
    as (reason & w' & Hr & E & Hn & _).
  injection Hr as <-. exists w'. split; [exact E | rewrite Hn; reflexivity].
Defined.

(** X23.  Once the connection is made (on the first try or on one of the
    three retries), the program runs, and when its scope closes
    [prisma.$disconnect()] is called once.  A disconnect that is
    rejected is logged as an error and goes no further: whatever the
    program did, its exit is the exit of the whole, and the store is as
    the program left it. *)
Theorem rejected_disconnect_is_only_logged
    (client : Database.Client) (A : Type) (program : Eff World A) (w : World)
    (url : string) (k : nat) :
  Database.DATABASE_URL client = Some url ->
  deadline w = None ->
  (k <= 3)%nat ->
  (forall i, (i < k)%nat ->
     exists reason, settled (Database.connect client i) = Rejected reason) ->
  settled (Database.connect client k) = Resolved tt ->
  (forall w0, fst (program w0) <> Pending) ->
  exists w1,
    logs w1
    = {| level := LogInfo; text := "Database connected successfully"; about := None |}
      :: logs w
    /\ sameStore w w1
    /\ browser w1 = browser w
    /\ deadline w1 = None
    /\ let w2 := snd (program w1) in
       let w' := snd (Database.provided client program w) in
       fst (Database.provided client program w) = fst (program w1)
       /\ now w' = now w2 + took (Database.disconnect client)
       /\ logs w'
          = match settled (Database.disconnect client) with
            | Resolved _ =>
                {| level := LogInfo; text := "Database disconnected"; about := None |}
            | Rejected reason =>
                {| level := LogError; text := "Error during database disconnect";
                   about := Some ("Failed to disconnect from database: " ++ reason)%string |}
            end
            :: {| level := LogInfo; text := "Disconnecting from database...";
                  about := None |}
            :: logs w2
       /\ sameStore w2 w'
       /\ browser w' = browser w2.
Proof.
  intros Hu Hd Hk Hr Hok Hp.
  destruct w as [t dl pes cos m lg b]. fields. subst dl.
  assert (Hend : forall w1 : World,
    let w2 := snd (program w1) in
    let run := scoped
                 (fun st : Scope * World =>
                    let '(r, w0) := program (snd st) in
                    (r, ((fun _ : bool => Database.disconnecting client) :: fst st, w0)))
                 w1 in
    fst run = fst (program w1)
    /\ now (snd run) = now w2 + took (Database.disconnect client)
    /\ logs (snd run)
       = match settled (Database.disconnect client) with
         | Resolved _ =>
             {| level := LogInfo; text := "Database disconnected"; about := None |}
         | Rejected reason =>
             {| level := LogError; text := "Error during database disconnect";
                about := Some ("Failed to disconnect from database: " ++ reason)%string |}
         end
         :: {| level := LogInfo; text := "Disconnecting from database...";
               about := None |}
         :: logs w2
    /\ sameStore w2 (snd run)
    /\ browser (snd run) = browser w2).
  { intros w1. cbv zeta. unfold scoped. cbn [fst snd].
    pose proof (Hp w1) as Hn. destruct (program w1) as [r w2]. cbn [fst snd] in *.
    destruct w2 as [t2 dl2 pes2 cos2 m2 lg2 b2].
    destruct r as [a|e|d| |]; [| | | |congruence]; layer;
      destruct (settled (Database.disconnect client)) as [[]|reason]; layer;
      cbn [message_of]; repeat split. }
  destruct k as [|[|[|[|k]]]]; [| | | |lia].
  - eexists. split; [|split; [|split; [|split]]]; cycle 4.
    + layer. rewrite Hu. layer. rewrite Hok. layer.
      match goal with |- context [program ?w1] => exact (Hend w1) end.
    + reflexivity.
    + repeat split.
    + reflexivity.
    + reflexivity.
  - destruct (Hr 0%nat ltac:(lia)) as (r0 & H0).
    eexists. split; [|split; [|split; [|split]]]; cycle 4.
    + layer. rewrite Hu. layer. rewrite H0. layer.
      change (Z.max (1000 * 2 ^ Z.of_nat 0) 0 <=? 0) with false.
      layer. rewrite Hok. layer.
      match goal with |- context [program ?w1] => exact (Hend w1) end.
    + reflexivity.
    + repeat split.
    + reflexivity.
    + reflexivity.
  - destruct (Hr 0%nat ltac:(lia)) as (r0 & H0). destruct (Hr 1%nat ltac:(lia)) as (r1 & H1).
    eexists. split; [|split; [|split; [|split]]]; cycle 4.
    + layer. rewrite Hu. layer. rewrite H0. layer.
      change (Z.max (1000 * 2 ^ Z.of_nat 0) 0 <=? 0) with false.
      change (Z.max (1000 * 2 ^ Z.of_nat 1) 0 <=? 0) with false.
      layer. rewrite H1. layer. rewrite Hok. layer.
      match goal with |- context [program ?w1] => exact (Hend w1) end.
    + reflexivity.
    + repeat split.
    + reflexivity.
    + reflexivity.
  - destruct (Hr 0%nat ltac:(lia)) as (r0 & H0). destruct (Hr 1%nat ltac:(lia)) as (r1 & H1).
    destruct (Hr 2%nat ltac:(lia)) as (r2 & H2).
    eexists. split; [|split; [|split; [|split]]]; cycle 4.
    + layer. rewrite Hu. layer. rewrite H0. layer.
      change (Z.max (1000 * 2 ^ Z.of_nat 0) 0 <=? 0) with false.
      change (Z.max (1000 * 2 ^ Z.of_nat 1) 0 <=? 0) with false.
      change (Z.max (1000 * 2 ^ Z.of_nat 2) 0 <=? 0) with false.
      layer. rewrite H1. layer. rewrite H2. layer. rewrite Hok. layer.
      match goal with |- context [program ?w1] => exact (Hend w1) end.
    + reflexivity.
    + repeat split.
    + reflexivity.
    + reflexivity.
Qed.

Lemma flakyDatabase_refuses_twice (i : nat) :
  (i < 2)%nat ->
  exists reason, settled (Database.connect flakyDatabase i) = Rejected reason.
Proof.
  intros Hi. destruct i as [|[|i]]; [eexists; reflexivity | eexists; reflexivity | lia].
Defined.

Lemma rejected_disconnect_is_only_logged_witness :
  fst (Database.provided flakyDatabase (fail NoMoreRecords) idle)
  = (Failure NoMoreRecords : Exit unit).
Proof.
  destruct (@rejected_disconnect_is_only_logged flakyDatabase unit
              (fail NoMoreRecords) idle "postgresql://localhost:5432/places" 2
              eq_refl eq_refl ltac:(lia) flakyDatabase_refuses_twice eq_refl
              (fun _ => ltac:(discriminate)))
    as (w1 & _ & _ & _ & _ & E & _).
  exact E.
Defined.

Section CrmPage.
Import Page.
Import SyncCrmActivity.

(* ------------------------------------------------------------------ *)
(** ** The CRM page *)

Ltac page :=
  cbv beta iota zeta delta
    [bind map succeed fail die sync catchAll catchTag mapError tapError orDie
     ignore coerce retry retryFrom pause delay recurrences sleep World_Clock
     Pair_Clock promise tryPromise logLine log elapse negb Nat.eqb
     Page.onWorld Page.within Page.ask Page.info Page.retried Page.rejected
     Page.navigationRetrySchedule Page.Config_string
     Page.performLogin Page.checkForAuth Page.checkForError Page.checkIfAuthNeeded
     Page.selectTags Page.fillForm Page.fillCreateCompanyForm
     now deadline placeEntry company metrics logs browser
     set_now set_deadline set_placeEntry set_company set_metrics set_logs
     set_browser fst snd].

(** In a world without a deadline a call that resolves is made once. *)
Lemma ask_resolves {A} (c : Call) (reply : Session -> Reply A) (a : A)
    (h : Session) (w : World) :
  deadline w = None ->
  settled (reply h) = Resolved a ->
  ask c reply (h, w) = (Success a, (c :: h, set_now (now w + took (reply h)) w)).
Proof.
  intros Hd Hr. destruct w as [t dl pes cos m lg b]. fields. subst dl.
  page. rewrite Hr. reflexivity.
Qed.

Lemma retried_resolves (site : Site) (c : Call) (h : Session) (w : World) :
  deadline w = None ->
  settled (performs site h c) = Resolved tt ->
  retried site c (h, w)
  = (Success tt, (c :: h, set_now (now w + took (performs site h c)) w)).
Proof.
  intros Hd Hr. destruct w as [t dl pes cos m lg b]. fields. subst dl.
  page. rewrite Hr. reflexivity.
Qed.

Lemma selectEach_clicks (site : Site) (present : string -> bool)
    (tags : list string) (h : Session) (w : World) :
  deadline w = None ->
  (forall h c, settled (performs site h c) = Resolved tt) ->
  (forall h t, settled (finds site h (tagLabel t)) = Resolved (present t)) ->
  exists h' w',
    selectEach site tags (h, w) = (Success tt, (h', w'))
    /\ elementClicks h'
       = elementClicks h ++ List.map tagLabel (filter present tags)
    /\ queries h' = queries h ++ List.map tagLabel tags
    /\ fills h' = fills h
    /\ deadline w' = None
    /\ sameStore w w' /\ logs w' = logs w /\ browser w' = browser w.
Proof.
  intros Hd Hp Hf. revert h w Hd.
  induction tags as [|t tags IH]; intros h w Hd; cbn [selectEach filter List.map].
  - exists h, w. unfold succeed. rewrite !app_nil_r. repeat split; assumption.
  - unfold bind at 1.
    rewrite (@ask_resolves bool (Query (tagLabel t))
               (fun h => finds site h (tagLabel t)) (present t) h w Hd (Hf h t)).
    destruct (present t) eqn:Hpt.
    + unfold bind at 1.
      rewrite (@ask_resolves unit (ClickElement (tagLabel t))
                 (fun h => performs site h (ClickElement (tagLabel t))) tt);
        [| exact Hd | apply Hp].
      match goal with |- context [selectEach site tags (?h1, ?w1)] =>
        destruct (IH h1 w1 Hd) as (h' & w' & E & Hc & Hq & Hfl & Hd' & Hs & Hl & Hb)
      end.
      exists h', w'. split; [exact E|].
      rewrite Hc, Hq, Hfl. unfold elementClicks, queries, fills. cbn [rev].
      rewrite !flat_map_app. cbn [flat_map]. rewrite !app_nil_r, <- !app_assoc.
      destruct w; repeat split; try assumption; apply Hs.
    + unfold bind at 1. unfold succeed at 1.
      match goal with |- context [selectEach site tags (?h1, ?w1)] =>
        destruct (IH h1 w1 Hd) as (h' & w' & E & Hc & Hq & Hfl & Hd' & Hs & Hl & Hb)
      end.
      exists h', w'. split; [exact E|].
      rewrite Hc, Hq, Hfl. unfold elementClicks, queries, fills. cbn [rev].
      rewrite !flat_map_app. cbn [flat_map]. rewrite !app_nil_r, <- ?app_assoc.
      destruct w; repeat split; try assumption; apply Hs.
Qed.

(** X14.  [selectTags] on a page that answers every call: each tag is looked
    up once, in order; the tags that have an element are clicked, in
    order, and the others are passed over without a failure; the
    selection is saved at the end; nothing is typed, and the store is
    not touched. *)
Theorem selectTags_clicks_the_tags_the_page_has
    (site : Site) (present : string -> bool) (tags : list string)
    (h : Session) (w : World) :
  deadline w = None ->
  tags <> [] ->
  (forall h c, settled (performs site h c) = Resolved tt) ->
  (forall h s, exists b, settled (shows site h s) = Resolved b) ->
  (forall h t, settled (finds site h (tagLabel t)) = Resolved (present t)) ->
  exists h' w',
    selectTags site tags (h, w) = (Success tt, (h', w'))
    /\ elementClicks h'
       = elementClicks h ++ List.map tagLabel (filter present tags)
    /\ queries h' = queries h ++ List.map tagLabel tags
    /\ (exists earlier,
          h' = WaitForTimeout 2000 :: Click "#SaveTagUpdate" :: earlier)
    /\ fills h' = fills h
    /\ sameStore w w'.
Proof.
  intros Hd Hne Hp Hs Hf.
  destruct tags as [|t0 ts]; [congruence|].
  set (tags := t0 :: ts) in *.
  destruct w as [t dl pes cos m lg b]. fields. subst dl.
  unfold selectTags. change tags with (t0 :: ts) at 1. cbv beta iota.
  destruct (Hs h "#EditTagArea") as [vis Hvis].
  page. rewrite Hvis. page.
  destruct vis; page.
  - match goal with |- context [selectEach site tags (?h1, ?w1)] =>
      destruct (@selectEach_clicks site present tags h1 w1 eq_refl Hp Hf)
        as (h' & w' & E & Hc & Hq & Hfl & Hd' & Hst & Hl & Hb);
      change (list Call) with Session; rewrite E
    end.
    destruct w' as [t' dl' pes' cos' m' lg' b']. fields. subst dl'.
    page. rewrite !Hp. page.
    eexists. eexists. split; [reflexivity|].
    unfold elementClicks, queries, fills in *. cbn [rev] in *.
    rewrite !flat_map_app in *. cbn [flat_map] in *. rewrite !app_nil_r in *.
    rewrite Hc, Hq, Hfl. repeat split; try apply Hst. eexists. reflexivity.
  - rewrite !Hp. page.
    match goal with |- context [selectEach site tags (?h1, ?w1)] =>
      destruct (@selectEach_clicks site present tags h1 w1 eq_refl Hp Hf)
        as (h' & w' & E & Hc & Hq & Hfl & Hd' & Hst & Hl & Hb);
      change (list Call) with Session; rewrite E
    end.
    destruct w' as [t' dl' pes' cos' m' lg' b']. fields. subst dl'.
    page. rewrite !Hp. page.
    eexists. eexists. split; [reflexivity|].
    unfold elementClicks, queries, fills in *. cbn [rev] in *.
    rewrite !flat_map_app in *. cbn [flat_map] in *. rewrite !app_nil_r in *.
    rewrite Hc, Hq, Hfl. repeat split; try apply Hst. eexists. reflexivity.
Qed.

Lemma selectTags_clicks_the_tags_the_page_has_witness :
  exists h' w',
    selectTags (quickSite onPage (fun _ => false) (fun _ => 0%nat) credentials)
      ["Legal"; "London"; "W"; "i"] ([], idle)
    = (Success tt, (h', w'))
    /\ elementClicks h' = [tagLabel "Legal"; tagLabel "W"]
    /\ List.length (queries h') = 4%nat.
Proof.
  destruct (@selectTags_clicks_the_tags_the_page_has
              (quickSite onPage (fun _ => false) (fun _ => 0%nat) credentials)
              (fun t => onPage (tagLabel t)) ["Legal"; "London"; "W"; "i"] [] idle
              eq_refl ltac:(discriminate) (fun _ _ => eq_refl)
              (fun _ _ => ex_intro _ false eq_refl) (fun _ _ => eq_refl))
    as (h' & w' & E & Hc & Hq & _).
  exists h', w'. split; [exact E|]. split; [rewrite Hc | rewrite Hq]; reflexivity.
Defined.

(** X15.  A credential that is not configured: the login fails before the page
    is asked anything; nothing is typed. *)
Theorem missing_credentials_stop_the_login
    (site : Site) (h : Session) (w : World) :
  config site "GIIGHIRE_EMAIL" = None \/ config site "GIIGHIRE_PASSWORD" = None ->
  exists e w',
    performLogin site (h, w) = (Failure e, (h, w'))
    /\ sameStore w w'
    /\ now w' = now w.
Proof.
  intros Hc. destruct w as [t dl pes cos m lg b].
  page.
  destruct (config site "GIIGHIRE_EMAIL") as [em|]; page.
  - destruct Hc as [Hc|Hc]; [discriminate|]. rewrite Hc.
    eexists. eexists. split; [reflexivity|]. repeat split.
  - eexists. eexists. split; [reflexivity|]. repeat split.
Qed.

Lemma missing_credentials_stop_the_login_witness :
  exists e w', performLogin deadSite ([Goto "https://app.giighire.com/my/client/database"], idle)
               = (Failure e, ([Goto "https://app.giighire.com/my/client/database"], w')).
Proof.
  destruct (@missing_credentials_stop_the_login deadSite
              [Goto "https://app.giighire.com/my/client/database"] idle
              (or_introl eq_refl))
    as (e & w' & E & _).
  exists e, w'. exact E.
Defined.

(** X16.  The two checks of [checkIfAuthNeeded] on a page that answers every
    call and shows no error page: without an auth page nothing but the
    two counts is asked; with one, the configured credentials are typed
    and submitted, and the page is sent back to the URL it had when the
    login began. *)
Theorem login_follows_the_auth_page
    (site : Site) (h : Session) (w : World) (authPages : nat)
    (userEmail userPassword : string) :
  deadline w = None ->
  (forall h c, settled (performs site h c) = Resolved tt) ->
  (forall h, settled (counts site h "#auth-page") = Resolved authPages) ->
  (forall h, settled (counts site h ".error401") = Resolved 0%nat) ->
  config site "GIIGHIRE_EMAIL" = Some userEmail ->
  config site "GIIGHIRE_PASSWORD" = Some userPassword ->
  exists h' w',
    checkIfAuthNeeded site (h, w) = (Success tt, (h', w'))
    /\ inOrder h'
       = inOrder h
         ++ (if Nat.eqb authPages 0
             then [Count "#auth-page"; Count ".error401"]
             else [Count "#auth-page";
                   Fill (input "Email") (Some userEmail);
                   Fill (input "Password") (Some userPassword);
                   Click "div#LoginSubmit";
                   WaitForTimeout 2000;
                   Goto (urlOf site (Count "#auth-page" :: h));
                   Count ".error401"])
    /\ sameStore w w'.
Proof.
  intros Hd Hp Ha He Hce Hcp.
  destruct w as [t dl pes cos m lg b]. fields. subst dl.
  destruct authPages as [|n]; page; rewrite Ha; page.
  - rewrite He. page. eexists. eexists. split; [reflexivity|].
    unfold inOrder. cbn [rev]. rewrite <- !app_assoc. repeat split.
  - rewrite Hce, Hcp. page. repeat (first [rewrite Hp | rewrite He]; page).
    eexists. eexists. split; [reflexivity|].
    unfold inOrder. cbn [rev]. rewrite <- !app_assoc. repeat split.
Qed.

Lemma login_follows_the_auth_page_witness :
  exists h' w',
    checkIfAuthNeeded
      (quickSite onPage (fun _ => false)
         (fun s => if String.eqb s "#auth-page" then 1%nat else 0%nat) credentials)
      ([], idle)
    = (Success tt, (h', w'))
    /\ fills h' = [(input "Email", Some "sync@firm.example");
                   (input "Password", Some "secret")].
Proof.
  destruct (@login_follows_the_auth_page
              (quickSite onPage (fun _ => false)
                 (fun s => if String.eqb s "#auth-page" then 1%nat else 0%nat)
                 credentials)
              [] idle 1 "sync@firm.example" "secret"
              eq_refl (fun _ _ => eq_refl) (fun _ => eq_refl) (fun _ => eq_refl)
              eq_refl eq_refl)
    as (h' & w' & E & Ho & _).
  exists h', w'. split; [exact E|].
  unfold fills. unfold inOrder in Ho. rewrite Ho. reflexivity.
Defined.

(** A step the page always rejects is tried four times, with 100, 200
    and 400 milliseconds between the tries, and then fails with the
    last rejection. *)
Lemma retried_gives_up {A} (c : Call) (reply : Session -> Reply A)
    (h : Session) (w : World) :
  deadline w = None ->
  (forall h0, exists reason, settled (reply h0) = Rejected reason) ->
  exists reason,
    settled (reply (c :: c :: c :: h)) = Rejected reason
    /\ retry navigationRetrySchedule (ask c reply) (h, w)
       = (Failure (SyncCrmError reason),
          (c :: c :: c :: c :: h,
           set_now (now w + took (reply h) + 100 + took (reply (c :: h)) + 200
                    + took (reply (c :: c :: h)) + 400
                    + took (reply (c :: c :: c :: h))) w)).
Proof.
  intros Hd Hr. destruct w as [t dl pes cos m lg b]. fields. subst dl.
  destruct (Hr h) as (r0 & H0). destruct (Hr (c :: h)) as (r1 & H1).
  destruct (Hr (c :: c :: h)) as (r2 & H2). destruct (Hr (c :: c :: c :: h)) as (r3 & H3).
  exists r3. split; [exact H3|].
  page. rewrite H0. page.
  change (Z.max (100 * 2 ^ Z.of_nat 0) 0 <=? 0) with false.
  change (Z.max (100 * 2 ^ Z.of_nat 1) 0 <=? 0) with false.
  change (Z.max (100 * 2 ^ Z.of_nat 2) 0 <=? 0) with false.
  page. rewrite H1. page. rewrite H2. page. rewrite H3. page.
  change (Z.max (100 * 2 ^ Z.of_nat 0) 0) with 100.
  change (Z.max (100 * 2 ^ Z.of_nat 1) 0) with 200.
  change (Z.max (100 * 2 ^ Z.of_nat 2) 0) with 400.
  reflexivity.
Qed.

(** X17.  The first check of a page that never answers: four counts, 700
    milliseconds of waiting between them, and the check fails with the
    last rejection; the login is not begun. *)
Theorem check_gives_up_after_four_counts
    (site : Site) (h : Session) (w : World) :
  deadline w = None ->
  (forall h0, exists reason,
     settled (counts site h0 "#auth-page") = Rejected reason) ->
  let c := Count "#auth-page" in
  exists reason w',
    settled (counts site (c :: c :: c :: h) "#auth-page") = Rejected reason
    /\ checkIfAuthNeeded site (h, w)
       = (Failure (SyncCrmError reason), (c :: c :: c :: c :: h, w'))
    /\ now w'
       = now w + 700
         + took (counts site h "#auth-page")
         + took (counts site (c :: h) "#auth-page")
         + took (counts site (c :: c :: h) "#auth-page")
         + took (counts site (c :: c :: c :: h) "#auth-page")
    /\ sameStore w w'
    /\ logs w' = logs w.
Proof.
  intros Hd Hr c. subst c.
  destruct (@retried_gives_up nat (Count "#auth-page")
              (fun h0 => counts site h0 "#auth-page") h w Hd Hr) as (reason & Hs & E).
  exists reason. eexists. split; [exact Hs|].
  unfold checkIfAuthNeeded, checkForAuth, map, bind.
  change (list Call) with Session in *. rewrite E.
  split; [reflexivity|]. destruct w. cbn. repeat split. lia.
Qed.

Lemma check_gives_up_after_four_counts_witness :
  exists w',
    checkIfAuthNeeded deadSite ([], idle)
    = (Failure (SyncCrmError "Target page has been closed"),
       ([Count "#auth-page"; Count "#auth-page"; Count "#auth-page";
         Count "#auth-page"], w'))
    /\ now w' = 700.
Proof.
  destruct (@check_gives_up_after_four_counts deadSite [] idle eq_refl
              (fun _ => ex_intro _ "Target page has been closed" eq_refl))
    as (reason & w' & Hr & E & Hn & _).
  injection Hr as <-. exists w'. split; [exact E | exact Hn].
Defined.

(** X18.  A company the CRM knows already: the form shows its alert once the
    name is typed, [fillCreateCompanyForm] answers [false], and nothing
    but the name has been typed. *)
Theorem known_company_is_not_filled_in
    (site : Site) (data : CompanyData) (h : Session) (w : World) :
  deadline w = None ->
  (forall h c, settled (performs site h c) = Resolved tt) ->
  (forall h s, exists n, settled (counts site h s) = Resolved n) ->
  (forall h, settled (shows site h errorAlert) = Resolved true) ->
  (forall h c, 0 <= took (performs site h c) <= 20000) ->
  (forall h s, 0 <= took (counts site h s) <= 20000) ->
  (forall h s, 0 <= took (shows site h s) <= 20000) ->
  exists h' w',
    fillCreateCompanyForm site data (h, w) = (Success false, (h', w'))
    /\ inOrder h'
       = inOrder h
         ++ [Count createLink; Click createLink;
             WaitForSelector "#RecruiterClientForm";
             Fill (input "Name") (Some (name data));
             WaitForTimeout 10000; IsVisible errorAlert]
    /\ fills h' = fills h ++ [(input "Name", Some (name data))]
    /\ sameStore w w'
    /\ deadline w' = None.
Proof.
  intros Hd Hp Hc Hs Hbp Hbc Hbs.
  destruct w as [t dl pes cos m lg b]. fields. subst dl.
  destruct (Hc h createLink) as [n Hn].
  pose proof (Hbc h createLink) as B1.
  page. clock. rewrite Hn. page.
  match goal with |- context [took (performs site ?h0 ?c0)] =>
    pose proof (Hbp h0 c0) as B2 end.
  clock. rewrite Hp. page.
  match goal with |- context [took (performs site ?h0 (WaitForSelector ?s))] =>
    pose proof (Hbp h0 (WaitForSelector s)) as B3 end.
  clock. rewrite Hp. page.
  match goal with |- context [took (performs site ?h0 (Fill ?s ?v))] =>
    pose proof (Hbp h0 (Fill s v)) as B4 end.
  clock. rewrite Hp. page.
  match goal with |- context [took (performs site ?h0 (WaitForTimeout ?s))] =>
    pose proof (Hbp h0 (WaitForTimeout s)) as B5 end.
  clock. rewrite Hp. page.
  match goal with |- context [took (shows site ?h0 ?s)] =>
    pose proof (Hbs h0 s) as B6 end.
  clock. rewrite Hs. page.
  eexists. eexists. split; [reflexivity|].
  unfold inOrder, fills. cbn [rev]. rewrite !flat_map_app. cbn [flat_map].
  rewrite <- !app_assoc, !app_nil_r. repeat split.
Qed.

Lemma known_company_is_not_filled_in_witness :
  exists h' w',
    fillCreateCompanyForm
      (quickSite onPage (fun _ => true) (fun _ => 1%nat) credentials)
      (formData readyCompany) ([], idle)
    = (Success false, (h', w'))
    /\ fills h' = [(input "Name", Some "Firm 1")].
Proof.
  destruct (@known_company_is_not_filled_in
              (quickSite onPage (fun _ => true) (fun _ => 1%nat) credentials)
              (formData readyCompany) [] idle eq_refl
              (fun _ _ => eq_refl) (fun _ _ => ex_intro _ 1%nat eq_refl)
              (fun _ => eq_refl)
              (fun _ _ => ltac:(cbn; lia)) (fun _ _ => ltac:(cbn; lia))
              (fun _ _ => ltac:(cbn; lia)))
    as (h' & w' & E & _ & Hf & _).
  exists h', w'. split; [exact E | exact Hf].
Defined.

Lemma append_assoc (a b c : string) :
  String.append (String.append a b) c = String.append a (String.append b c).
Proof. induction a as [|x a IH]; cbn [String.append]; [reflexivity | now rewrite IH]. Qed.

Lemma charsFrom_trailing (rest current : string) :
  allTrailing rest = true -> charsFrom current rest = [String.append current rest].
Proof.
  revert current. induction rest as [|c rest IH]; intros current H; cbn [charsFrom].
  - clear H. induction current as [|x current IHc]; cbn [String.append];
      [reflexivity|]. injection IHc as <-. reflexivity.
  - cbn [allTrailing] in H. apply andb_prop in H as [Hc Hr]. rewrite Hc.
    rewrite (IH _ Hr), append_assoc. reflexivity.
Qed.

Lemma oneChar_alone (t : string) : oneChar t -> chars t = [t].
Proof.
  intros (c & rest & -> & H). cbn [chars]. rewrite (@charsFrom_trailing rest (String c EmptyString) H).
  reflexivity.
Qed.

Lemma oneChar_more (t : string) (c : ascii) :
  oneChar t -> trailing c = true -> oneChar (String.append t (String c EmptyString)).
Proof.
  intros (x & rest & -> & H) Hc. exists x, (String.append rest (String c EmptyString)).
  split; [reflexivity|]. clear x. induction rest as [|y rest IH]; cbn [String.append allTrailing] in *.
  - rewrite Hc. reflexivity.
  - apply andb_prop in H as [Hy Hr]. rewrite Hy. exact (IH Hr).
Qed.

Lemma charsFrom_in (s current t : string) :
  oneChar current -> In t (charsFrom current s) -> oneChar t.
Proof.
  revert current. induction s as [|c s IH]; intros current Hcur; cbn [charsFrom In].
  - intros [<- | []]. exact Hcur.
  - destruct (trailing c) eqn:Hc.
    + apply IH. exact (@oneChar_more current c Hcur Hc).
    + cbn [In]. intros [<- | H]; [exact Hcur|].
      apply (IH (String c EmptyString)); [|exact H].
      exists c, EmptyString. split; reflexivity.
Qed.

Lemma chars_in (s t : string) : In t (chars s) -> chars t = [t].
Proof.
  destruct s as [|c s]; cbn [chars In]; [contradiction|].
  intros H. apply oneChar_alone.
  apply (@charsFrom_in s (String c EmptyString) t); [|exact H].
  exists c, EmptyString. split; reflexivity.
Qed.

(** X19.  The tags that reach the form from the company's services: the spread
    in [new Set(...names)] hands the set the first name alone, as an
    iterable, so the tags are the distinct characters of the first
    service's name, each a string of that one character; the name
    itself, when it has two or more characters, and every later service
    of two or more characters are not among them. *)
Theorem service_tags_are_the_characters_of_the_first_service
    (record : Company.t) (first : string) (others : list string) :
  Company.servicesOffered record = first :: others ->
  exists serviceTags,
    tags (formData record)
    = orNull (Company.industry record) :: orNull (Company.location record)
      :: serviceTags
    /\ (forall t, In t serviceTags <-> In t (chars first))
    /\ (forall t, In t serviceTags -> chars t = [t])
    /\ NoDup serviceTags
    /\ ((2 <= List.length (chars first))%nat -> ~ In first serviceTags)
    /\ (forall other, In other others -> (2 <= List.length (chars other))%nat ->
        ~ In other serviceTags).
Proof.
  intros Hs. exists (spreadSet (first :: others)).
  unfold formData. cbn [tags]. rewrite Hs. split; [reflexivity|].
  cbn [spreadSet].
  assert (Hin : forall t, In t (ScrapeWebsite.dedupe [] (chars first))
                          <-> In t (chars first)).
  { intros t. rewrite dedupe_in. cbn [In]. tauto. }
  assert (Hone : forall t, In t (ScrapeWebsite.dedupe [] (chars first)) ->
                           chars t = [t]).
  { intros t Ht. apply Hin in Ht. exact (@chars_in first t Ht). }
  split; [exact Hin|]. split; [exact Hone|]. split; [apply dedupe_NoDup|].
  split.
  - intros H2 H. apply Hone in H. rewrite H in H2. cbn in H2. lia.
  - intros other _ H2 H. apply Hone in H. rewrite H in H2. cbn in H2. lia.
Qed.

Lemma service_tags_are_the_characters_of_the_first_service_witness :
  exists serviceTags,
    tags (formData dashedCompany) = "Legal" :: "Leeds" :: serviceTags
    /\ In enDash serviceTags
    /\ ~ In dashedService serviceTags
    /\ ~ In "Wills" serviceTags.
Proof.
  destruct (@service_tags_are_the_characters_of_the_first_service dashedCompany
              dashedService ["Wills"] eq_refl)
    as (serviceTags & E & Hin & _ & _ & Hfirst & Hothers).
  exists serviceTags. split; [exact E|]. split; [|split].
  - apply Hin. vm_compute. tauto.
  - apply Hfirst. vm_compute. lia.
  - apply (Hothers "Wills"); [left; reflexivity | vm_compute; lia].
Defined.

(* ------------------------------------------------------------------ *)
(** ** The sync activity *)

Ltac crm :=
  cbv beta iota zeta delta
    [bind map succeed fail die sync catchAll catchTag mapError tapError orDie
     ignore coerce retry retryFrom pause delay recurrences sleep World_Clock
     Pair_Clock uninterruptible promise tryPromise logLine log lift elapse
     addFinalizer acquireRelease closeScope isSuccess scoped negb Nat.eqb
     List.map List.app
     Page.onWorld Page.within Page.ask Page.info Page.retried Page.rejected
     Page.navigationRetrySchedule Page.Config_string
     Page.performLogin Page.checkForAuth Page.checkForError Page.checkIfAuthNeeded
     Page.fillForm Page.fillCreateCompanyForm
     SyncCrmActivity.lift' SyncCrmActivity.uninterruptible'
     SyncCrmActivity.acquireRelease' SyncCrmActivity.closeScope'
     SyncCrmActivity.scoped' SyncCrmActivity.inScope
     SyncCrmActivity.acquireUseRelease SyncCrmActivity.cleanupLockFile
     SyncCrmActivity.withLockFileCleanup SyncCrmActivity.company_findFirst
     SyncCrmActivity.makePage SyncCrmActivity.interaction SyncCrmActivity.execute
     SyncCrm.errorHandler SyncCrmplaceDetailWorkflow.id
     BrowserService.getContext
     BrowserService.withPermits BrowserService.permitsOf BrowserService.setPermits
     BrowserService.browser_newContext BrowserService.context_close
     BrowserService.persistSession BrowserService.nextHandle BrowserService.record
     BrowserService.setLive
     now deadline placeEntry company metrics logs browser
     contextPermits agentPermits opened live events
     set_now set_deadline set_placeEntry set_company set_metrics set_logs
     set_browser fst snd].

(** X24.  A company that is not in the table any more: the attempt succeeds
    at once.  The lock file is removed before and after, and nothing
    else happens: no context is opened, no page is asked anything,
    nothing is logged and no time passes. *)
Theorem missing_company_ends_the_sync_at_once
    (env : Env) (site : Site) (payload : SyncCrmplaceDetailWorkflow.Payload)
    (attempt : nat) (h : Session) (w : World) :
  find (Db.hasId (SyncCrmplaceDetailWorkflow.id payload)) (company w) = None ->
  execute env site payload attempt (h, w)
  = (Success tt, (RemoveLockFile :: RemoveLockFile :: h, w)).
Proof.
  intros Hf. destruct w as [t dl pes cos m lg b]. destruct payload as [i].
  fields. cbn [SyncCrmplaceDetailWorkflow.id] in Hf.
  crm. rewrite Hf. crm. reflexivity.
Qed.

Lemma missing_company_ends_the_sync_at_once_witness :
  execute sampleEnv knownSite (syncOf "company-7") 1 ([], crmReady)
  = (Success tt, ([RemoveLockFile; RemoveLockFile], crmReady)).
Proof.
  exact (@missing_company_ends_the_sync_at_once sampleEnv knownSite
           (syncOf "company-7") 1 [] crmReady eq_refl).
Defined.

Ltac bound Bp Bc Bs :=
  repeat match goal with
  | |- context [took (performs ?s ?h0 ?c0)] =>
      lazymatch goal with
      | _ : 0 <= took (performs s h0 c0) <= 20000 |- _ => fail
      | _ => pose proof (Bp h0 c0 : 0 <= took (performs s h0 c0) <= 20000)
      end
  | |- context [took (counts ?s ?h0 ?c0)] =>
      lazymatch goal with
      | _ : 0 <= took (counts s h0 c0) <= 20000 |- _ => fail
      | _ => pose proof (Bc h0 c0 : 0 <= took (counts s h0 c0) <= 20000)
      end
  | |- context [took (shows ?s ?h0 ?c0)] =>
      lazymatch goal with
      | _ : 0 <= took (shows s h0 c0) <= 20000 |- _ => fail
      | _ => pose proof (Bs h0 c0 : 0 <= took (shows s h0 c0) <= 20000)
      end
  end.

(** An attempt on a page that answers every call, needs no login, and
    shows the form's alert once the name is typed: by how the save of
    the session state after the login check settles ([saving]) and how
    the close of the page settles ([closing]). *)
Lemma attempt_up_to_the_alert
    (env : Env) (site : Site) (payload : SyncCrmplaceDetailWorkflow.Payload)
    (attempt : nat) (h : Session) (w : World) (record : Company.t)
    (closing : Settled unit) :
  let c := opened (browser w) in
  let saving := settled (saveStorageState env c) in
  deadline w = None ->
  find (Db.hasId (SyncCrmplaceDetailWorkflow.id payload)) (company w) = Some record ->
  (1 <= contextPermits (browser w))%nat ->
  settled (newContext env c) = Resolved tt ->
  settled (closeContext env c) = Resolved tt ->
  (forall h c, c <> ClosePage -> settled (performs site h c) = Resolved tt) ->
  (forall h, settled (performs site h ClosePage) = closing) ->
  (forall h, settled (counts site h "#auth-page") = Resolved 0%nat) ->
  (forall h, settled (counts site h ".error401") = Resolved 0%nat) ->
  (forall h, exists n, settled (counts site h createLink) = Resolved n) ->
  (forall h, settled (shows site h errorAlert) = Resolved true) ->
  (forall h c, 0 <= took (performs site h c) <= 20000) ->
  (forall h s, 0 <= took (counts site h s) <= 20000) ->
  (forall h s, 0 <= took (shows site h s) <= 20000) ->
  (forall h, took (performs site h ClosePage) < 10000) ->
  exists h' w',
    execute env site payload attempt (h, w)
    = (match saving with
       | Resolved _ => Success tt
       | Rejected reason => Die reason
       end, (h', w'))
    /\ inOrder h'
       = inOrder h
         ++ [RemoveLockFile; NewPage; Goto database;
             Count "#auth-page"; Count ".error401"]
         ++ match saving with
            | Resolved _ =>
                [Count createLink; Click createLink;
                 WaitForSelector "#RecruiterClientForm";
                 Fill (input "Name") (Some (Company.name record));
                 WaitForTimeout 10000; IsVisible errorAlert]
            | Rejected _ => []
            end
         ++ [ClosePage; RemoveLockFile]
    /\ events (browser w')
       = CloseContext c :: StorageState c :: StorageState c :: NewContext c
         :: events (browser w)
    /\ live (browser w') = BrowserService.remove c (c :: live (browser w))
    /\ contextPermits (browser w') = contextPermits (browser w)
    /\ sameStore w w'
    /\ countLog "Page close failed, will force kill" (logs w')
       = (countLog "Page close failed, will force kill" (logs w)
          + match closing with Resolved _ => 0 | Rejected _ => 1 end)%nat.
Proof.
  intros c saving Hd Hf Hperm Hnew Hclose Hp Hcl Hauth Herr Hcount Hshow
    Bp Bc Bs Bclose.
  subst c saving.
  destruct w as [t dl pes cos m lg [cp ap op lv ev]]. destruct payload as [i].
  cbn [browser contextPermits opened deadline company live events logs
       SyncCrmplaceDetailWorkflow.id] in *.
  subst dl.
  crm. rewrite Hf. crm.
  destruct (Nat.ltb_spec cp 1) as [|_]; [lia|].
  crm. rewrite Hnew. crm.
  bound Bp Bc Bs. clock. rewrite Hp by discriminate. crm.
  rewrite Hp by discriminate. crm.
  rewrite Hauth. crm. rewrite Herr. crm.
  destruct (settled (saveStorageState env op)) as [[]|reason] eqn:Hsave; crm.
  - match goal with |- context [counts site ?h0 createLink] =>
      destruct (Hcount h0) as [n Hn] end.
    bound Bp Bc Bs. clock. rewrite Hn. crm.
    bound Bp Bc Bs. clock. rewrite Hp by discriminate. crm.
    bound Bp Bc Bs. clock. rewrite Hp by discriminate. crm.
    bound Bp Bc Bs. clock. rewrite Hp by discriminate. crm.
    bound Bp Bc Bs. clock. rewrite Hp by discriminate. crm.
    bound Bp Bc Bs. clock. rewrite Hshow. crm.
    match goal with |- context [took (performs site ?h0 ClosePage)] =>
      pose proof (Bclose h0) end.
    clock. rewrite Hcl.
    destruct closing as [[]|why]; crm; rewrite ?Hsave; crm; rewrite Hclose; crm;
      (eexists; eexists; split; [reflexivity|]);
      unfold inOrder, countLog; cbn [rev formData name]; rewrite <- !app_assoc;
      cbn [List.app filter text String.eqb Ascii.eqb Bool.eqb List.length String.append
           BrowserService.remove];
      repeat split; lia.
  - match goal with |- context [took (performs site ?h0 ClosePage)] =>
      pose proof (Bclose h0) end.
    bound Bp Bc Bs. clock. rewrite Hcl.
    destruct closing as [[]|why]; crm; rewrite ?Hsave; crm; rewrite Hclose; crm;
      (eexists; eexists; split; [reflexivity|]);
      unfold inOrder, countLog; cbn [rev formData name]; rewrite <- !app_assoc;
      cbn [List.app filter text String.eqb Ascii.eqb Bool.eqb List.length String.append
           BrowserService.remove];
      repeat split; lia.
Qed.

(** X25.  A company the CRM knows already (the form shows its alert once the
    name is typed), on a page that answers every call and needs no
    login: the attempt succeeds without submitting anything.  The calls
    are, in order: the lock file removal, the new page, the goto, the
    two checks of the login, the six calls of the form up to the alert,
    the close of the page and the lock file removal.  The only click is
    the one that opens the form and the only text typed is the name;
    the session state is saved twice (after the login check and by the
    hook of the context) and the context is closed. *)
Theorem known_company_ends_the_sync_with_a_success
    (env : Env) (site : Site) (payload : SyncCrmplaceDetailWorkflow.Payload)
    (attempt : nat) (h : Session) (w : World) (record : Company.t) :
  let c := opened (browser w) in
  deadline w = None ->
  find (Db.hasId (SyncCrmplaceDetailWorkflow.id payload)) (company w) = Some record ->
  (1 <= contextPermits (browser w))%nat ->
  settled (newContext env c) = Resolved tt ->
  settled (saveStorageState env c) = Resolved tt ->
  settled (closeContext env c) = Resolved tt ->
  (forall h c, settled (performs site h c) = Resolved tt) ->
  (forall h, settled (counts site h "#auth-page") = Resolved 0%nat) ->
  (forall h, settled (counts site h ".error401") = Resolved 0%nat) ->
  (forall h, exists n, settled (counts site h createLink) = Resolved n) ->
  (forall h, settled (shows site h errorAlert) = Resolved true) ->
  (forall h c, 0 <= took (performs site h c) <= 20000) ->
  (forall h s, 0 <= took (counts site h s) <= 20000) ->
  (forall h s, 0 <= took (shows site h s) <= 20000) ->
  (forall h, took (performs site h ClosePage) < 10000) ->
  exists h' w',
    execute env site payload attempt (h, w) = (Success tt, (h', w'))
    /\ inOrder h'
       = inOrder h
         ++ [RemoveLockFile; NewPage; Goto database;
             Count "#auth-page"; Count ".error401";
             Count createLink; Click createLink;
             WaitForSelector "#RecruiterClientForm";
             Fill (input "Name") (Some (Company.name record));
             WaitForTimeout 10000; IsVisible errorAlert;
             ClosePage; RemoveLockFile]
    /\ clicks h' = clicks h ++ [createLink]
    /\ fills h' = fills h ++ [(input "Name", Some (Company.name record))]
    /\ events (browser w')
       = CloseContext c :: StorageState c :: StorageState c :: NewContext c
         :: events (browser w)
    /\ live (browser w') = BrowserService.remove c (c :: live (browser w))
    /\ sameStore w w'.
Proof.
  intros c Hd Hf Hperm Hnew Hsave Hclose Hp Hauth Herr Hcount Hshow Bp Bc Bs Bclose.
  destruct (@attempt_up_to_the_alert env site payload attempt h w record (Resolved tt)
              Hd Hf Hperm Hnew Hclose (fun h0 c0 _ => Hp h0 c0)
              (fun h0 => Hp h0 ClosePage) Hauth Herr Hcount Hshow Bp Bc Bs Bclose)
    as (h' & w' & E & Ho & He & Hl & _ & Hs & _).
  fold c in E, Ho, He, Hl. rewrite Hsave in E, Ho.
  exists h', w'. split; [exact E|]. split; [exact Ho|].
  unfold clicks, fills. unfold inOrder in Ho. rewrite Ho, !flat_map_app.
  repeat split; try assumption; apply Hs.
Qed.

Lemma known_company_ends_the_sync_with_a_success_witness :
  exists h' w',
    execute sampleEnv knownSite (syncOf "company-0") 1 ([], crmReady)
    = (Success tt, (h', w'))
    /\ clicks h' = [createLink]
    /\ fills h' = [(input "Name", Some "Firm 1")]
    /\ events (browser w')
       = [CloseContext 0; StorageState 0; StorageState 0; NewContext 0].
Proof.
  destruct (@known_company_ends_the_sync_with_a_success sampleEnv knownSite
              (syncOf "company-0") 1 [] crmReady readyCompany
              eq_refl eq_refl ltac:(cbn; lia) eq_refl eq_refl eq_refl
              (fun _ _ => eq_refl) (fun _ => eq_refl) (fun _ => eq_refl)
              (fun _ => ex_intro _ 0%nat eq_refl) (fun _ => eq_refl)
              (fun _ _ => ltac:(cbn; lia)) (fun _ _ => ltac:(cbn; lia))
              (fun _ _ => ltac:(cbn; lia)) (fun _ => ltac:(cbn; lia)))
    as (h' & w' & E & _ & Hc & Hf & He & _).
  exists h', w'. repeat split; assumption.
Defined.

(** X26.  The save of the session state after the login check is an
    [Effect.promise]: when it is rejected, the attempt dies with the
    rejection (a defect, which no retry and no [catchAll] of the runner
    handles), before the form is opened.  The scope still closes: the
    page is closed, the hook of the context tries the save again and
    discards its failure, the context is closed and the lock file is
    removed. *)
Theorem rejected_state_save_kills_the_sync
    (env : Env) (site : Site) (payload : SyncCrmplaceDetailWorkflow.Payload)
    (attempt : nat) (h : Session) (w : World) (record : Company.t)
    (reason : string) :
  let c := opened (browser w) in
  deadline w = None ->
  find (Db.hasId (SyncCrmplaceDetailWorkflow.id payload)) (company w) = Some record ->
  (1 <= contextPermits (browser w))%nat ->
  settled (newContext env c) = Resolved tt ->
  settled (saveStorageState env c) = Rejected reason ->
  settled (closeContext env c) = Resolved tt ->
  (forall h c, settled (performs site h c) = Resolved tt) ->
  (forall h, settled (counts site h "#auth-page") = Resolved 0%nat) ->
  (forall h, settled (counts site h ".error401") = Resolved 0%nat) ->
  (forall h c, 0 <= took (performs site h c) <= 20000) ->
  (forall h, took (performs site h ClosePage) < 10000) ->
  exists h' w',
    execute env site payload attempt (h, w) = (Die reason, (h', w'))
    /\ inOrder h'
       = inOrder h
         ++ [RemoveLockFile; NewPage; Goto database;
             Count "#auth-page"; Count ".error401"; ClosePage; RemoveLockFile]
    /\ events (browser w')
       = CloseContext c :: StorageState c :: StorageState c :: NewContext c
         :: events (browser w)
    /\ live (browser w') = BrowserService.remove c (c :: live (browser w))
    /\ sameStore w w'.
Proof.
  intros c Hd Hf Hperm Hnew Hsave Hclose Hp Hauth Herr Bp Bclose.
  destruct w as [t dl pes cos m lg [cp ap op lv ev]]. destruct payload as [i].
  cbn [browser contextPermits opened deadline company live events logs
       SyncCrmplaceDetailWorkflow.id] in *.
  subst dl c.
  crm. rewrite Hf. crm.
  destruct (Nat.ltb_spec cp 1) as [|_]; [lia|].
  crm. rewrite Hnew. crm.
  match goal with |- context [took (performs site ?h0 NewPage)] =>
    pose proof (Bp h0 NewPage) end.
  clock. rewrite Hp. crm. rewrite Hp. crm.
  rewrite Hauth. crm. rewrite Herr. crm. rewrite Hsave. crm.
  match goal with |- context [took (performs site ?h0 ClosePage)] =>
    pose proof (Bclose h0); pose proof (Bp h0 ClosePage) end.
  clock. rewrite Hp. crm. rewrite ?Hsave. crm. rewrite Hclose. crm.
  eexists. eexists. split; [reflexivity|].
  unfold inOrder. cbn [rev]. rewrite <- !app_assoc. repeat split.
Qed.

Lemma rejected_state_save_kills_the_sync_witness :
  exists h' w',
    execute readOnlyDiskEnv knownSite (syncOf "company-0") 1 ([], crmReady)
    = (Die "EROFS: read-only file system", (h', w'))
    /\ inOrder h'
       = [RemoveLockFile; NewPage; Goto database;
          Count "#auth-page"; Count ".error401"; ClosePage; RemoveLockFile].
Proof.
  destruct (@rejected_state_save_kills_the_sync readOnlyDiskEnv knownSite
              (syncOf "company-0") 1 [] crmReady readyCompany
              "EROFS: read-only file system"
              eq_refl eq_refl ltac:(cbn; lia) eq_refl eq_refl eq_refl
              (fun _ _ => eq_refl) (fun _ => eq_refl) (fun _ => eq_refl)
              (fun _ _ => ltac:(cbn; lia)) (fun _ => ltac:(cbn; lia)))
    as (h' & w' & E & Ho & _).
  exists h', w'. split; assumption.
Defined.

(** X27.  [page.close()] is an [Effect.tryPromise] under [catchAll]: a close
    that is rejected is logged as a warning and goes no further.  The
    attempt ends as it would have (here with the success of a company
    the CRM knows already), and the context is still released. *)
Theorem rejected_page_close_is_only_a_warning
    (env : Env) (site : Site) (payload : SyncCrmplaceDetailWorkflow.Payload)
    (attempt : nat) (h : Session) (w : World) (record : Company.t)
    (why : string) :
  let c := opened (browser w) in
  deadline w = None ->
  find (Db.hasId (SyncCrmplaceDetailWorkflow.id payload)) (company w) = Some record ->
  (1 <= contextPermits (browser w))%nat ->
  settled (newContext env c) = Resolved tt ->
  settled (saveStorageState env c) = Resolved tt ->
  settled (closeContext env c) = Resolved tt ->
  (forall h c, c <> ClosePage -> settled (performs site h c) = Resolved tt) ->
  (forall h, settled (performs site h ClosePage) = Rejected why) ->
  (forall h, settled (counts site h "#auth-page") = Resolved 0%nat) ->
  (forall h, settled (counts site h ".error401") = Resolved 0%nat) ->
  (forall h, exists n, settled (counts site h createLink) = Resolved n) ->
  (forall h, settled (shows site h errorAlert) = Resolved true) ->
  (forall h c, 0 <= took (performs site h c) <= 20000) ->
  (forall h s, 0 <= took (counts site h s) <= 20000) ->
  (forall h s, 0 <= took (shows site h s) <= 20000) ->
  (forall h, took (performs site h ClosePage) < 10000) ->
  exists h' w',
    execute env site payload attempt (h, w) = (Success tt, (h', w'))
    /\ countLog "Page close failed, will force kill" (logs w')
       = S (countLog "Page close failed, will force kill" (logs w))
    /\ head h' = Some RemoveLockFile
    /\ events (browser w')
       = CloseContext c :: StorageState c :: StorageState c :: NewContext c
         :: events (browser w)
    /\ live (browser w') = BrowserService.remove c (c :: live (browser w))
    /\ contextPermits (browser w') = contextPermits (browser w)
    /\ sameStore w w'.
Proof.
  intros c Hd Hf Hperm Hnew Hsave Hclose Hp Hcl Hauth Herr Hcount Hshow Bp Bc Bs Bclose.
  destruct (@attempt_up_to_the_alert env site payload attempt h w record (Rejected why)
              Hd Hf Hperm Hnew Hclose Hp Hcl Hauth Herr Hcount Hshow Bp Bc Bs Bclose)
    as (h' & w' & E & Ho & He & Hl & Hcp & Hs & Hlog).
  fold c in E, Ho, He, Hl. rewrite Hsave in E, Ho.
  exists h', w'. split; [exact E|]. split; [rewrite Hlog; lia|].
  split; [|repeat split; try assumption; apply Hs].
  unfold inOrder in Ho. apply (f_equal (@rev Call)) in Ho.
  rewrite rev_involutive, rev_app_distr in Ho. rewrite Ho. reflexivity.
Qed.

Lemma stuckPageSite_performs (h : Session) (c : Call) :
  c <> ClosePage -> settled (performs stuckPageSite h c) = Resolved tt.
Proof. intros Hc. destruct c; try reflexivity. contradiction. Defined.

Lemma stuckPageSite_in_time (h : Session) (c : Call) :
  0 <= took (performs stuckPageSite h c) <= 20000.
Proof. destruct c; cbn; lia. Defined.

Lemma rejected_page_close_is_only_a_warning_witness :
  exists h' w',
    execute sampleEnv stuckPageSite (syncOf "company-0") 1 ([], crmReady)
    = (Success tt, (h', w'))
    /\ countLog "Page close failed, will force kill" (logs w') = 1%nat
    /\ live (browser w') = [].
Proof.
  destruct (@rejected_page_close_is_only_a_warning sampleEnv stuckPageSite
              (syncOf "company-0") 1 [] crmReady readyCompany
              "Target page, context or browser has been closed"
              eq_refl eq_refl ltac:(cbn; lia) eq_refl eq_refl eq_refl
              stuckPageSite_performs (fun _ => eq_refl)
              (fun _ => eq_refl) (fun _ => eq_refl)
              (fun _ => ex_intro _ 0%nat eq_refl) (fun _ => eq_refl)
              stuckPageSite_in_time (fun _ _ => ltac:(cbn; lia))
              (fun _ _ => ltac:(cbn; lia)) (fun _ => ltac:(cbn; lia)))
    as (h' & w' & E & Hl & _ & _ & Hv & _).
  exists h', w'. repeat split; assumption.
Defined.

(** X28.  A page that cannot be opened: [context.newPage()] is called three
    times (the first try and the two retries of its schedule, 2 and 4
    seconds apart), and the attempt fails with a [SyncCrmError] that
    carries the last rejection.  The context that was opened for the
    page is released (its session state saved, the context closed), the
    lock file is removed, and the page was asked nothing else. *)
Theorem page_that_cannot_be_opened_fails_the_attempt
    (env : Env) (site : Site) (payload : SyncCrmplaceDetailWorkflow.Payload)
    (attempt : nat) (h : Session) (w : World) (record : Company.t) :
  let c := opened (browser w) in
  deadline w = None ->
  find (Db.hasId (SyncCrmplaceDetailWorkflow.id payload)) (company w) = Some record ->
  (1 <= contextPermits (browser w))%nat ->
  settled (newContext env c) = Resolved tt ->
  settled (closeContext env c) = Resolved tt ->
  (forall h, exists reason, settled (performs site h NewPage) = Rejected reason) ->
  (forall h, 0 <= took (performs site h NewPage) < 45000) ->
  exists reason h' w',
    settled (performs site (NewPage :: NewPage :: RemoveLockFile :: h) NewPage)
    = Rejected reason
    /\ execute env site payload attempt (h, w)
       = (Failure (SyncCrmError reason), (h', w'))
    /\ inOrder h'
       = inOrder h ++ [RemoveLockFile; NewPage; NewPage; NewPage; RemoveLockFile]
    /\ now w'
       = now w + took (newContext env c)
         + took (performs site (RemoveLockFile :: h) NewPage) + 2000
         + took (performs site (NewPage :: RemoveLockFile :: h) NewPage) + 4000
         + took (performs site (NewPage :: NewPage :: RemoveLockFile :: h) NewPage)
         + took (saveStorageState env c) + took (closeContext env c)
    /\ events (browser w')
       = CloseContext c :: StorageState c :: NewContext c :: events (browser w)
    /\ live (browser w') = BrowserService.remove c (c :: live (browser w))
    /\ contextPermits (browser w') = contextPermits (browser w)
    /\ sameStore w w'.
Proof.
  intros c Hd Hf Hperm Hnew Hclose Hr Bn.
  destruct w as [t dl pes cos m lg [cp ap op lv ev]]. destruct payload as [i].
  cbn [browser contextPermits opened deadline company live events logs now
       SyncCrmplaceDetailWorkflow.id] in *.
  subst dl c.
  destruct (Hr (RemoveLockFile :: h)) as (r0 & H0).
  destruct (Hr (NewPage :: RemoveLockFile :: h)) as (r1 & H1).
  destruct (Hr (NewPage :: NewPage :: RemoveLockFile :: h)) as (r2 & H2).
  pose proof (Bn (RemoveLockFile :: h)) as B0.
  pose proof (Bn (NewPage :: RemoveLockFile :: h)) as B1.
  pose proof (Bn (NewPage :: NewPage :: RemoveLockFile :: h)) as B2.
  exists r2.
  crm. rewrite Hf. crm.
  destruct (Nat.ltb_spec cp 1) as [|_]; [lia|].
  crm. rewrite Hnew. crm.
  clock. rewrite H0. crm.
  change (Z.max (2000 * 2 ^ Z.of_nat 0) 0 <=? 0) with false.
  change (Z.max (2000 * 2 ^ Z.of_nat 1) 0 <=? 0) with false.
  crm. clock. rewrite H1. crm. clock. rewrite H2. crm.
  destruct (settled (saveStorageState env op)) as [[]|why]; crm;
    rewrite Hclose; crm;
    change (Z.max (2000 * 2 ^ Z.of_nat 0) 0) with 2000;
    change (Z.max (2000 * 2 ^ Z.of_nat 1) 0) with 4000;
    (eexists; eexists; split; [reflexivity|]; split; [reflexivity|]);
    unfold inOrder; cbn [rev]; rewrite <- !app_assoc;
    cbn [BrowserService.remove]; repeat split; lia.
Qed.

Lemma page_that_cannot_be_opened_fails_the_attempt_witness :
  exists h' w',
    execute sampleEnv noPageSite (syncOf "company-0") 1 ([], crmReady)
    = (Failure (SyncCrmError "browserContext.newPage: Target closed"), (h', w'))
    /\ inOrder h' = [RemoveLockFile; NewPage; NewPage; NewPage; RemoveLockFile]
    /\ now w' = 6106.
Proof.
  destruct (@page_that_cannot_be_opened_fails_the_attempt sampleEnv noPageSite
              (syncOf "company-0") 1 [] crmReady readyCompany
              eq_refl eq_refl ltac:(cbn; lia) eq_refl eq_refl
              (fun _ => ex_intro _ "browserContext.newPage: Target closed" eq_refl)
              (fun _ => ltac:(cbn; lia)))
    as (reason & h' & w' & Hr & E & Ho & Hn & _).
  injection Hr as <-. exists h', w'. split; [exact E|]. split; [exact Ho|].
  rewrite Hn. reflexivity.
Defined.

(* ------------------------------------------------------------------ *)
(** ** The form, filled in *)

(** On a prompt page a call that resolves is made at once, whatever
    the deadline. *)
Lemma ask_at_once {A} (c : Call) (reply : Session -> Reply A) (a : A)
    (h : Session) (w : World) (dl : Z) :
  deadline w = Some dl ->
  now w <= dl ->
  took (reply h) = 0 ->
  settled (reply h) = Resolved a ->
  ask c reply (h, w) = (Success a, (c :: h, w)).
Proof.
  intros Hd Hn Ht Hr. destruct w as [t dl0 pes cos m lg b]. fields. subst dl0.
  page. rewrite Ht, Hr, Z.add_0_r. clock. reflexivity.
Qed.

Lemma selectEach_at_once (site : Site) (present : string -> bool)
    (tags : list string) (h : Session) (w : World) (dl : Z) :
  deadline w = Some dl ->
  now w <= dl ->
  prompt site ->
  (forall h c, settled (performs site h c) = Resolved tt) ->
  (forall h t, settled (finds site h (tagLabel t)) = Resolved (present t)) ->
  exists h',
    selectEach site tags (h, w) = (Success tt, (h', w))
    /\ elementClicks h'
       = elementClicks h ++ List.map tagLabel (filter present tags)
    /\ queries h' = queries h ++ List.map tagLabel tags
    /\ clicks h' = clicks h
    /\ fills h' = fills h.
Proof.
  intros Hd Hn (Hpt & _ & _ & Hft) Hp Hf. revert h.
  induction tags as [|t tags IH]; intros h; cbn [selectEach filter List.map].
  - exists h. unfold succeed. rewrite !app_nil_r. repeat split.
  - unfold bind at 1.
    rewrite (@ask_at_once bool (Query (tagLabel t))
               (fun h => finds site h (tagLabel t)) (present t) h w dl Hd Hn
               (Hft h _) (Hf h t)).
    destruct (present t) eqn:Hpr.
    + unfold bind at 1.
      erewrite (@ask_at_once unit (ClickElement (tagLabel t))
                  (fun h => performs site h (ClickElement (tagLabel t))) tt _ _ dl);
        [| exact Hd | exact Hn | apply Hpt | apply Hp].
      destruct (IH (ClickElement (tagLabel t) :: Query (tagLabel t) :: h))
        as (h' & E & Hc & Hq & Hk & Hfl).
      exists h'. split; [exact E|].
      rewrite Hc, Hq, Hk, Hfl. unfold elementClicks, queries, clicks, fills. cbn [rev].
      rewrite !flat_map_app. cbn [flat_map]. rewrite !app_nil_r, <- !app_assoc.
      repeat split.
    + unfold bind at 1. unfold succeed at 1.
      destruct (IH (Query (tagLabel t) :: h)) as (h' & E & Hc & Hq & Hk & Hfl).
      exists h'. split; [exact E|].
      rewrite Hc, Hq, Hk, Hfl. unfold elementClicks, queries, clicks, fills. cbn [rev].
      rewrite !flat_map_app. cbn [flat_map]. rewrite !app_nil_r, <- ?app_assoc.
      repeat split.
Qed.

Ltac timing Hpt Hct Hst :=
  rewrite ?Hpt, ?Hct, ?Hst; cbv beta iota; rewrite ?Z.add_0_r; clock.

Lemma selectTags_in_time (site : Site) (present : string -> bool) (visible : bool)
    (tags : list string) (h : Session) (w : World) (dl : Z) :
  deadline w = Some dl ->
  now w + 3000 <= dl ->
  prompt site ->
  tags <> [] ->
  (forall h c, settled (performs site h c) = Resolved tt) ->
  (forall h, settled (shows site h "#EditTagArea") = Resolved visible) ->
  (forall h t, settled (finds site h (tagLabel t)) = Resolved (present t)) ->
  exists h' w',
    selectTags site tags (h, w) = (Success tt, (h', w'))
    /\ elementClicks h'
       = elementClicks h ++ List.map tagLabel (filter present tags)
    /\ queries h' = queries h ++ List.map tagLabel tags
    /\ clicks h'
       = clicks h ++ (if visible then [] else ["#AddTagGroup"]) ++ ["#SaveTagUpdate"]
    /\ fills h' = fills h
    /\ now w' = now w + (if visible then 0 else 1000) + 2000
    /\ deadline w' = Some dl
    /\ sameStore w w'
    /\ browser w' = browser w.
Proof.
  intros Hd Hn Hprompt Hne Hp Hs Hf.
  pose proof Hprompt as (Hpt & Hct & Hst & Hft).
  destruct tags as [|t0 ts]; [congruence|].
  set (tags := t0 :: ts) in *.
  destruct w as [t dl0 pes cos m lg b]. fields. subst dl0.
  unfold selectTags. change tags with (t0 :: ts) at 1. cbv beta iota.
  page. timing Hpt Hct Hst. rewrite Hs. page.
  destruct visible; page.
  - match goal with |- context [selectEach site tags (?h1, ?w1)] =>
      destruct (@selectEach_at_once site present tags h1 w1 dl eq_refl
                  ltac:(cbn; lia) Hprompt Hp Hf)
        as (h' & E & Hc & Hq & Hk & Hfl)
    end.
    change (list Call) with Session. rewrite E.
    page. timing Hpt Hct Hst. rewrite !Hp. page. timing Hpt Hct Hst.
    eexists. eexists. split; [reflexivity|].
    unfold elementClicks, queries, clicks, fills in *. cbn [rev] in *.
    rewrite !flat_map_app in *. cbn [flat_map] in *. rewrite !app_nil_r in *.
    rewrite Hc, Hq, Hk, Hfl. repeat split; lia.
  - timing Hpt Hct Hst. rewrite !Hp. page. timing Hpt Hct Hst.
    rewrite ?Hp. page. timing Hpt Hct Hst. rewrite ?Hp. page.
    match goal with |- context [selectEach site tags (?h1, ?w1)] =>
      destruct (@selectEach_at_once site present tags h1 w1 dl eq_refl
                  ltac:(cbn; lia) Hprompt Hp Hf)
        as (h' & E & Hc & Hq & Hk & Hfl)
    end.
    change (list Call) with Session. rewrite E.
    page. timing Hpt Hct Hst. rewrite !Hp. page. timing Hpt Hct Hst.
    eexists. eexists. split; [reflexivity|].
    unfold elementClicks, queries, clicks, fills in *. cbn [rev] in *.
    rewrite !flat_map_app in *. cbn [flat_map] in *. rewrite !app_nil_r in *.
    rewrite Hc, Hq, Hk, Hfl. rewrite <- ?app_assoc. repeat split; lia.
Qed.

(** Stepping through a generator: one [yield*] at a time. *)
Lemma bind_ok {W A B} (m : Eff W A) (k : A -> Eff W B) (s s' : W) (a : A) :
  m s = (Success a, s') -> bind m k s = k a s'.
Proof. intros E. unfold bind. rewrite E. reflexivity. Qed.

Lemma info_ok (t : string) (h : Session) (w : World) :
  info t (h, w)
  = (Success tt,
     (h, set_logs ({| level := LogInfo; text := t; about := None |} :: logs w) w)).
Proof. reflexivity. Qed.

Lemma logLine_ok (l : LogLevel) (t : string) (a : option string)
    (h : Session) (w : World) :
  onWorld (logLine l t a) (h, w)
  = (Success tt,
     (h, set_logs ({| level := l; text := t; about := a |} :: logs w) w)).
Proof. reflexivity. Qed.

Lemma ask_ok {A} (c : Call) (reply : Session -> Reply A) (a : A)
    (h : Session) (w : World) (dl : Z) :
  deadline w = Some dl ->
  now w + took (reply h) <= dl ->
  settled (reply h) = Resolved a ->
  ask c reply (h, w) = (Success a, (c :: h, set_now (now w + took (reply h)) w)).
Proof.
  intros Hd Hn Hr. destruct w as [t dl0 pes cos m lg b]. fields. subst dl0.
  page. rewrite Hr. clock. reflexivity.
Qed.

Lemma retry_ok {A} (eff : Eff' A) (s s' : Session * World) (a : A) :
  eff s = (Success a, s') -> retry navigationRetrySchedule eff s = (Success a, s').
Proof.
  intros E. unfold retry, navigationRetrySchedule. cbn [recurrences retryFrom].
  rewrite E. reflexivity.
Qed.

Lemma retried_ok (site : Site) (c : Call) (h : Session) (w : World) (dl : Z) :
  deadline w = Some dl ->
  now w + took (performs site h c) <= dl ->
  settled (performs site h c) = Resolved tt ->
  retried site c (h, w)
  = (Success tt, (c :: h, set_now (now w + took (performs site h c)) w)).
Proof.
  intros Hd Hn Hr. unfold retried. apply retry_ok.
  exact (@ask_ok unit c (fun h0 => performs site h0 c) tt h w dl Hd Hn Hr).
Qed.

Lemma within_ok {A} (d : Z) (eff : Eff' A) (h h' : Session) (w w' : World) (a : A) :
  deadline w = None ->
  eff (h, set_deadline (Some (now w + d)) w) = (Success a, (h', w')) ->
  within d eff (h, w) = (Success a, (h', set_deadline None w')).
Proof.
  intros Hd E. destruct w as [t dl pes cos m lg b]. fields. subst dl.
  unfold within. cbn [deadline now set_deadline] in *. rewrite E. reflexivity.
Qed.

Lemma bind_bind {W A B C} (m : Eff W A) (f : A -> Eff W B) (k : B -> Eff W C)
    (s : W) :
  bind (bind m f) k s = bind m (fun a => bind (f a) k) s.
Proof. unfold bind. destruct (m s) as [[a|e|d| |] s1]; reflexivity. Qed.

Lemma bind_succeed {W A B} (a : A) (k : A -> Eff W B) (s : W) :
  bind (succeed a) k s = k a s.
Proof. reflexivity. Qed.

Lemma bind_info {B} (t : string) (k : unit -> Eff' B) (h : Session) (w : World) :
  bind (info t) k (h, w)
  = k tt (h, set_logs ({| level := LogInfo; text := t; about := None |} :: logs w) w).
Proof. reflexivity. Qed.

Lemma bind_logLine {B} (l : LogLevel) (t : string) (a : option string)
    (k : unit -> Eff' B) (h : Session) (w : World) :
  bind (onWorld (logLine l t a)) k (h, w)
  = k tt (h, set_logs ({| level := l; text := t; about := a |} :: logs w) w).
Proof. reflexivity. Qed.

Lemma bind_ask {A B} (c : Call) (reply : Session -> Reply A) (a : A)
    (k : A -> Eff' B) (h : Session) (w : World) (dl : Z) :
  deadline w = Some dl ->
  now w + took (reply h) <= dl ->
  settled (reply h) = Resolved a ->
  bind (ask c reply) k (h, w) = k a (c :: h, set_now (now w + took (reply h)) w).
Proof.
  intros Hd Hn Hr. apply bind_ok. exact (@ask_ok A c reply a h w dl Hd Hn Hr).
Qed.

Lemma bind_retry_ask {A B} (c : Call) (reply : Session -> Reply A) (a : A)
    (k : A -> Eff' B) (h : Session) (w : World) (dl : Z) :
  deadline w = Some dl ->
  now w + took (reply h) <= dl ->
  settled (reply h) = Resolved a ->
  bind (retry navigationRetrySchedule (ask c reply)) k (h, w)
  = k a (c :: h, set_now (now w + took (reply h)) w).
Proof.
  intros Hd Hn Hr. apply bind_ok. apply retry_ok.
  exact (@ask_ok A c reply a h w dl Hd Hn Hr).
Qed.

Lemma bind_retried {B} (site : Site) (c : Call) (k : unit -> Eff' B)
    (h : Session) (w : World) (dl : Z) :
  deadline w = Some dl ->
  now w + took (performs site h c) <= dl ->
  settled (performs site h c) = Resolved tt ->
  bind (retried site c) k (h, w)
  = k tt (c :: h, set_now (now w + took (performs site h c)) w).
Proof.
  intros Hd Hn Hr. apply bind_ok. exact (@retried_ok site c h w dl Hd Hn Hr).
Qed.

Lemma bind_optional {B} (site : Site) (wanted : bool) (t : string) (c : Call)
    (k : unit -> Eff' B) (h : Session) (w : World) (dl : Z) :
  deadline w = Some dl ->
  took (performs site h c) = 0 ->
  now w <= dl ->
  settled (performs site h c) = Resolved tt ->
  bind (if wanted then bind (info t) (fun _ => retried site c) else succeed tt) k (h, w)
  = k tt (if wanted then c :: h else h,
          set_logs (if wanted
                    then {| level := LogInfo; text := t; about := None |} :: logs w
                    else logs w) w).
Proof.
  intros Hd Ht Hn Hr. destruct wanted.
  - rewrite bind_bind, bind_info.
    rewrite (@bind_retried B site c k h _ dl); [| exact Hd | | exact Hr].
    + rewrite Ht. destruct w as [t1 dl1 pes cos m lg b]. fields.
      rewrite Z.add_0_r. reflexivity.
    + rewrite Ht. destruct w as [t1 dl1 pes cos m lg b]. fields. lia.
  - rewrite bind_succeed. destruct w as [t1 dl1 pes cos m lg b]. reflexivity.
Qed.

Ltac side Hpt Hct Hst Hp :=
  first [ reflexivity | apply Hp | (rewrite Hpt; reflexivity)
        | cbn [now deadline logs set_now set_logs set_deadline];
          rewrite ?Hpt, ?Hct, ?Hst; cbv beta iota; lia ].

Ltac fwd EX Hpt Hct Hst Hp :=
  repeat (first
    [ erewrite bind_optional in EX by side Hpt Hct Hst Hp
    | rewrite bind_bind in EX
    | rewrite bind_succeed in EX
    | rewrite bind_info in EX
    | rewrite bind_logLine in EX
    | erewrite bind_retried in EX by side Hpt Hct Hst Hp ];
    cbv beta iota delta [now deadline placeEntry company metrics logs browser
                         set_now set_logs set_deadline] in EX;
    rewrite ?Hpt, ?Hct, ?Hst in EX; cbv beta iota in EX).

(** The generator of the form for a company the CRM does not know, on a
    prompt page that answers every call, with 2 minutes to go: what is
    typed, what is clicked and which tags are selected, and how long it
    takes. *)
Lemma fillForm_fills (site : Site) (data : CompanyData)
    (present : string -> bool) (visible : bool) (h : Session) (w : World) :
  deadline w = Some (now w + 120000) ->
  prompt site ->
  tags data <> [] ->
  (forall h c, settled (performs site h c) = Resolved tt) ->
  (forall h, exists n, settled (counts site h createLink) = Resolved n) ->
  (forall h, settled (shows site h errorAlert) = Resolved false) ->
  (forall h, settled (shows site h "#EditTagArea") = Resolved visible) ->
  (forall h t, settled (finds site h (tagLabel t)) = Resolved (present t)) ->
  exists h' w',
    fillForm site data (h, w) = (Success true, (h', w'))
    /\ fills h'
       = fills h
         ++ [(input "Name", Some (name data))]
         ++ (if truthy (Some (website data))
             then [(input "Website", Some (website data))] else [])
         ++ (if truthy (email data) then [(input "EmailAddress", email data)] else [])
         ++ (if truthy (phone data) then [(input "PhoneNumber", phone data)] else [])
         ++ [("#CompanyCreateAutoCompleteAddress", address data)]
    /\ clicks h'
       = clicks h ++ [createLink; "#AddTagGroup"]
         ++ (if visible then [] else ["#AddTagGroup"]) ++ ["#SaveTagUpdate"]
    /\ elementClicks h'
       = elementClicks h ++ List.map tagLabel (filter present (tags data))
    /\ queries h' = queries h ++ List.map tagLabel (tags data)
    /\ now w' = now w + 19000 + (if visible then 0 else 1000) + 2000
    /\ sameStore w w'
    /\ browser w' = browser w.
Proof.
  intros Hd Hprompt Hne Hp Hcount Hal Hvis Hf.
  pose proof Hprompt as (Hpt & Hct & Hst & Hft).
  destruct w as [t dl pes cos m lg b]. fields. subst dl.
  destruct (Hcount h) as [n Hn].
  destruct (tags data) as [|t0 ts] eqn:Et; [congruence|].
  remember (fillForm site data
              (h, {| now := t; deadline := Some (t + 120000); placeEntry := pes;
                     company := cos; metrics := m; logs := lg; browser := b |}))
    as X eqn:EX.
  unfold fillForm in EX.
  rewrite bind_info in EX. cbv beta in EX.
  erewrite (@bind_retry_ask nat) in EX;
    [| reflexivity | cbn; rewrite Hct; lia | exact Hn].
  cbv beta iota delta [now deadline placeEntry company metrics logs browser
                       set_now set_logs set_deadline] in EX.
  fwd EX Hpt Hct Hst Hp.
  erewrite (@bind_ask bool) in EX;
    [| reflexivity | cbn; rewrite ?Hpt, ?Hct, ?Hst; cbv beta iota; lia | apply Hal].
  cbv beta iota delta [now deadline placeEntry company metrics logs browser
                       set_now set_logs set_deadline] in EX.
  rewrite ?Hpt, ?Hct, ?Hst in EX.
  fwd EX Hpt Hct Hst Hp. rewrite Et in EX. fwd EX Hpt Hct Hst Hp.
  match type of EX with context [bind (selectTags site ?tg) _ (?h1, ?w1)] =>
    assert (Hroom : now w1 + 3000 <= t + 120000) by (cbn [now]; lia);
    assert (Hsome : tg <> []) by discriminate;
    destruct (@selectTags_in_time site present visible tg h1 w1
                (t + 120000) eq_refl Hroom Hprompt Hsome Hp Hvis Hf)
      as (h' & w' & E & Hc & Hq & Hk & Hfl & Hnow & Hdl & Hs & Hb)
  end.
  erewrite bind_ok in EX by exact E.
  erewrite (@bind_ask bool) in EX;
     [| exact Hdl | rewrite Hnow, Hst; cbn [now]; destruct visible; lia | apply Hal].
  cbv beta iota in EX. unfold succeed in EX. subst X.
  eexists. eexists. split; [reflexivity|].
  destruct (truthy (Some (website data)));
  destruct (truthy (email data));
  destruct (truthy (phone data));
  unfold elementClicks, queries, clicks, fills in *; cbn [rev] in *;
  rewrite !flat_map_app in *; cbn [flat_map] in *; rewrite ?app_nil_r in *;
  rewrite Hc, Hq, Hk, Hfl; rewrite <- ?app_assoc; cbn [List.app];
  cbn [now browser set_now] in *; rewrite ?Hst;
  (repeat split; try apply Hs; try exact Hb; try (destruct visible; lia)).
Qed.

(* ------------------------------------------------------------------ *)
(** ** A company the CRM does not know *)

(** X29.  [fillCreateCompanyForm] for a company the CRM does not know (no
    alert after the name is typed nor at the end), on a prompt page
    that answers every call: it answers [true].  The name, the optional
    fields that are filled in and the address are typed, in that order;
    the clicks are the link of the form, the tag group (twice when the
    tag area is not visible yet) and the save of the tags; every tag is
    looked up, in order, and exactly those the page has an element for
    are clicked.  It takes the 19 seconds of its fixed waits, plus 2 to
    3 seconds in the tag dialog. *)
Theorem form_is_filled_in (site : Site) (data : CompanyData)
    (present : string -> bool) (visible : bool) (h : Session) (w : World) :
  deadline w = None ->
  prompt site ->
  tags data <> [] ->
  (forall h c, settled (performs site h c) = Resolved tt) ->
  (forall h, exists n, settled (counts site h createLink) = Resolved n) ->
  (forall h, settled (shows site h errorAlert) = Resolved false) ->
  (forall h, settled (shows site h "#EditTagArea") = Resolved visible) ->
  (forall h t, settled (finds site h (tagLabel t)) = Resolved (present t)) ->
  exists h' w',
    fillCreateCompanyForm site data (h, w) = (Success true, (h', w'))
    /\ fills h'
       = fills h
         ++ [(input "Name", Some (name data))]
         ++ (if truthy (Some (website data))
             then [(input "Website", Some (website data))] else [])
         ++ (if truthy (email data) then [(input "EmailAddress", email data)] else [])
         ++ (if truthy (phone data) then [(input "PhoneNumber", phone data)] else [])
         ++ [("#CompanyCreateAutoCompleteAddress", address data)]
    /\ clicks h'
       = clicks h ++ [createLink; "#AddTagGroup"]
         ++ (if visible then [] else ["#AddTagGroup"]) ++ ["#SaveTagUpdate"]
    /\ elementClicks h'
       = elementClicks h ++ List.map tagLabel (filter present (tags data))
    /\ queries h' = queries h ++ List.map tagLabel (tags data)
    /\ now w' = now w + 19000 + (if visible then 0 else 1000) + 2000
    /\ sameStore w w'.
Proof.
  intros Hd Hprompt Hne Hp Hcount Hal Hvis Hf.
  destruct (@fillForm_fills site data present visible h
              (set_deadline (Some (now w + 120000)) w))
    as (h' & w' & E & Hfl & Hc & He & Hq & Hn & Hs & Hb);
    try assumption; [destruct w; reflexivity|].
  exists h', (set_deadline None w').
  split; [apply within_ok; assumption|].
  destruct w as [t dl pes cos m lg b], w' as [t' dl' pes' cos' m' lg' b'].
  repeat split; try assumption; apply Hs.
Qed.

Lemma newSite_prompt : prompt newSite.
Proof. repeat split. intros h c. destruct c; reflexivity. Defined.

Lemma newSite_performs (h : Session) (c : Call) :
  settled (performs newSite h c) = Resolved tt.
Proof. destruct c; reflexivity. Defined.

Lemma form_is_filled_in_witness :
  exists h' w',
    fillCreateCompanyForm newSite (formData readyCompany) ([], crmReady)
    = (Success true, (h', w'))
    /\ fills h'
       = [(input "Name", Some "Firm 1"); (input "Website", Some "http://a");
          (input "EmailAddress", Some "office@firm.example");
          (input "PhoneNumber", Some "+44 1");
          ("#CompanyCreateAutoCompleteAddress", Some "1 High Street")]
    /\ clicks h' = [createLink; "#AddTagGroup"; "#SaveTagUpdate"]
    /\ elementClicks h' = [tagLabel "Legal"; tagLabel "W"]
    /\ now w' = 21000.
Proof.
  destruct (@form_is_filled_in newSite (formData readyCompany)
              (fun t => onPage (tagLabel t)) true
              [] crmReady eq_refl newSite_prompt ltac:(discriminate)
              newSite_performs (fun _ => ex_intro _ 0%nat eq_refl)
              (fun _ => eq_refl) (fun _ => eq_refl) (fun _ _ => eq_refl))
    as (h' & w' & E & Hf & Hc & He & _ & Hn & _).
  exists h', w'. repeat split; assumption.
Defined.

(** X30.  An attempt for a company the CRM does not know, on a prompt page
    that needs no login and answers every call: the attempt succeeds;
    the form is filled in as [fillCreateCompanyForm] does it, and the
    last click is the submit button of the form.  The last four calls
    are (newest first) the removal of the lock file, [page.close()],
    the 3-second wait and that click.  The session state is saved twice
    and the context is closed; the tables stay as they are. *)
Theorem new_company_is_filled_in_and_submitted
    (env : Env) (site : Site) (payload : SyncCrmplaceDetailWorkflow.Payload)
    (attempt : nat) (h : Session) (w : World) (record : Company.t)
    (present : string -> bool) (visible : bool) :
  let c := opened (browser w) in
  let data := formData record in
  deadline w = None ->
  find (Db.hasId (SyncCrmplaceDetailWorkflow.id payload)) (company w) = Some record ->
  (1 <= contextPermits (browser w))%nat ->
  settled (newContext env c) = Resolved tt ->
  settled (saveStorageState env c) = Resolved tt ->
  settled (closeContext env c) = Resolved tt ->
  prompt site ->
  (forall h c, settled (performs site h c) = Resolved tt) ->
  (forall h, settled (counts site h "#auth-page") = Resolved 0%nat) ->
  (forall h, settled (counts site h ".error401") = Resolved 0%nat) ->
  (forall h, exists n, settled (counts site h createLink) = Resolved n) ->
  (forall h, settled (shows site h errorAlert) = Resolved false) ->
  (forall h, settled (shows site h "#EditTagArea") = Resolved visible) ->
  (forall h t, settled (finds site h (tagLabel t)) = Resolved (present t)) ->
  exists h' w',
    execute env site payload attempt (h, w) = (Success tt, (h', w'))
    /\ fills h'
       = fills h
         ++ [(input "Name", Some (name data))]
         ++ (if truthy (Some (website data))
             then [(input "Website", Some (website data))] else [])
         ++ (if truthy (email data) then [(input "EmailAddress", email data)] else [])
         ++ (if truthy (phone data) then [(input "PhoneNumber", phone data)] else [])
         ++ [("#CompanyCreateAutoCompleteAddress", address data)]
    /\ clicks h'
       = clicks h ++ [createLink; "#AddTagGroup"]
         ++ (if visible then [] else ["#AddTagGroup"])
         ++ ["#SaveTagUpdate"; submitButton]
    /\ elementClicks h'
       = elementClicks h ++ List.map tagLabel (filter present (tags data))
    /\ firstn 4 h'
       = [RemoveLockFile; ClosePage; WaitForTimeout 3000; Click submitButton]
    /\ events (browser w')
       = CloseContext c :: StorageState c :: StorageState c :: NewContext c
         :: events (browser w)
    /\ live (browser w') = BrowserService.remove c (c :: live (browser w))
    /\ sameStore w w'.
Proof.
  intros c data Hd Hf Hperm Hnew Hsave Hclose Hprompt Hp Hauth Herr Hcount Hal
    Hvis Hfind.
  pose proof Hprompt as (Hpt & Hct & Hst & Hft).
  subst c.
  destruct w as [t dl pes cos m lg [cp ap op lv ev]]. destruct payload as [i].
  cbn [browser contextPermits opened deadline company live events logs
       SyncCrmplaceDetailWorkflow.id] in *.
  subst dl.
  unfold execute, interaction.
  remember (fillCreateCompanyForm site) as form eqn:Eform.
  crm. rewrite Hf. crm.
  destruct (Nat.ltb_spec cp 1) as [|_]; [lia|].
  crm. rewrite Hnew. crm.
  rewrite ?Hpt, ?Hct, ?Hst. cbv beta iota. clock. rewrite Hp. crm.
  rewrite ?Hpt, ?Hct, ?Hst. cbv beta iota. rewrite Hp. crm.
  rewrite Hauth. crm. rewrite Herr. crm. rewrite Hsave. crm.
  rewrite ?Hct.
  match goal with |- context [form ?d ?s] =>
    match s with (?h1, ?w1) =>
      destruct (@fillForm_fills site d present visible h1
                  (set_deadline (Some (now w1 + 120000)) w1) eq_refl Hprompt
                  ltac:(discriminate) Hp Hcount Hal Hvis Hfind)
        as (h' & w' & E & Hfl & Hc & He & Hq & Hn & Hs & Hb);
      assert (E' : form d s = (Success true, (h', set_deadline None w')))
        by (rewrite Eform; apply within_ok; [reflexivity | exact E])
    end
  end.
  rewrite E'. clear E E'.
  destruct w' as [t' dl' pes' cos' m' lg' b'].
  destruct Hs as (Hs1 & Hs2 & Hs3).
  cbn [now browser company placeEntry metrics set_deadline set_now] in Hn, Hb, Hs1, Hs2, Hs3.
  subst t' b' pes' cos' m'.
  crm. rewrite ?Hp. crm.
  rewrite ?Hpt, ?Hct, ?Hst. cbv beta iota. rewrite ?Hp. crm.
  rewrite ?Hpt, ?Hct, ?Hst. cbv beta iota. clock. rewrite ?Hp. crm.
  rewrite ?Hsave. crm. rewrite ?Hclose. crm.
  eexists. eexists. split; [reflexivity|].
  unfold elementClicks, clicks, fills in *. cbn [rev] in *.
  rewrite !flat_map_app in *. cbn [flat_map] in *. rewrite ?app_nil_r in *.
  rewrite Hc, He, Hfl. rewrite <- ?app_assoc. cbn [List.app firstn BrowserService.remove].
  repeat split.
Qed.

Lemma new_company_is_filled_in_and_submitted_witness :
  exists h' w',
    execute sampleEnv newSite (syncOf "company-0") 1 ([], crmReady)
    = (Success tt, (h', w'))
    /\ clicks h' = [createLink; "#AddTagGroup"; "#SaveTagUpdate"; submitButton]
    /\ elementClicks h' = [tagLabel "Legal"; tagLabel "W"]
    /\ events (browser w')
       = [CloseContext 0; StorageState 0; StorageState 0; NewContext 0].
Proof.
  destruct (@new_company_is_filled_in_and_submitted sampleEnv newSite
              (syncOf "company-0") 1 [] crmReady readyCompany
              (fun t => onPage (tagLabel t)) true
              eq_refl eq_refl ltac:(cbn; lia) eq_refl eq_refl eq_refl
              newSite_prompt
              newSite_performs (fun _ => eq_refl) (fun _ => eq_refl)
              (fun _ => ex_intro _ 0%nat eq_refl)
              (fun _ => eq_refl) (fun _ => eq_refl) (fun _ _ => eq_refl))
    as (h' & w' & E & _ & Hc & He & _ & Hv & _).
  exists h', w'. repeat split; assumption.
Defined.

End CrmPage.
